(** * The SQS command-file parser of vscode-sqsclient

    A shallow embedding of [parseSQSCommands] and [finalizeCommand]
    (src/utils/commandParser.ts, duplicated verbatim in src/extension.ts)
    together with the pieces of the JavaScript runtime and of the VS Code
    API they call: [String.prototype.trim], [split], [startsWith], the six
    regular expressions, [parseInt], [JSON.parse], [vscode.Position] and
    [vscode.Range].

    JavaScript strings are sequences of UTF-16 code units; a code unit is
    modelled as an [N] and a string as a [list N].  Line numbers are [Z]
    (the source uses the sentinel [-1] and computes [i - 1]).  The two
    settings that the parser reads from the workspace are an argument of
    the embedding.  What the API can throw is a [Throw] of the result
    type; a [SyntaxError] of [JSON.parse], which the source catches, is a
    [None].

    The first part of the file holds the embedding and the vocabulary of
    the properties, the second part the properties: the loop is total and
    keeps the required fields of every command; a document is parsed
    block by block, each header sealing the command before it; blank and
    comment lines, the [###] delimiter among them, change nothing; and the
    body of a SEND command is what [JSON.parse] makes of the body lines
    whenever the brace depth of the scanner follows the object to its
    last line. *)

From Stdlib Require Import ZArith NArith List Bool Lia String Ascii.
Import ListNotations.

Local Open Scope Z_scope.

Set Warnings "-register-all".

(* ================================================================== *)
(** ** JavaScript strings *)
(* ================================================================== *)

Module JS.

Definition jsstring : Type := list N.

(** The string of an ASCII literal. *)
Definition js (s : string) : jsstring := List.map N_of_ascii (list_ascii_of_string s).

Definition jsstring_eqb (a b : jsstring) : bool :=
  if list_eq_dec N.eq_dec a b then true else false.

(** ECMAScript WhiteSpace and LineTerminator code points: what [trim]
    strips and what the regular-expression class [\s] matches. *)
Definition is_whitespace (c : N) : bool :=
  ((c =? 9) || (c =? 10) || (c =? 11) || (c =? 12) || (c =? 13) || (c =? 32)
   || (c =? 160) || (c =? 5760) || ((8192 <=? c) && (c <=? 8202))
   || (c =? 8232) || (c =? 8233) || (c =? 8239) || (c =? 8287)
   || (c =? 12288) || (c =? 65279))%N.

(** LineTerminator code points: the characters the regular-expression
    atom [.] does not match. *)
Definition is_line_terminator (c : N) : bool :=
  ((c =? 10) || (c =? 13) || (c =? 8232) || (c =? 8233))%N.

(** The class [\d]. *)
Definition is_digit (c : N) : bool := ((48 <=? c) && (c <=? 57))%N.

Fixpoint drop_while (p : N -> bool) (s : jsstring) : jsstring :=
  match s with
  | [] => []
  | c :: s' => if p c then drop_while p s' else s
  end.

Fixpoint take_while (p : N -> bool) (s : jsstring) : jsstring :=
  match s with
  | [] => []
  | c :: s' => if p c then c :: take_while p s' else []
  end.

(** [s.trim()] *)
Definition trim (s : jsstring) : jsstring :=
  rev (drop_while is_whitespace (rev (drop_while is_whitespace s))).

(** [s.startsWith(p)] *)
Fixpoint startsWith (p s : jsstring) : bool :=
  match p, s with
  | [], _ => true
  | _ :: _, [] => false
  | a :: p', b :: s' => (a =? b)%N && startsWith p' s'
  end.

(** The rest of [s] after the literal [p], when [s] starts with it. *)
Fixpoint strip_prefix (p s : jsstring) : option jsstring :=
  match p, s with
  | [], _ => Some s
  | _ :: _, [] => None
  | a :: p', b :: s' => if (a =? b)%N then strip_prefix p' s' else None
  end.

(** [text.split('\n')]: never the empty array. *)
Fixpoint split_lines (s : jsstring) : list jsstring :=
  match s with
  | [] => [[]]
  | c :: s' =>
      if (c =? 10)%N then [] :: split_lines s'
      else match split_lines s' with
           | l :: ls => (c :: l) :: ls
           | [] => [[c]]
           end
  end.

(** [lines.join('\n')] *)
Fixpoint join_lines (ls : list jsstring) : jsstring :=
  match ls with
  | [] => []
  | [l] => l
  | l :: ls' => l ++ 10%N :: join_lines ls'
  end.

(** [parseInt(digits, 10)] on a string of decimal digits.  The result is
    the exact integer; the rounding of a JavaScript number above 2^53 is
    not modelled. *)
Definition parseInt (digits : jsstring) : N :=
  fold_left (fun acc c => (10 * acc + (c - 48))%N) digits 0%N.

(** JavaScript truthiness of a string. *)
Definition truthy_string (s : jsstring) : bool :=
  match s with [] => false | _ :: _ => true end.

End JS.

Import JS.

(* ================================================================== *)
(** ** The data model (src/models/sqsTypes.ts) and the VS Code API *)
(* ================================================================== *)

(** [type SQSCommandType = 'SEND' | 'RECEIVE' | 'PURGE'] *)
Inductive SQSCommandType : Type := SEND | RECEIVE | PURGE.

Definition SQSCommandType_eqb (a b : SQSCommandType) : bool :=
  match a, b with
  | SEND, SEND | RECEIVE, RECEIVE | PURGE, PURGE => true
  | _, _ => false
  end.

Module Vscode.

(** What a constructor of the API throws. *)
Inductive exn : Type := IllegalArgument (msg : string).

Inductive result (A : Type) : Type :=
| Ok (a : A)
| Throw (e : exn).

Arguments Ok {A} a.
Arguments Throw {A} e.

Definition bind {A B : Type} (m : result A) (k : A -> result B) : result B :=
  match m with
  | Ok a => k a
  | Throw e => Throw e
  end.

Record Position : Type := mkPosition { line : Z; character : Z }.

(** [new vscode.Position(line, character)] rejects a negative argument. *)
Definition new_Position (l c : Z) : result Position :=
  if l <? 0 then Throw (IllegalArgument "line must be non-negative")
  else if c <? 0 then Throw (IllegalArgument "character must be non-negative")
  else Ok (mkPosition l c).

Definition isBefore (a b : Position) : bool :=
  if line a <? line b then true
  else if line b <? line a then false
  else character a <? character b.

Record Range : Type := mkRange { range_start : Position; range_end : Position }.

(** [new vscode.Range(start, end)] orders its two positions. *)
Definition new_Range (a b : Position) : Range :=
  if isBefore a b then mkRange a b else mkRange b a.

(** The two settings the parser reads with
    [vscode.workspace.getConfiguration(..).get(..)]; [None] is
    [undefined], a setting that is not there. *)
Record Configuration : Type := mkConfiguration {
  defaultProfile : option jsstring;
  defaultRegion : option jsstring
}.

End Vscode.

Import Vscode.

Notation "x <- m ;; k" := (bind m (fun x => k))
  (at level 61, m at next level, right associativity).

(** [v || d] for an optional string [v]: [undefined] and the empty string
    are falsy. *)
Definition or_default (v : option jsstring) (d : jsstring) : jsstring :=
  match v with
  | Some s => if truthy_string s then s else d
  | None => d
  end.

(* ================================================================== *)
(** ** The regular expressions of [parseSQSCommands] *)
(* ================================================================== *)

Module Patterns.

Definition not_whitespace (c : N) : bool := negb (is_whitespace c).

Definition not_line_terminator (c : N) : bool := negb (is_line_terminator c).

(** One alternative of [/^(SEND|RECEIVE|PURGE)\s+([^\s]+)/]: the keyword,
    one or more [\s], then the longest run of [[^\s]], which must not be
    empty.  Giving back white space cannot help [[^\s]+], so the greedy
    choice is the only one. *)
Definition match_keyword_target (kw line : jsstring) : option jsstring :=
  match strip_prefix kw line with
  | Some rest =>
      match take_while is_whitespace rest,
            take_while not_whitespace (drop_while is_whitespace rest) with
      | _ :: _, (_ :: _) as target => Some target
      | _, _ => None
      end
  | None => None
  end.

(** [line.match(commandBlockPattern)]: groups 1 and 2. *)
Definition commandBlockPattern (line : jsstring) : option (SQSCommandType * jsstring) :=
  match match_keyword_target (js "SEND") line with
  | Some t => Some (SEND, t)
  | None =>
      match match_keyword_target (js "RECEIVE") line with
      | Some t => Some (RECEIVE, t)
      | None =>
          match match_keyword_target (js "PURGE") line with
          | Some t => Some (PURGE, t)
          | None => None
          end
      end
  end.

(** The common front [^name\s*:\s*] of the five parameter patterns.  The
    first [\s*] must take the whole run (a [:] is no white space); the
    result is the longest run the second [\s*] can take, and what follows
    it. *)
Definition param_front (name line : jsstring) : option (jsstring * jsstring) :=
  match strip_prefix name line with
  | Some r1 =>
      match drop_while is_whitespace r1 with
      | c :: r2 =>
          if (c =? 58)%N
          then Some (take_while is_whitespace r2, drop_while is_whitespace r2)
          else None
      | [] => None
      end
  | None => None
  end.

(** [/^name\s*:\s*(.+)$/], group 1.  [(.+)$] must reach the end of the
    string over characters that are no line terminators.  When nothing
    follows the white space after the colon, the second [\s*] backtracks
    by one character and the group is that last white-space character. *)
Definition match_text_param (name line : jsstring) : option jsstring :=
  match param_front name line with
  | Some (w, r) =>
      match r with
      | _ :: _ => if forallb not_line_terminator r then Some r else None
      | [] =>
          match rev w with
          | c :: _ => if not_line_terminator c then Some [c] else None
          | [] => None
          end
      end
  | None => None
  end.

(** [/^name\s*:\s*(\d+)$/], group 1. *)
Definition match_digits_param (name line : jsstring) : option jsstring :=
  match param_front name line with
  | Some (_, r) =>
      match r with
      | _ :: _ => if forallb is_digit r then Some r else None
      | [] => None
      end
  | None => None
  end.

Definition profilePattern : jsstring -> option jsstring := match_text_param (js "profile").
Definition regionPattern : jsstring -> option jsstring := match_text_param (js "region").
Definition maxMessagesPattern : jsstring -> option jsstring := match_digits_param (js "max-messages").
Definition visibilityTimeoutPattern : jsstring -> option jsstring := match_digits_param (js "visibility-timeout").
Definition waitTimePattern : jsstring -> option jsstring := match_digits_param (js "wait-time").

End Patterns.

Import Patterns.

(* ================================================================== *)
(** ** [JSON.parse] *)
(* ================================================================== *)

Module Json.

(** A parsed JSON value.  A number is kept as its exact decimal value
    [mantissa * 10^exponent] in lowest terms of ten (the mantissa is not a
    multiple of ten, or both are [0]); the rounding to an IEEE double is
    not modelled.  An object keeps its members in source order. *)
Inductive json : Type :=
| JNull
| JBool (b : bool)
| JNumber (mantissa exponent : Z)
| JString (s : jsstring)
| JArray (elements : list json)
| JObject (members : list (jsstring * json)).

(** JavaScript truthiness of a parsed value. *)
Definition truthy (v : json) : bool :=
  match v with
  | JNull => false
  | JBool b => b
  | JNumber m _ => negb (m =? 0)
  | JString s => truthy_string s
  | JArray _ | JObject _ => true
  end.

Inductive token : Type :=
| TLBrace | TRBrace | TLBracket | TRBracket | TColon | TComma
| TString (s : jsstring)
| TNumber (mantissa exponent : Z)
| TTrue | TFalse | TNull.

(** JSON white space: tab, line feed, carriage return, space. *)
Definition is_json_whitespace (c : N) : bool :=
  ((c =? 9) || (c =? 10) || (c =? 13) || (c =? 32))%N.

Definition is_number_char (c : N) : bool :=
  (is_digit c || (c =? 43) || (c =? 45) || (c =? 46) || (c =? 69) || (c =? 101))%N.

Definition is_lower_letter (c : N) : bool := ((97 <=? c) && (c <=? 122))%N.

Definition hex_value (c : N) : option N :=
  if is_digit c then Some (c - 48)%N
  else if ((97 <=? c) && (c <=? 102))%N then Some (c - 87)%N
  else if ((65 <=? c) && (c <=? 70))%N then Some (c - 55)%N
  else None.

Definition digits_value (ds : jsstring) : Z := Z.of_N (parseInt ds).

(** The decimal value of the digit string [ds] scaled by [10^e], with the
    trailing zeros of [ds] moved into the exponent. *)
Definition decimal_value (neg : bool) (ds : jsstring) (e : Z) : Z * Z :=
  let kept := rev (drop_while (fun c => (c =? 48)%N) (rev ds)) in
  let m := digits_value kept in
  if m =? 0 then (0, 0)
  else ((if neg then - m else m), e + Z.of_nat (List.length ds - List.length kept)).

(** The exponent part of a number: nothing, or [e]/[E], an optional
    sign and one or more digits, up to the end of the lexeme. *)
Definition parse_exponent (s : jsstring) : option Z :=
  match s with
  | [] => Some 0
  | c :: s1 =>
      if ((c =? 101) || (c =? 69))%N then
        let '(neg, s2) :=
          match s1 with
          | d :: s2 => if (d =? 45)%N then (true, s2)
                       else if (d =? 43)%N then (false, s2) else (false, s1)
          | [] => (false, s1)
          end in
        match s2 with
        | _ :: _ =>
            if forallb is_digit s2
            then Some (if neg then - digits_value s2 else digits_value s2)
            else None
        | [] => None
        end
      else None
  end.

(** A number lexeme: an optional minus sign; an integer part that is [0]
    or starts with a digit from 1 to 9; an optional fraction, a dot and
    one or more digits; an optional exponent. *)
Definition parse_number (s : jsstring) : option (Z * Z) :=
  let '(neg, s1) :=
    match s with
    | c :: s1 => if (c =? 45)%N then (true, s1) else (false, s)
    | [] => (false, s)
    end in
  let int := take_while is_digit s1 in
  let s2 := drop_while is_digit s1 in
  match int with
  | [] => None
  | d :: int' =>
      if ((d =? 48)%N && negb (match int' with [] => true | _ => false end))
      then None
      else
        let '(frac, s3, ok) :=
          match s2 with
          | c :: s2' =>
              if (c =? 46)%N
              then (take_while is_digit s2', drop_while is_digit s2',
                    match take_while is_digit s2' with [] => false | _ => true end)
              else ([], s2, true)
          | [] => ([], s2, true)
          end in
        if ok then
          match parse_exponent s3 with
          | Some e => Some (decimal_value neg (int ++ frac) (e - Z.of_nat (List.length frac)))
          | None => None
          end
        else None
  end.

Definition parse_word (s : jsstring) : option token :=
  if jsstring_eqb s (js "true") then Some TTrue
  else if jsstring_eqb s (js "false") then Some TFalse
  else if jsstring_eqb s (js "null") then Some TNull
  else None.

(** The lexer reads one code unit at a time.  The accumulators hold the
    characters of the current lexeme in reverse. *)
Inductive lex_mode : Type :=
| LxIdle
| LxString (acc : jsstring)
| LxEscape (acc : jsstring)
| LxUnicode (acc : jsstring) (hex : list N)
| LxNumber (acc : jsstring)
| LxWord (acc : jsstring).

Definition lex_idle (c : N) (toks : list token) : option (lex_mode * list token) :=
  if is_json_whitespace c then Some (LxIdle, toks)
  else if (c =? 123)%N then Some (LxIdle, TLBrace :: toks)
  else if (c =? 125)%N then Some (LxIdle, TRBrace :: toks)
  else if (c =? 91)%N then Some (LxIdle, TLBracket :: toks)
  else if (c =? 93)%N then Some (LxIdle, TRBracket :: toks)
  else if (c =? 58)%N then Some (LxIdle, TColon :: toks)
  else if (c =? 44)%N then Some (LxIdle, TComma :: toks)
  else if (c =? 34)%N then Some (LxString [], toks)
  else if (is_digit c || (c =? 45))%N then Some (LxNumber [c], toks)
  else if is_lower_letter c then Some (LxWord [c], toks)
  else None.

Definition lex_escape (c : N) : option N :=
  if ((c =? 34) || (c =? 92) || (c =? 47))%N then Some c
  else if (c =? 98)%N then Some 8%N
  else if (c =? 102)%N then Some 12%N
  else if (c =? 110)%N then Some 10%N
  else if (c =? 114)%N then Some 13%N
  else if (c =? 116)%N then Some 9%N
  else None.

Definition lex_step (c : N) (st : lex_mode * list token) : option (lex_mode * list token) :=
  let '(mode, toks) := st in
  match mode with
  | LxIdle => lex_idle c toks
  | LxString acc =>
      if (c =? 34)%N then Some (LxIdle, TString (rev acc) :: toks)
      else if (c =? 92)%N then Some (LxEscape acc, toks)
      else if (c <? 32)%N then None
      else Some (LxString (c :: acc), toks)
  | LxEscape acc =>
      if (c =? 117)%N then Some (LxUnicode acc [], toks)
      else match lex_escape c with
           | Some d => Some (LxString (d :: acc), toks)
           | None => None
           end
  | LxUnicode acc hex =>
      match hex_value c with
      | Some v =>
          match hex with
          | [a; b; d] => Some (LxString ((((a * 16 + b) * 16 + d) * 16 + v)%N :: acc), toks)
          | _ => Some (LxUnicode acc (hex ++ [v]), toks)
          end
      | None => None
      end
  | LxNumber acc =>
      if is_number_char c then Some (LxNumber (c :: acc), toks)
      else match parse_number (rev acc) with
           | Some (m, e) => lex_idle c (TNumber m e :: toks)
           | None => None
           end
  | LxWord acc =>
      if is_lower_letter c then Some (LxWord (c :: acc), toks)
      else match parse_word (rev acc) with
           | Some t => lex_idle c (t :: toks)
           | None => None
           end
  end.

Fixpoint lex_from (s : jsstring) (st : lex_mode * list token) : option (lex_mode * list token) :=
  match s with
  | [] => Some st
  | c :: s' =>
      match lex_step c st with
      | Some st' => lex_from s' st'
      | None => None
      end
  end.

(** The tokens of a text, in order; [None] on a lexical error. *)
Definition lex (s : jsstring) : option (list token) :=
  match lex_from s (LxIdle, []) with
  | Some (LxIdle, toks) => Some (rev toks)
  | Some (LxNumber acc, toks) =>
      match parse_number (rev acc) with
      | Some (m, e) => Some (rev (TNumber m e :: toks))
      | None => None
      end
  | Some (LxWord acc, toks) =>
      match parse_word (rev acc) with
      | Some t => Some (rev (t :: toks))
      | None => None
      end
  | _ => None
  end.

(** The parser is a pushdown automaton over the tokens.  A frame is an
    array or an object under construction (elements and members in
    reverse), an object with the key that awaits its value. *)
Inductive frame : Type :=
| FArray (elements : list json)
| FObject (members : list (jsstring * json)) (key : option jsstring).

Inductive expect : Type :=
| EValue          (* a value *)
| EValueOrEnd     (* just after [[]: a value or []] *)
| EKeyOrEnd       (* just after [{]: a key or [}] *)
| EKey            (* after a comma in an object *)
| EColon
| ECommaOrEnd
| EDone (v : json).

Definition push_value (v : json) (stack : list frame) : option (expect * list frame) :=
  match stack with
  | [] => Some (EDone v, [])
  | FArray acc :: st => Some (ECommaOrEnd, FArray (v :: acc) :: st)
  | FObject acc (Some k) :: st => Some (ECommaOrEnd, FObject ((k, v) :: acc) None :: st)
  | FObject _ None :: _ => None
  end.

Definition parse_value_token (t : token) (stack : list frame) : option (expect * list frame) :=
  match t with
  | TLBrace => Some (EKeyOrEnd, FObject [] None :: stack)
  | TLBracket => Some (EValueOrEnd, FArray [] :: stack)
  | TString s => push_value (JString s) stack
  | TNumber m e => push_value (JNumber m e) stack
  | TTrue => push_value (JBool true) stack
  | TFalse => push_value (JBool false) stack
  | TNull => push_value JNull stack
  | _ => None
  end.

Definition parse_key_token (t : token) (stack : list frame) : option (expect * list frame) :=
  match t, stack with
  | TString k, FObject acc None :: st => Some (EColon, FObject acc (Some k) :: st)
  | _, _ => None
  end.

Definition parse_step (t : token) (st : expect * list frame) : option (expect * list frame) :=
  let '(e, stack) := st in
  match e with
  | EValue => parse_value_token t stack
  | EValueOrEnd =>
      match t, stack with
      | TRBracket, FArray acc :: rest => push_value (JArray (rev acc)) rest
      | _, _ => parse_value_token t stack
      end
  | EKeyOrEnd =>
      match t, stack with
      | TRBrace, FObject acc None :: rest => push_value (JObject (rev acc)) rest
      | _, _ => parse_key_token t stack
      end
  | EKey => parse_key_token t stack
  | EColon => match t with TColon => Some (EValue, stack) | _ => None end
  | ECommaOrEnd =>
      match t, stack with
      | TComma, FArray _ :: _ => Some (EValue, stack)
      | TComma, FObject _ None :: _ => Some (EKey, stack)
      | TRBracket, FArray acc :: rest => push_value (JArray (rev acc)) rest
      | TRBrace, FObject acc None :: rest => push_value (JObject (rev acc)) rest
      | _, _ => None
      end
  | EDone _ => None
  end.

Fixpoint parse_tokens (ts : list token) (st : expect * list frame) : option json :=
  match ts with
  | [] => match st with (EDone v, []) => Some v | _ => None end
  | t :: ts' =>
      match parse_step t st with
      | Some st' => parse_tokens ts' st'
      | None => None
      end
  end.

(** [JSON.parse(text)]; [None] is a thrown [SyntaxError]. *)
Definition JSON_parse (text : jsstring) : option json :=
  match lex text with
  | Some ts => parse_tokens ts (EValue, [])
  | None => None
  end.

End Json.

Import Json.

(* ================================================================== *)
(** ** The parser (src/utils/commandParser.ts) *)
(* ================================================================== *)

(** [Partial<SQSCommand>]: the object the scan builds and, after the cast
    [currentCommand as SQSCommand], the object it emits.  Every field may
    be [undefined]. *)
Record SQSCommand : Type := mkSQSCommand {
  type : option SQSCommandType;
  queueUrl : option jsstring;
  profile : option jsstring;
  region : option jsstring;
  messageBody : option json;
  messageAttributes : option json;
  maxMessages : option N;
  visibilityTimeout : option N;
  waitTimeSeconds : option N;
  range : option Range
}.

Definition set_profile (c : SQSCommand) (v : jsstring) : SQSCommand :=
  mkSQSCommand (type c) (queueUrl c) (Some v) (region c) (messageBody c)
    (messageAttributes c) (maxMessages c) (visibilityTimeout c) (waitTimeSeconds c) (range c).

Definition set_region (c : SQSCommand) (v : jsstring) : SQSCommand :=
  mkSQSCommand (type c) (queueUrl c) (profile c) (Some v) (messageBody c)
    (messageAttributes c) (maxMessages c) (visibilityTimeout c) (waitTimeSeconds c) (range c).

Definition set_messageBody (c : SQSCommand) (v : json) : SQSCommand :=
  mkSQSCommand (type c) (queueUrl c) (profile c) (region c) (Some v)
    (messageAttributes c) (maxMessages c) (visibilityTimeout c) (waitTimeSeconds c) (range c).

Definition set_maxMessages (c : SQSCommand) (v : N) : SQSCommand :=
  mkSQSCommand (type c) (queueUrl c) (profile c) (region c) (messageBody c)
    (messageAttributes c) (Some v) (visibilityTimeout c) (waitTimeSeconds c) (range c).

Definition set_visibilityTimeout (c : SQSCommand) (v : N) : SQSCommand :=
  mkSQSCommand (type c) (queueUrl c) (profile c) (region c) (messageBody c)
    (messageAttributes c) (maxMessages c) (Some v) (waitTimeSeconds c) (range c).

Definition set_waitTimeSeconds (c : SQSCommand) (v : N) : SQSCommand :=
  mkSQSCommand (type c) (queueUrl c) (profile c) (region c) (messageBody c)
    (messageAttributes c) (maxMessages c) (visibilityTimeout c) (Some v) (range c).

Definition set_range (c : SQSCommand) (v : Range) : SQSCommand :=
  mkSQSCommand (type c) (queueUrl c) (profile c) (region c) (messageBody c)
    (messageAttributes c) (maxMessages c) (visibilityTimeout c) (waitTimeSeconds c) (Some v).

Definition has_type (c : SQSCommand) (t : SQSCommandType) : bool :=
  match type c with
  | Some t' => SQSCommandType_eqb t' t
  | None => false
  end.

(** [command.type && command.queueUrl] *)
Definition type_and_queueUrl (c : SQSCommand) : bool :=
  match type c, queueUrl c with
  | Some _, Some u => truthy_string u
  | _, _ => false
  end.

(** [!command.messageBody] *)
Definition no_messageBody (c : SQSCommand) : bool :=
  match messageBody c with
  | Some v => negb (truthy v)
  | None => true
  end.

(** [finalizeCommand(command, startLine, endLine, bodyLines)] mutates
    [command]; here it returns the mutated record.  The [try]/[catch]
    around [JSON.parse] leaves the command as it is on a [SyntaxError]. *)
Definition finalizeCommand (command : SQSCommand) (startLine endLine : Z)
    (bodyLines : list jsstring) : result SQSCommand :=
  s <- new_Position startLine 0 ;;
  e <- new_Position endLine 1000 ;;
  let command := set_range command (new_Range s e) in
  if has_type command SEND && no_messageBody command
     && (0 <? Z.of_nat (List.length bodyLines))
  then match JSON_parse (join_lines bodyLines) with
       | Some v => Ok (set_messageBody command v)
       | None => Ok command
       end
  else Ok command.

(** The local variables of the loop of [parseSQSCommands]. *)
Record scanner : Type := mkScanner {
  commands : list SQSCommand;
  currentCommand : option SQSCommand;
  commandBodyStartLine : Z;
  commandBodyLines : list jsstring;
  inJsonBody : bool;
  jsonStartLine : Z;
  bracesCount : Z
}.

Definition initial : scanner := mkScanner [] None (-1) [] false (-1) 0.

Definition with_currentCommand (st : scanner) (c : SQSCommand) : scanner :=
  mkScanner (commands st) (Some c) (commandBodyStartLine st) (commandBodyLines st)
    (inJsonBody st) (jsonStartLine st) (bracesCount st).

(** [finalizeCommand(..); commands.push(currentCommand); commandBodyLines = []]
    under its guard [currentCommand && currentCommand.type &&
    currentCommand.queueUrl]. *)
Definition push_current (st : scanner) (endLine : Z) : result scanner :=
  match currentCommand st with
  | Some c =>
      if type_and_queueUrl c then
        c' <- finalizeCommand c (commandBodyStartLine st) endLine (commandBodyLines st) ;;
        Ok (mkScanner (commands st ++ [c']) (Some c') (commandBodyStartLine st) []
              (inJsonBody st) (jsonStartLine st) (bracesCount st))
      else Ok st
  | None => Ok st
  end.

(** The object literal of a new command; the defaults are
    [get('defaultProfile') || 'default'] and
    [get('defaultRegion') || 'us-east-1']. *)
Definition new_command (cfg : Configuration) (commandType : SQSCommandType)
    (url : jsstring) : SQSCommand :=
  mkSQSCommand (Some commandType) (Some url)
    (Some (or_default (defaultProfile cfg) (js "default")))
    (Some (or_default (defaultRegion cfg) (js "us-east-1")))
    None None None None None None.

(** A line that matches [commandBlockPattern]. *)
Definition on_header (cfg : Configuration) (i : Z) (commandType : SQSCommandType)
    (url : jsstring) (st : scanner) : result scanner :=
  st1 <- push_current st (i - 1) ;;
  Ok (mkScanner (commands st1) (Some (new_command cfg commandType url)) i
        (commandBodyLines st1) false (-1) (bracesCount st1)).

(** The three parameters of a RECEIVE command; [None] when the line is
    none of them. *)
Definition receive_parameter (c : SQSCommand) (line : jsstring) : option SQSCommand :=
  match maxMessagesPattern line with
  | Some d => Some (set_maxMessages c (parseInt d))
  | None =>
      match visibilityTimeoutPattern line with
      | Some d => Some (set_visibilityTimeout c (parseInt d))
      | None =>
          match waitTimePattern line with
          | Some d => Some (set_waitTimeSeconds c (parseInt d))
          | None => None
          end
      end
  end.

(** The branch [else if (currentCommand && !inJsonBody)]. *)
Definition on_parameter_line (i : Z) (line : jsstring) (c : SQSCommand)
    (st : scanner) : result scanner :=
  match profilePattern line with
  | Some v => Ok (with_currentCommand st (set_profile c (trim v)))
  | None =>
  match regionPattern line with
  | Some v => Ok (with_currentCommand st (set_region c (trim v)))
  | None =>
  match (if has_type c RECEIVE then receive_parameter c line else None) with
  | Some c' => Ok (with_currentCommand st c')
  | None =>
      if has_type c SEND && startsWith (js "{") line then
        Ok (mkScanner (commands st) (currentCommand st) (commandBodyStartLine st)
              (commandBodyLines st ++ [line]) true i 1)
      else if jsstring_eqb line (js "###") then
        st1 <- push_current st i ;;
        Ok (mkScanner (commands st1) None (-1) (commandBodyLines st1) false (-1)
              (bracesCount st1))
      else Ok st
  end end end.

(** The inner loop over the characters of a body line. *)
Definition count_braces (line : jsstring) (n : Z) : Z :=
  fold_left (fun n c => if (c =? 123)%N then n + 1
                        else if (c =? 125)%N then n - 1 else n) line n.

(** The branch [else if (inJsonBody)]. *)
Definition on_json_line (line : jsstring) (st : scanner) : result scanner :=
  let body := commandBodyLines st ++ [line] in
  let n := count_braces line (bracesCount st) in
  if n =? 0 then
    let cur :=
      match currentCommand st with
      | Some c =>
          if has_type c SEND then
            match JSON_parse (join_lines body) with
            | Some v => Some (set_messageBody c v)
            | None => Some c
            end
          else Some c
      | None => None
      end in
    Ok (mkScanner (commands st) cur (commandBodyStartLine st) body false
          (jsonStartLine st) n)
  else
    Ok (mkScanner (commands st) (currentCommand st) (commandBodyStartLine st) body
          (inJsonBody st) (jsonStartLine st) n).

(** A blank or comment line: [line === '' || line.startsWith('#')]. *)
Definition is_skipped (line : jsstring) : bool :=
  jsstring_eqb line [] || startsWith (js "#") line.

(** One iteration of the loop, on line [i] of the document. *)
Definition step (cfg : Configuration) (i : Z) (raw : jsstring) (st : scanner)
    : result scanner :=
  let line := trim raw in
  if is_skipped line then Ok st
  else
    match commandBlockPattern line with
    | Some (commandType, url) => on_header cfg i commandType url st
    | None =>
        match currentCommand st with
        | Some c =>
            if negb (inJsonBody st) then on_parameter_line i line c st
            else on_json_line line st
        | None =>
            if inJsonBody st then on_json_line line st else Ok st
        end
    end.

(** The loop [for (let i = 0; i < lines.length; i++)], from line [i]. *)
Fixpoint scan (cfg : Configuration) (i : Z) (lines : list jsstring) (st : scanner)
    : result scanner :=
  match lines with
  | [] => Ok st
  | raw :: rest => st' <- step cfg i raw st ;; scan cfg (i + 1) rest st'
  end.

(** What follows the loop: the command that is open at the end of the
    file. *)
Definition at_end_of_file (n_lines : Z) (st : scanner) : result (list SQSCommand) :=
  match currentCommand st with
  | Some c =>
      if type_and_queueUrl c then
        c' <- finalizeCommand c (commandBodyStartLine st) (n_lines - 1)
                (commandBodyLines st) ;;
        Ok (commands st ++ [c'])
      else Ok (commands st)
  | None => Ok (commands st)
  end.

Definition parseLines (cfg : Configuration) (lines : list jsstring)
    : result (list SQSCommand) :=
  st <- scan cfg 0 lines initial ;;
  at_end_of_file (Z.of_nat (List.length lines)) st.

(** [parseSQSCommands(document)], on the text of the document and the
    configuration of the workspace. *)
Definition parseSQSCommands (cfg : Configuration) (text : jsstring)
    : result (list SQSCommand) :=
  parseLines cfg (split_lines text).

(* ================================================================== *)
(** ** The CodeLens providers and the RECEIVE handlers *)
(* ================================================================== *)

(** What a provider can throw: the error of a constructor of the API,
    or the [TypeError] of reading a property of [undefined]. *)
Inductive thrown : Type :=
| ApiError (e : exn)
| TypeError.

Inductive outcome (A : Type) : Type :=
| Returns (a : A)
| Throws (e : thrown).

Arguments Returns {A} a.
Arguments Throws {A} e.

(** A call of the API inside a provider. *)
Definition api {A : Type} (m : result A) : outcome A :=
  match m with
  | Ok a => Returns a
  | Throw e => Throws (ApiError e)
  end.

(** What the providers read of a [vscode.TextDocument]. *)
Record TextDocument : Type := mkTextDocument {
  languageId : jsstring;
  getText : jsstring
}.

(** [vscode.Command] and [vscode.CodeLens]. *)
Record Command : Type := mkCommand {
  title : jsstring;
  command : jsstring;
  arguments : list SQSCommand
}.

Record CodeLens : Type := mkCodeLens {
  lens_range : Range;
  lens_command : Command
}.

(** The loop [for (const command of commands)], whose body ends with
    [codeLenses.push(codeLens)]. *)
Fixpoint for_each_command (body : SQSCommand -> outcome CodeLens)
    (commands : list SQSCommand) (codeLenses : list CodeLens) : outcome (list CodeLens) :=
  match commands with
  | [] => Returns codeLenses
  | c :: rest =>
      match body c with
      | Returns codeLens => for_each_command body rest (codeLenses ++ [codeLens])
      | Throws e => Throws e
      end
  end.

(** The string of a type in a template literal. *)
Definition type_string (t : option SQSCommandType) : jsstring :=
  match t with
  | Some SEND => js "SEND"
  | Some RECEIVE => js "RECEIVE"
  | Some PURGE => js "PURGE"
  | None => js "undefined"
  end.

(** src/providers/sqsCodeLensProvider.ts and the first extension.ts. *)
Module Providers.

Definition provideCodeLenses (cfg : Configuration) (document : TextDocument)
    : outcome (list CodeLens) :=
  if negb (jsstring_eqb (languageId document) (js "sqs")) then Returns []
  else
    match api (parseSQSCommands cfg (getText document)) with
    | Throws e => Throws e
    | Returns commands =>
        for_each_command (fun c =>
          match range c with
          | None => Throws TypeError
          | Some r =>
              let firstLine := line (range_start r) in
              match api (new_Position firstLine 0) with
              | Throws e => Throws e
              | Returns a =>
              match api (new_Position firstLine 0) with
              | Throws e => Throws e
              | Returns b =>
                  let commandRange := new_Range a b in
                  let title := js "Send Request" in
                  let commandId :=
                    match type c with
                    | Some SEND => js "sqs-client.sendSQSCommand"
                    | Some RECEIVE => js "sqs-client.receiveSQSMessages"
                    | Some PURGE => js "sqs-client.purgeSQSQueue"
                    | None => []
                    end in
                  Returns (mkCodeLens commandRange (mkCommand title commandId [c]))
              end end
          end) commands []
    end.

(** The commands that [activate] registers. *)
Definition registered : list jsstring :=
  [js "sqs-client.sendSQSCommand"; js "sqs-client.receiveSQSMessages";
   js "sqs-client.purgeSQSQueue"].

End Providers.

(** The second extension.ts, which holds its own provider. *)
Module Extension.

Definition provideCodeLenses (cfg : Configuration) (document : TextDocument)
    : outcome (list CodeLens) :=
  if negb (jsstring_eqb (languageId document) (js "sqs")) then Returns []
  else
    match api (parseSQSCommands cfg (getText document)) with
    | Throws e => Throws e
    | Returns commands =>
        for_each_command (fun c =>
          match range c with
          | None => Throws TypeError
          | Some r =>
              let firstLine := line (range_start r) in
              match api (new_Position firstLine 0) with
              | Throws e => Throws e
              | Returns a =>
              match api (new_Position firstLine 0) with
              | Throws e => Throws e
              | Returns b =>
                  let commandRange := new_Range a b in
                  let title := js "Send " ++ type_string (type c) ++ js " Command" in
                  let commandId :=
                    match type c with
                    | Some SEND => js "aws-sqs-client.sendSQSCommand"
                    | Some RECEIVE => js "aws-sqs-client.receiveSQSMessages"
                    | Some PURGE => js "aws-sqs-client.purgeSQSQueue"
                    | None => []
                    end in
                  Returns (mkCodeLens commandRange (mkCommand title commandId [c]))
              end end
          end) commands []
    end.

Definition registered : list jsstring :=
  [js "aws-sqs-client.sendSQSCommand"; js "aws-sqs-client.receiveSQSMessages";
   js "aws-sqs-client.purgeSQSQueue"].

End Extension.

(** The [params] of a call of [receiveMessage]. *)
Record ReceiveMessageRequest : Type := mkReceiveMessageRequest {
  QueueUrl : option jsstring;
  MaxNumberOfMessages : N;
  VisibilityTimeout : N;
  WaitTimeSeconds : N
}.

(** [v || d] for an optional number [v]: [undefined] and [0] are falsy. *)
Definition or_number (v : option N) (d : N) : N :=
  match v with
  | Some n => if (n =? 0)%N then d else n
  | None => d
  end.

(** A parameter with a default value: the default stands for an argument
    that is [undefined]. *)
Definition default_parameter (v : option N) (d : N) : N :=
  match v with
  | Some n => n
  | None => d
  end.

(** The [params] of [SQSService.receiveMessages]. *)
Definition receiveMessages (queueUrl : option jsstring)
    (maxMessages visibilityTimeout waitTimeSeconds : option N) : ReceiveMessageRequest :=
  mkReceiveMessageRequest queueUrl (default_parameter maxMessages 10)
    (default_parameter visibilityTimeout 30) (default_parameter waitTimeSeconds 0).

(** The request of the handler of [sqs-client.receiveSQSMessages], which
    calls [SQSService.receiveMessages]. *)
Definition receive_request (c : SQSCommand) : ReceiveMessageRequest :=
  receiveMessages (queueUrl c)
    (Some (or_number (maxMessages c) 10))
    (Some (or_number (visibilityTimeout c) 30))
    (Some (or_number (waitTimeSeconds c) 0)).

(** The [params] of the handler of [aws-sqs-client.receiveSQSMessages]. *)
Definition receive_params (c : SQSCommand) : ReceiveMessageRequest :=
  mkReceiveMessageRequest (queueUrl c)
    (or_number (maxMessages c) 10)
    (or_number (visibilityTimeout c) 30)
    (or_number (waitTimeSeconds c) 0).

(* ================================================================== *)
(** ** Vocabulary of the properties *)
(* ================================================================== *)

(** *** Lines, headers and blocks *)

(** A line of the document that opens a command. *)
Definition is_header (raw : jsstring) : bool :=
  match commandBlockPattern (trim raw) with
  | Some _ => true
  | None => false
  end.

(** The type that a header line gives its command. *)
Definition header_type (h : jsstring) : option SQSCommandType :=
  option_map fst (commandBlockPattern (trim h)).

(** A block: a header [h], the lines [block] up to the next header, and
    the rest [post] of the document, which is empty or starts with the
    next header. *)
Definition is_block (h : jsstring) (block post : list jsstring) : bool :=
  is_header h
  && forallb (fun l => negb (is_header l)) block
  && match post with
     | [] => true
     | h' :: _ => is_header h'
     end.

(** The lines of a block that are neither blank nor comments, trimmed as
    the loop sees them. *)
Definition body_lines (block : list jsstring) : list jsstring :=
  filter (fun l => negb (is_skipped l)) (map trim block).

(** A line that does not start a JSON body. *)
Definition not_body_start (raw : jsstring) : bool :=
  negb (startsWith (js "{") (trim raw)).

(** A line that is neither a [profile:] nor a [region:] line. *)
Definition no_profile_or_region (raw : jsstring) : bool :=
  match profilePattern (trim raw), regionPattern (trim raw) with
  | None, None => true
  | _, _ => false
  end.

(** *** Ranges and sealed commands *)

(** The range [finalizeCommand] gives a command that starts on line [s]
    and ends on line [e]. *)
Definition lines_range (s e : Z) : Range :=
  mkRange (mkPosition s 0) (mkPosition e 1000).

(** The command [finalizeCommand] leaves when its two positions are
    accepted. *)
Definition sealed (c : SQSCommand) (s e : Z) (bodyLines : list jsstring) : SQSCommand :=
  let c1 := set_range c (lines_range s e) in
  if has_type c SEND && no_messageBody c && (0 <? Z.of_nat (List.length bodyLines))
  then match JSON_parse (join_lines bodyLines) with
       | Some v => set_messageBody c1 v
       | None => c1
       end
  else c1.

(** A command whose range is moved down by [off] lines. *)
Definition shift_position (off : Z) (p : Position) : Position :=
  mkPosition (off + line p) (character p).

Definition shift_range (off : Z) (r : Range) : Range :=
  mkRange (shift_position off (range_start r)) (shift_position off (range_end r)).

Definition shift_command (off : Z) (c : SQSCommand) : SQSCommand :=
  mkSQSCommand (type c) (queueUrl c) (profile c) (region c) (messageBody c)
    (messageAttributes c) (maxMessages c) (visibilityTimeout c) (waitTimeSeconds c)
    (option_map (shift_range off) (range c)).

(** *** States of the scanner *)

(** What one iteration of the loop can do to the scanner, as a relation
    between the state before and the state after line [i]. *)
Inductive transition (cfg : Configuration) (i : Z) (line : jsstring)
  : scanner -> scanner -> Prop :=
| T_ignore st :
    transition cfg i line st st
| T_header st st1 t u :
    commandBlockPattern line = Some (t, u) ->
    push_current st (i - 1) = Ok st1 ->
    transition cfg i line st
      (mkScanner (commands st1) (Some (new_command cfg t u)) i (commandBodyLines st1)
         false (-1) (bracesCount st1))
| T_profile st c v :
    currentCommand st = Some c -> inJsonBody st = false ->
    profilePattern line = Some v ->
    transition cfg i line st (with_currentCommand st (set_profile c (trim v)))
| T_region st c v :
    currentCommand st = Some c -> inJsonBody st = false ->
    profilePattern line = None ->
    regionPattern line = Some v ->
    transition cfg i line st (with_currentCommand st (set_region c (trim v)))
| T_receive st c c' :
    currentCommand st = Some c -> inJsonBody st = false ->
    profilePattern line = None -> regionPattern line = None ->
    has_type c RECEIVE = true ->
    receive_parameter c line = Some c' ->
    transition cfg i line st (with_currentCommand st c')
| T_body_start st c :
    currentCommand st = Some c -> inJsonBody st = false ->
    profilePattern line = None -> regionPattern line = None ->
    has_type c SEND = true -> startsWith (js "{") line = true ->
    transition cfg i line st
      (mkScanner (commands st) (currentCommand st) (commandBodyStartLine st)
         (commandBodyLines st ++ [line]) true i 1)
| T_body_line st st' :
    inJsonBody st = true ->
    on_json_line line st = Ok st' ->
    transition cfg i line st st'.

(** The loop invariant on the open command before line [i]: it has its
    type and URL and started on an earlier line; and without an open
    command no body is being read. *)
Definition open_ok (i : Z) (st : scanner) : Prop :=
  match currentCommand st with
  | Some c => type_and_queueUrl c = true /\ 0 <= commandBodyStartLine st < i
  | None => commandBodyLines st = [] /\ inJsonBody st = false
  end.

(** A property of commands that holds of the open command and of every
    command emitted so far. *)
Definition all_commands (P : SQSCommand -> Prop) (st : scanner) : Prop :=
  (forall c, currentCommand st = Some c -> P c) /\ Forall P (commands st).

(** The scanner right after a header that is the first line of a
    document. *)
Definition opened (cfg : Configuration) (t : SQSCommandType) (u : jsstring) : scanner :=
  mkScanner [] (Some (new_command cfg t u)) 0 [] false (-1) 0.

(** The scanner [st1], which reads a document from line [off] on after
    having emitted [cs], against the scanner [st2], which reads the same
    lines as a document of their own. *)
Definition shifted (off : Z) (cs : list SQSCommand) (st1 st2 : scanner) : Prop :=
  commands st1 = cs ++ List.map (shift_command off) (commands st2) /\
  currentCommand st1 = currentCommand st2 /\
  commandBodyStartLine st1 = off + commandBodyStartLine st2 /\
  commandBodyLines st1 = commandBodyLines st2 /\
  inJsonBody st1 = inJsonBody st2 /\
  (inJsonBody st2 = true -> bracesCount st1 = bracesCount st2).

(** The body lines that the scanner holds after the header [h] and the
    lines of its block: the accumulated body text of the block. *)
Definition accumulated_body (cfg : Configuration) (h : jsstring) (block : list jsstring)
    : list jsstring :=
  match scan cfg 0 (h :: block) initial with
  | Ok st => commandBodyLines st
  | Throw _ => []
  end.

(** The command that [parseSQSCommands] emits for the header that
    follows the lines [pre] of the document: the one after the commands
    of [pre]. *)
Definition block_command (cfg : Configuration) (text : jsstring) (pre : list jsstring)
    : option SQSCommand :=
  match parseLines cfg pre, parseSQSCommands cfg text with
  | Ok before, Ok cmds => nth_error cmds (List.length before)
  | _, _ => None
  end.

(** *** The brace depth *)

(** Whether the brace depth, started at [n], is [0] after one of the
    lines of [ls]. *)
Fixpoint depth_returns_to_zero (ls : list jsstring) (n : Z) : bool :=
  match ls with
  | [] => false
  | l :: ls' =>
      (count_braces l n =? 0) || depth_returns_to_zero ls' (count_braces l n)
  end.

(** The brace depth after the lines [ls], started at [n]. *)
Definition depth_after (ls : list jsstring) (n : Z) : Z :=
  fold_left (fun n l => count_braces l n) ls n.

(** Whether the brace that opens a line is closed on that line: the
    depth, counted from the first character on, comes back to [0]. *)
Fixpoint depth_closes (line : jsstring) (n : Z) : bool :=
  match line with
  | [] => false
  | c :: line' =>
      let n' := if (c =? 123)%N then n + 1 else if (c =? 125)%N then n - 1 else n in
      (n' =? 0) || depth_closes line' n'
  end.

Definition closes_on_line (line : jsstring) : bool := depth_closes line 0.

(** Whether the body text is valid JSON at none of the points of a scan
    at which the scanner is not in the JSON-body state: in the state
    [st] before line [i], and after each of the lines [block].  These are
    the points at which a body that was being read has been closed, and
    parsed. *)
Fixpoint closed_bodies_invalid_from (cfg : Configuration) (i : Z) (block : list jsstring)
    (st : scanner) : bool :=
  (inJsonBody st
   || match JSON_parse (join_lines (commandBodyLines st)) with
      | Some _ => false
      | None => true
      end)
  && match block with
     | [] => true
     | raw :: rest =>
         match step cfg i raw st with
         | Ok st' => closed_bodies_invalid_from cfg (i + 1) rest st'
         | Throw _ => true
         end
     end.

Definition closed_bodies_invalid (cfg : Configuration) (h : jsstring) (block : list jsstring)
    : bool :=
  closed_bodies_invalid_from cfg 0 (h :: block) initial.

(** *** The fields of a command *)

(** Where a profile or a region [p] of the command of the block [block]
    comes from: the configured default, when it is set and not empty; the
    built-in [fallback], when the configured default is missing or
    empty; or group 1, trimmed, of a line of the block that matches
    [pattern]. *)
Definition origin (configured : option jsstring) (fallback : jsstring)
    (pattern : jsstring -> option jsstring) (block : list jsstring) (p : jsstring) : Prop :=
  (configured = Some p /\ p <> []) \/
  ((configured = None \/ configured = Some []) /\ p = fallback) \/
  (exists raw v, In raw block /\ pattern (trim raw) = Some v /\ p = trim v).



(** *** Texts *)

(** The text of the lines [ls], each one ended by a line feed. *)
Definition terminated (ls : list jsstring) : jsstring :=
  List.concat (List.map (fun l => l ++ [10%N]) ls).

(** ASCII text in which an apostrophe stands for a double quote, and a
    document given by its lines: for writing JSON examples. *)
Definition jtext (s : string) : jsstring :=
  List.map (fun c => if (c =? 39)%N then 34%N else c) (js s).

Definition document (ls : list string) : jsstring := join_lines (List.map jtext ls).

(** *** Properties as the specification states them *)

(** P3 as the specification states it, for every default profile [d1]
    and default region [d2]. *)
Definition default_substitution_as_stated : Prop :=
  forall (d1 d2 text : jsstring) (pre : list jsstring) (h : jsstring)
         (block post : list jsstring),
    split_lines text = pre ++ h :: block ++ post ->
    is_block h block post = true ->
    forallb no_profile_or_region block = true ->
    exists c,
      block_command (mkConfiguration (Some d1) (Some d2)) text pre = Some c /\
      profile c = Some d1 /\ region c = Some d2.

(** P6 as the specification states it: the object [o :: os] follows the
    header [h] after the lines [P], and only blank or comment lines [T]
    follow it in the block. *)
Definition json_round_trip_as_stated : Prop :=
  forall (cfg : Configuration) (text : jsstring) (pre : list jsstring) (h : jsstring)
         (P : list jsstring) (o : jsstring) (os T post : list jsstring) (v : json),
    split_lines text = pre ++ h :: (P ++ o :: os ++ T) ++ post ->
    is_block h (P ++ o :: os ++ T) post = true ->
    header_type h = Some SEND ->
    forallb not_body_start P = true ->
    startsWith (js "{") (trim o) = true ->
    body_lines T = [] ->
    JSON_parse (join_lines (o :: os)) = Some v ->
    exists c, block_command cfg text pre = Some c /\ messageBody c = Some v.

(** The behaviour of a body that opens and closes on the line [o], as it
    is described: the scanner is in the JSON-body state after [o], whose
    braces it does not count; every later line [R] of the block that is
    no blank or comment line is appended to the body text; and the body
    is what [JSON.parse] makes of that text at sealing. *)
Definition single_line_body_as_stated : Prop :=
  forall (cfg : Configuration) (text : jsstring) (pre : list jsstring) (h : jsstring)
         (P : list jsstring) (o : jsstring) (R post : list jsstring),
    split_lines text = pre ++ h :: (P ++ o :: R) ++ post ->
    is_block h (P ++ o :: R) post = true ->
    header_type h = Some SEND ->
    forallb not_body_start P = true ->
    startsWith (js "{") (trim o) = true ->
    closes_on_line (trim o) = true ->
    (exists so, scan cfg 0 (h :: P ++ [o]) initial = Ok so /\
                inJsonBody so = true /\ bracesCount so = 1) /\
    exists st c,
      scan cfg 0 (h :: P ++ o :: R) initial = Ok st /\
      commandBodyLines st = trim o :: body_lines R /\
      block_command cfg text pre = Some c /\
      messageBody c = JSON_parse (join_lines (trim o :: body_lines R)).

(** P7 as the specification states it. *)
Definition malformed_json_tolerance_as_stated : Prop :=
  forall (cfg : Configuration) (text : jsstring) (pre : list jsstring) (h : jsstring)
         (block post : list jsstring),
    split_lines text = pre ++ h :: block ++ post ->
    is_block h block post = true ->
    header_type h = Some SEND ->
    JSON_parse (join_lines (accumulated_body cfg h block)) = None ->
    exists c, block_command cfg text pre = Some c /\ messageBody c = None.

(** The invariant of the required fields as the specification states
    it, for every pair of defaults: the profile and the region of the
    command of a block are not empty, and each is the default or the
    value of a line of the block. *)
Definition required_fields_as_stated : Prop :=
  forall (d1 d2 text : jsstring) (pre : list jsstring) (h : jsstring)
         (block post : list jsstring),
    split_lines text = pre ++ h :: block ++ post ->
    is_block h block post = true ->
    exists c,
      block_command (mkConfiguration (Some d1) (Some d2)) text pre = Some c /\
      (exists t u, type c = Some t /\ queueUrl c = Some u) /\
      (exists p, profile c = Some p /\ p <> [] /\
         (p = d1 \/
          exists raw v, In raw block /\ profilePattern (trim raw) = Some v /\ p = trim v)) /\
      (exists r, region c = Some r /\ r <> [] /\
         (r = d2 \/
          exists raw v, In raw block /\ regionPattern (trim raw) = Some v /\ r = trim v)).


(** *** Example documents *)

(** The configuration of the examples: no setting at all. *)
Definition no_settings : Configuration := mkConfiguration None None.

(** The documents of the examples and the commands that are parsed from
    them. *)
Definition purge_document : jsstring :=
  document ["PURGE https://q/c"; "###"; "profile: other"]%string.

Definition purge_command : SQSCommand :=
  mkSQSCommand (Some PURGE) (Some (js "https://q/c")) (Some (js "other"))
    (Some (js "us-east-1")) None None None None None (Some (lines_range 0 2)).

Definition send_document : jsstring :=
  document ["SEND https://q/a"; "max-messages: 5"]%string.

Definition send_command : SQSCommand :=
  mkSQSCommand (Some SEND) (Some (js "https://q/a")) (Some (js "default"))
    (Some (js "us-east-1")) None None None None None (Some (lines_range 0 1)).

Definition receive_document : jsstring :=
  document ["SEND https://q/a"; "{'x':1}"; "###";
            "RECEIVE https://q/b"; "wait-time: 2"; ""]%string.

(** A body on one line, followed by a line that closes one brace more
    and by one more line. *)
Definition closed_twice_document : jsstring :=
  document ["SEND https://q/a"; "{'x':1}"; "}"; "junk"]%string.

(** A body that is closed and parsed, and then opened again. *)
Definition reopened_document : jsstring :=
  document ["SEND https://q/a"; "{"; "}"; "{"]%string.

(** A body that never closes, followed by a second command. *)
Definition unbalanced_document : jsstring :=
  document ["SEND https://q/d"; ""; "{'a': {'b': 1}"; "###"; "PURGE https://q/c"]%string.

(** An object with a closing brace inside a string. *)
Definition brace_in_string_document : jsstring :=
  document ["SEND https://q/a"; "{"; "  'a': '}'"; "}"]%string.

(** Two blocks, the first with a JSON object over several indented
    lines. *)
Definition hello_document : jsstring :=
  document ["SEND https://q/a"; "profile: p1"; "";
            "{"; "  'message': 'Hello, SQS!',"; "  'n': {'k': [1, 2]}"; "}";
            "###"; "RECEIVE https://q/b"]%string.

Definition hello_body : json :=
  JObject [(js "message", JString (js "Hello, SQS!"));
           (js "n", JObject [(js "k", JArray [JNumber 1 0; JNumber 2 0])])].

(** An object whose first line opens two braces. *)
Definition nested_opening_document : jsstring :=
  document ["SEND https://q/a"; "{ 'a': {"; "  'b': 1"; "},"; "'c': 2"; "}"]%string.

(** A configuration with a default profile and no default region, and
    the command of [send_document] under it. *)
Definition work_settings : Configuration := mkConfiguration (Some (js "work")) None.

Definition work_send_command : SQSCommand :=
  mkSQSCommand (Some SEND) (Some (js "https://q/a")) (Some (js "work"))
    (Some (js "us-east-1")) None None None None None (Some (lines_range 0 1)).



(* ================================================================== *)
(** ** Vocabulary of the further properties *)
(* ================================================================== *)

(** *** The commands of a document, read off its header lines *)

(** A header that is open: its line, type and URL. *)
Definition header : Type := (Z * SQSCommandType * jsstring)%type.

(** The header lines of the lines [ls], which start at line [i]. *)
Fixpoint header_lines (i : Z) (ls : list jsstring) : list header :=
  match ls with
  | [] => []
  | l :: rest =>
      match commandBlockPattern (trim l) with
      | Some (t, u) => (i, t, u) :: header_lines (i + 1) rest
      | None => header_lines (i + 1) rest
      end
  end.

(** What the scan shows of a command: its range, type and URL. *)
Definition summary (c : SQSCommand)
    : option Range * option SQSCommandType * option jsstring :=
  (range c, type c, queueUrl c).

Definition seal_summary (open : option header) (e : Z)
    : list (option Range * option SQSCommandType * option jsstring) :=
  match open with
  | Some (s, t, u) => [(Some (lines_range s e), Some t, Some u)]
  | None => []
  end.

(** The summaries of the commands of the lines [ls], which start at line
    [i], after the header [open]: a header seals the command before it
    on the line before, and the end of the lines seals the last one. *)
Fixpoint expected_commands (open : option header) (i : Z) (ls : list jsstring)
    : list (option Range * option SQSCommandType * option jsstring) :=
  match ls with
  | [] => seal_summary open (i - 1)
  | l :: rest =>
      match commandBlockPattern (trim l) with
      | Some (t, u) =>
          seal_summary open (i - 1) ++ expected_commands (Some (i, t, u)) (i + 1) rest
      | None => expected_commands open (i + 1) rest
      end
  end.

(** The header of the open command of the scanner. *)
Definition open_header (st : scanner) : option header :=
  match currentCommand st with
  | Some c =>
      match type c, queueUrl c with
      | Some t, Some u => Some (commandBodyStartLine st, t, u)
      | _, _ => None
      end
  | None => None
  end.

(** The summaries of the commands of the headers [hs] in a document of
    [n] lines: each command ends on the line before the next header, the
    last one on the last line. *)
Fixpoint summaries_of (hs : list header) (n : Z)
    : list (option Range * option SQSCommandType * option jsstring) :=
  match hs with
  | [] => []
  | (s, t, u) :: rest =>
      (Some (lines_range s (match rest with
                            | (s', _, _) :: _ => s' - 1
                            | [] => n - 1
                            end)), Some t, Some u)
      :: summaries_of rest n
  end.

(** The line on which a command starts and the line on which it ends. *)
Definition start_line (c : SQSCommand) : option Z :=
  option_map (fun r => line (range_start r)) (range c).

Definition end_line (c : SQSCommand) : option Z :=
  option_map (fun r => line (range_end r)) (range c).

(** The header that is open, as a list of headers. *)
Definition open_list (open : option header) : list header :=
  match open with
  | Some h => [h]
  | None => []
  end.

(** *** Example texts *)

(** A document with Windows line ends and indented lines, and the same
    document without them. *)
Definition crlf_document : jsstring :=
  js "RECEIVE https://q/b" ++ [13; 10]%N ++ js "   max-messages: 3" ++ [13; 10]%N ++ js "###".

Definition lf_document : jsstring :=
  document ["RECEIVE https://q/b"; "max-messages: 3"; "###"]%string.

(** The first line of a text is a header. *)
Definition starts_with_header (text : jsstring) : bool :=
  match split_lines text with
  | h :: _ => is_header h
  | [] => false
  end.

(** *** Parameter lines *)

(** A line that does not take a command of type [t] into a JSON body:
    only a SEND command has a body, and it starts at a line with an
    opening brace in front. *)
Definition keeps_out_of_body (t : SQSCommandType) (raw : jsstring) : bool :=
  negb (SQSCommandType_eqb t SEND && startsWith (js "{") (trim raw)).

(** Group 1 of the last line of [ls] that matches [pattern] once trimmed;
    [acc] when there is none. *)
Definition last_match_from (pattern : jsstring -> option jsstring) (ls : list jsstring)
    (acc : option jsstring) : option jsstring :=
  fold_left (fun acc l => match pattern (trim l) with
                          | Some v => Some v
                          | None => acc
                          end) ls acc.

Definition last_match (pattern : jsstring -> option jsstring) (ls : list jsstring)
    : option jsstring :=
  last_match_from pattern ls None.

(** What a line outside a JSON body does to the open command: the
    parameter branches of [on_parameter_line]. *)
Definition apply_parameter (c : SQSCommand) (line : jsstring) : SQSCommand :=
  match profilePattern line with
  | Some v => set_profile c (trim v)
  | None =>
  match regionPattern line with
  | Some v => set_region c (trim v)
  | None =>
  match (if has_type c RECEIVE then receive_parameter c line else None) with
  | Some c' => c'
  | None => c
  end end end.

(** A block with a parameter written twice. *)
Definition overridden_document : jsstring :=
  document ["RECEIVE https://q/c"; "profile: first"; "max-messages: 5";
            "  profile:  second  "; "max-messages: 007"; "wait-time: 0"]%string.

(** *** Bodies that are objects *)

(** The frame at the bottom of the stack of the JSON parser is an
    object. *)
Fixpoint bottom_is_object (stack : list frame) : bool :=
  match stack with
  | [] => false
  | f :: rest =>
      match rest with
      | [] => match f with FObject _ _ => true | FArray _ => false end
      | _ :: _ => bottom_is_object rest
      end
  end.

(** A state of the JSON parser in a text that started with an opening
    brace. *)
Definition object_state (st : expect * list frame) : Prop :=
  bottom_is_object (snd st) = true \/ exists ms, st = (EDone (JObject ms), []).

(** The accumulated body text starts with a line that has an opening
    brace in front, and is not empty while a body is being read. *)
Definition body_opens_with_brace (st : scanner) : Prop :=
  match commandBodyLines st with
  | [] => inJsonBody st = false
  | l :: _ => startsWith (js "{") l = true
  end.

(** A body, where there is one, is an object on a SEND command. *)
Definition object_body (c : SQSCommand) : Prop :=
  forall v, messageBody c = Some v ->
    type c = Some SEND /\ exists ms, v = JObject ms.

(** *** Lenses and requests *)

(** The lens of the command [c] on line [i]. *)
Definition lens_at (title commandId : jsstring) (i : Z) (c : SQSCommand) : CodeLens :=
  mkCodeLens (mkRange (mkPosition i 0) (mkPosition i 0)) (mkCommand title commandId [c]).

(** The lens that each of the two providers shows for a command and its
    header. *)
Definition providers_lens (ch : SQSCommand * header) : CodeLens :=
  let '(c, (i, t, _)) := ch in
  lens_at (js "Send Request")
    (match t with
     | SEND => js "sqs-client.sendSQSCommand"
     | RECEIVE => js "sqs-client.receiveSQSMessages"
     | PURGE => js "sqs-client.purgeSQSQueue"
     end) i c.

Definition extension_lens (ch : SQSCommand * header) : CodeLens :=
  let '(c, (i, t, _)) := ch in
  lens_at (js "Send " ++ type_string (Some t) ++ js " Command")
    (match t with
     | SEND => js "aws-sqs-client.sendSQSCommand"
     | RECEIVE => js "aws-sqs-client.receiveSQSMessages"
     | PURGE => js "aws-sqs-client.purgeSQSQueue"
     end) i c.

(** The line and the type of a header. *)
Definition header_head (h : header) : option Z * option SQSCommandType :=
  (Some (fst (fst h)), Some (snd (fst h))).

(** A document of the language of the extension. *)
Definition sqs_document (text : jsstring) : TextDocument := mkTextDocument (js "sqs") text.

(** A RECEIVE block that asks for no message and no time at all. *)
Definition zero_document : jsstring :=
  document ["RECEIVE https://q/z"; "max-messages: 0"; "visibility-timeout: 0";
            "wait-time: 0"]%string.

(** *** A body that has been parsed *)

(** The body of the open command is the value of the first lines of the
    body text; what the scan has appended since starts with a line that
    has an opening brace in front. *)
Definition parsed_body_kept (st : scanner) : Prop :=
  forall c v, currentCommand st = Some c -> messageBody c = Some v ->
    exists L S,
      commandBodyLines st = L ++ S /\ L <> [] /\ JSON_parse (join_lines L) = Some v /\
      match S with
      | [] => inJsonBody st = false
      | l :: _ => startsWith (js "{") l = true
      end.

(** A block with two objects, one after the other. *)
Definition two_bodies_document : jsstring :=
  document ["SEND https://q/a"; "{"; "'x': 1"; "}"; "{"; "'y': 2"; "}"]%string.

(** The two commands of [receive_document]. *)
Definition x_command : SQSCommand :=
  mkSQSCommand (Some SEND) (Some (js "https://q/a")) (Some (js "default"))
    (Some (js "us-east-1")) (Some (JObject [(js "x", JNumber 1 0)])) None None None None
    (Some (lines_range 0 2)).

Definition b_command : SQSCommand :=
  mkSQSCommand (Some RECEIVE) (Some (js "https://q/b")) (Some (js "default"))
    (Some (js "us-east-1")) None None None None (Some 2%N) (Some (lines_range 3 5)).

(* ================================================================== *)
(** * Properties *)
(* ================================================================== *)

Arguments JSON_parse : simpl never.
Arguments join_lines : simpl never.
Arguments trim : simpl never.
Arguments count_braces : simpl never.
Arguments commandBlockPattern : simpl never.
Arguments profilePattern : simpl never.
Arguments regionPattern : simpl never.
Arguments receive_parameter : simpl never.

(** ** Lines and patterns *)

Lemma jsstring_eqb_eq (a b : jsstring) : jsstring_eqb a b = true <-> a = b.
Proof.
  unfold jsstring_eqb. destruct (list_eq_dec N.eq_dec a b); split; congruence.
Qed.

Lemma startsWith_cons (c : N) (l : jsstring) :
  startsWith [c] l = true -> exists l', l = c :: l'.
Proof.
  destruct l as [|d l']; simpl; [discriminate|].
  rewrite andb_true_r. intros H. apply N.eqb_eq in H. subst. eauto.
Qed.

(** A header is never a blank or comment line. *)
Lemma header_not_skipped (line : jsstring) p :
  commandBlockPattern line = Some p -> is_skipped line = false.
Proof.
  destruct line as [|c l]; [discriminate|].
  unfold is_skipped. simpl jsstring_eqb. cbn [orb].
  destruct (startsWith (js "#") (c :: l)) eqn:E; [|reflexivity].
  apply startsWith_cons in E. destruct E as [l' E]. injection E as -> _.
  discriminate.
Qed.

(** The delimiter is a comment line: it starts with [#]. *)
Lemma delimiter_is_skipped : is_skipped (js "###") = true.
Proof. reflexivity. Qed.

Lemma not_skipped_not_delimiter (line : jsstring) :
  is_skipped line = false -> jsstring_eqb line (js "###") = false.
Proof.
  intros H. destruct (jsstring_eqb line (js "###")) eqn:E; [|reflexivity].
  apply jsstring_eqb_eq in E. subst. discriminate.
Qed.

Lemma body_lines_cons raw block :
  body_lines (raw :: block) =
  if is_skipped (trim raw) then body_lines block else trim raw :: body_lines block.
Proof. unfold body_lines. simpl. now destruct (is_skipped (trim raw)). Qed.

Lemma body_lines_app b1 b2 : body_lines (b1 ++ b2) = body_lines b1 ++ body_lines b2.
Proof. unfold body_lines. now rewrite map_app, filter_app. Qed.

(** ** One iteration of the loop *)

Lemma step_skipped cfg i raw st :
  is_skipped (trim raw) = true -> step cfg i raw st = Ok st.
Proof. intros H. unfold step. now rewrite H. Qed.

Lemma on_parameter_line_transition cfg i line c st st' :
  is_skipped line = false ->
  currentCommand st = Some c -> inJsonBody st = false ->
  on_parameter_line i line c st = Ok st' ->
  transition cfg i line st st'.
Proof.
  intros Hs Hc Hj. unfold on_parameter_line.
  destruct (profilePattern line) as [v|] eqn:Hp.
  { intros [= <-]. now apply T_profile. }
  destruct (regionPattern line) as [v|] eqn:Hr.
  { intros [= <-]. now apply T_region. }
  destruct (has_type c RECEIVE) eqn:Hrecv.
  - destruct (receive_parameter c line) as [c'|] eqn:Hn.
    { intros [= <-]. now apply T_receive with c. }
    assert (has_type c SEND = false) as ->.
    { unfold has_type in *. destruct (type c) as [[]|]; simpl in *; congruence. }
    cbn [andb]. rewrite (not_skipped_not_delimiter _ Hs).
    intros [= <-]. apply T_ignore.
  - destruct (has_type c SEND && startsWith (js "{") line) eqn:Hb.
    { apply andb_true_iff in Hb. destruct Hb. intros [= <-]. now apply T_body_start with c. }
    rewrite (not_skipped_not_delimiter _ Hs).
    intros [= <-]. apply T_ignore.
Qed.

(** The loop body refines the transition relation. *)
Lemma step_transition cfg i raw st st' :
  step cfg i raw st = Ok st' -> transition cfg i (trim raw) st st'.
Proof.
  unfold step. destruct (is_skipped (trim raw)) eqn:Hs.
  { intros [= <-]. apply T_ignore. }
  destruct (commandBlockPattern (trim raw)) as [[t u]|] eqn:Hh.
  { unfold on_header. destruct (push_current st (i - 1)) as [st1|] eqn:Hp; [|discriminate].
    simpl. intros [= <-]. now apply T_header. }
  destruct (currentCommand st) as [c|] eqn:Hc.
  - destruct (inJsonBody st) eqn:Hj; simpl.
    + intros H. now apply T_body_line.
    + intros H. now apply on_parameter_line_transition with c.
  - destruct (inJsonBody st) eqn:Hj.
    + intros H. now apply T_body_line.
    + intros [= <-]. apply T_ignore.
Qed.

(** ** Facts about strings *)

Lemma take_drop_while (p : N -> bool) (s : jsstring) :
  s = take_while p s ++ drop_while p s.
Proof.
  induction s as [|c s IH]; simpl; [reflexivity|].
  destruct (p c); simpl; [now rewrite <- IH | reflexivity].
Qed.

Lemma drop_while_head (p : N -> bool) (s : jsstring) c r :
  drop_while p s = c :: r -> p c = false.
Proof.
  induction s as [|d s IH]; simpl; [discriminate|].
  destruct (p d) eqn:E; [exact IH|]. intros [= <- _]. exact E.
Qed.

Lemma take_while_all (p : N -> bool) (s : jsstring) c :
  In c (take_while p s) -> p c = true.
Proof.
  induction s as [|d s IH]; simpl; [tauto|].
  destruct (p d) eqn:E; simpl; [|tauto].
  intros [<-|H]; auto.
Qed.

Lemma drop_while_keeps (p : N -> bool) (s : jsstring) c :
  In c s -> p c = false -> In c (drop_while p s).
Proof.
  induction s as [|d s IH]; simpl; [tauto|].
  intros [->|H] Hc.
  - rewrite Hc. now left.
  - destruct (p d); [auto | now right].
Qed.

Lemma strip_prefix_app (p s r : jsstring) :
  strip_prefix p s = Some r -> s = p ++ r.
Proof.
  revert s. induction p as [|a p IH]; intros s; simpl.
  - now intros [= ->].
  - destruct s as [|b s]; [discriminate|].
    destruct (N.eqb_spec a b); [|discriminate].
    subst. intros H. now rewrite (IH _ H).
Qed.

(** A trimmed string does not end with white space. *)
Lemma trim_last (raw l : jsstring) c :
  trim raw = l ++ [c] -> is_whitespace c = false.
Proof.
  unfold trim. intros H.
  apply (f_equal (@rev N)) in H. rewrite rev_involutive, rev_app_distr in H.
  simpl in H. now apply drop_while_head in H.
Qed.

(** A string with a character that is no white space does not trim to
    the empty string. *)
Lemma trim_nonempty (s : jsstring) c :
  In c s -> is_whitespace c = false -> trim s <> [].
Proof.
  intros Hin Hc. unfold trim.
  assert (In c (rev (drop_while is_whitespace (rev (drop_while is_whitespace s))))) as H.
  { apply in_rev. rewrite rev_involutive. apply drop_while_keeps; [|exact Hc].
    apply -> in_rev. now apply drop_while_keeps. }
  intros E. rewrite E in H. exact H.
Qed.

(** ** Facts about the patterns *)

Lemma match_keyword_target_nonempty kw line u :
  match_keyword_target kw line = Some u -> u <> [].
Proof.
  unfold match_keyword_target.
  destruct (strip_prefix kw line) as [rest|]; [|discriminate].
  destruct (take_while is_whitespace rest); [discriminate|].
  destruct (take_while not_whitespace (drop_while is_whitespace rest)); [discriminate|].
  now intros [= <-].
Qed.

Lemma commandBlockPattern_target line t u :
  commandBlockPattern line = Some (t, u) -> u <> [].
Proof.
  unfold commandBlockPattern.
  destruct (match_keyword_target (js "SEND") line) eqn:E1.
  { intros [= _ <-]. eapply match_keyword_target_nonempty; eauto. }
  destruct (match_keyword_target (js "RECEIVE") line) eqn:E2.
  { intros [= _ <-]. eapply match_keyword_target_nonempty; eauto. }
  destruct (match_keyword_target (js "PURGE") line) eqn:E3; [|discriminate].
  intros [= _ <-]. eapply match_keyword_target_nonempty; eauto.
Qed.

Lemma param_front_shape name line w r :
  param_front name line = Some (w, r) ->
  (exists pre, line = pre ++ w ++ r) /\
  (forall c, In c w -> is_whitespace c = true) /\
  (forall c r', r = c :: r' -> is_whitespace c = false).
Proof.
  unfold param_front.
  destruct (strip_prefix name line) as [r1|] eqn:E1; [|discriminate].
  destruct (drop_while is_whitespace r1) as [|c r2] eqn:E2; [discriminate|].
  destruct (c =? 58)%N; [|discriminate].
  intros [= <- <-]. split; [|split].
  - exists (name ++ take_while is_whitespace r1 ++ [c]).
    apply strip_prefix_app in E1. subst line.
    rewrite (take_drop_while is_whitespace r1) at 1. rewrite E2.
    rewrite (take_drop_while is_whitespace r2) at 1.
    now rewrite <- !app_assoc.
  - intros d. apply take_while_all.
  - intros d r' H. now apply drop_while_head in H.
Qed.

(** On a trimmed line, the value of a [profile:] or [region:] line does
    not trim to the empty string. *)
Lemma match_text_param_trimmed name raw v :
  match_text_param name (trim raw) = Some v -> trim v <> [].
Proof.
  unfold match_text_param.
  destruct (param_front name (trim raw)) as [[w r]|] eqn:E; [|discriminate].
  apply param_front_shape in E. destruct E as ((pre & Hl) & Hw & Hr).
  destruct r as [|c r'].
  - destruct (rev w) as [|c w'] eqn:Ew; [discriminate|].
    destruct (not_line_terminator c); [|discriminate]. intros _.
    apply (f_equal (@rev N)) in Ew. rewrite rev_involutive in Ew. simpl in Ew.
    assert (is_whitespace c = true) as Hc.
    { apply Hw. rewrite Ew. apply in_or_app. right. now left. }
    rewrite Ew, app_nil_r, app_assoc in Hl. apply trim_last in Hl. congruence.
  - destruct (forallb not_line_terminator (c :: r')); [|discriminate].
    intros [= <-]. apply trim_nonempty with c; [now left|]. now apply (Hr c r').
Qed.

(** ** Sealing a command *)

Lemma new_Range_lines (s e : Z) :
  s <= e -> new_Range (mkPosition s 0) (mkPosition e 1000) = lines_range s e.
Proof.
  intros H. unfold new_Range, isBefore, lines_range. simpl.
  destruct (Z.ltb_spec s e); [reflexivity|].
  destruct (Z.ltb_spec e s); [lia|]. reflexivity.
Qed.

(** With a start line that is not negative and an end line that is not
    before it, [finalizeCommand] does not throw. *)
Lemma finalizeCommand_sealed c s e L :
  0 <= s -> s <= e -> finalizeCommand c s e L = Ok (sealed c s e L).
Proof.
  intros Hs He. unfold finalizeCommand, new_Position, sealed.
  destruct (Z.ltb_spec s 0); [lia|]. destruct (Z.ltb_spec e 0); [lia|].
  simpl. rewrite (new_Range_lines _ _ He).
  change (has_type (set_range c (lines_range s e)) SEND) with (has_type c SEND).
  change (no_messageBody (set_range c (lines_range s e))) with (no_messageBody c).
  destruct (has_type c SEND && no_messageBody c && (0 <? Z.of_nat (List.length L)));
    [|reflexivity].
  now destruct (JSON_parse (join_lines L)).
Qed.

Lemma sealed_cases c s e L :
  sealed c s e L = set_range c (lines_range s e) \/
  exists v, sealed c s e L = set_messageBody (set_range c (lines_range s e)) v.
Proof.
  unfold sealed.
  destruct (has_type c SEND && no_messageBody c && (0 <? Z.of_nat (List.length L)));
    [|now left].
  destruct (JSON_parse (join_lines L)) as [v|]; [right; now exists v | now left].
Qed.

Lemma sealed_type c s e L : type (sealed c s e L) = type c.
Proof. destruct (sealed_cases c s e L) as [-> | [v ->]]; reflexivity. Qed.

Lemma sealed_profile c s e L : profile (sealed c s e L) = profile c.
Proof. destruct (sealed_cases c s e L) as [-> | [v ->]]; reflexivity. Qed.

Lemma sealed_region c s e L : region (sealed c s e L) = region c.
Proof. destruct (sealed_cases c s e L) as [-> | [v ->]]; reflexivity. Qed.

Lemma sealed_range c s e L : range (sealed c s e L) = Some (lines_range s e).
Proof. destruct (sealed_cases c s e L) as [-> | [v ->]]; reflexivity. Qed.

Lemma push_current_none st e :
  currentCommand st = None -> push_current st e = Ok st.
Proof. intros H. unfold push_current. now rewrite H. Qed.

Lemma push_current_open st i e c :
  open_ok i st -> currentCommand st = Some c -> commandBodyStartLine st <= e ->
  push_current st e =
  Ok (mkScanner
        (commands st ++ [sealed c (commandBodyStartLine st) e (commandBodyLines st)])
        (Some (sealed c (commandBodyStartLine st) e (commandBodyLines st)))
        (commandBodyStartLine st) [] (inJsonBody st) (jsonStartLine st) (bracesCount st)).
Proof.
  unfold open_ok, push_current. intros Hok Hc He. rewrite Hc in *.
  destruct Hok as [-> [H0 _]]. now rewrite finalizeCommand_sealed.
Qed.

(** ** Totality of the loop *)

Lemma receive_parameter_fields c line c' :
  receive_parameter c line = Some c' ->
  type c' = type c /\ queueUrl c' = queueUrl c /\ profile c' = profile c /\
  region c' = region c /\ messageBody c' = messageBody c.
Proof.
  unfold receive_parameter.
  destruct (maxMessagesPattern line); [now intros [= <-]|].
  destruct (visibilityTimeoutPattern line); [now intros [= <-]|].
  destruct (waitTimePattern line); [now intros [= <-] | discriminate].
Qed.

Lemma transition_open_ok cfg i line st st' :
  transition cfg i line st st' -> 0 <= i -> open_ok i st -> open_ok (i + 1) st'.
Proof.
  intros T Hi Hok. destruct T; unfold open_ok in *; simpl.
  - destruct (currentCommand st); [|exact Hok]. destruct Hok. split; [auto | lia].
  - split; [|lia]. apply commandBlockPattern_target in H.
    unfold type_and_queueUrl. simpl. now destruct u.
  - rewrite H in Hok. destruct Hok. split; [auto | lia].
  - rewrite H in Hok. destruct Hok. split; [auto | lia].
  - rewrite H in Hok. destruct Hok as [Hq Hs]. split; [|lia].
    apply receive_parameter_fields in H4. destruct H4 as (Ht & Hu & _).
    unfold type_and_queueUrl in *. now rewrite Ht, Hu.
  - rewrite H in *. destruct Hok. split; [auto | lia].
  - destruct (currentCommand st) as [c|] eqn:Hc; [|destruct Hok; congruence].
    destruct Hok as [Hq Hs]. unfold on_json_line in H0. rewrite Hc in H0.
    destruct (count_braces line (bracesCount st) =? 0).
    + injection H0 as <-. simpl.
      destruct (has_type c SEND); [|split; [auto | lia]].
      destruct (JSON_parse _); (split; [auto | lia]).
    + injection H0 as <-. simpl. split; [auto | lia].
Qed.

Lemma on_json_line_total line st : exists st', on_json_line line st = Ok st'.
Proof.
  unfold on_json_line. destruct (count_braces line (bracesCount st) =? 0); eauto.
Qed.

Lemma push_current_total st i e :
  open_ok i st -> i - 1 <= e -> exists st1, push_current st e = Ok st1.
Proof.
  intros Hok He. destruct (currentCommand st) as [c|] eqn:Hc.
  - erewrite push_current_open; eauto. unfold open_ok in Hok. rewrite Hc in Hok. lia.
  - rewrite push_current_none; eauto.
Qed.

Lemma step_total cfg i raw st :
  0 <= i -> open_ok i st -> exists st', step cfg i raw st = Ok st'.
Proof.
  intros Hi Hok. unfold step.
  destruct (is_skipped (trim raw)); [eauto|].
  destruct (commandBlockPattern (trim raw)) as [[t u]|].
  { unfold on_header. destruct (push_current_total st i (i - 1) Hok) as [st1 ->]; [lia|].
    simpl. eauto. }
  destruct (currentCommand st) as [c|] eqn:Hc.
  - destruct (inJsonBody st); simpl; [apply on_json_line_total|].
    unfold on_parameter_line.
    destruct (profilePattern (trim raw)); [eauto|].
    destruct (regionPattern (trim raw)); [eauto|].
    destruct (if has_type c RECEIVE then receive_parameter c (trim raw) else None); [eauto|].
    destruct (has_type c SEND && startsWith (js "{") (trim raw)); [eauto|].
    destruct (jsstring_eqb (trim raw) (js "###")); [|eauto].
    destruct (push_current_total st i i Hok) as [st1 ->]; [lia|]. simpl. eauto.
  - destruct (inJsonBody st); [apply on_json_line_total | eauto].
Qed.

Lemma scan_total cfg ls : forall i st,
  0 <= i -> open_ok i st ->
  exists st', scan cfg i ls st = Ok st' /\ open_ok (i + Z.of_nat (List.length ls)) st'.
Proof.
  induction ls as [|raw ls IH]; intros i st Hi Hok.
  - exists st. simpl. rewrite Z.add_0_r. auto.
  - destruct (step_total cfg i raw st Hi Hok) as [st1 H1].
    assert (open_ok (i + 1) st1) as Hok1.
    { apply (transition_open_ok cfg i (trim raw) st st1); auto. now apply step_transition. }
    destruct (IH (i + 1) st1) as (st' & H' & Hok'); [lia | auto |].
    exists st'. split; [simpl scan; rewrite H1; exact H'|].
    replace (i + Z.of_nat (List.length (raw :: ls))) with (i + 1 + Z.of_nat (List.length ls));
      [exact Hok'|]. simpl List.length. lia.
Qed.

Lemma initial_open_ok : open_ok 0 initial.
Proof. unfold open_ok. simpl. auto. Qed.

Lemma at_end_of_file_total n st :
  open_ok n st -> exists cs, at_end_of_file n st = Ok cs.
Proof.
  unfold open_ok, at_end_of_file. destruct (currentCommand st) as [c|]; [|eauto].
  intros [-> Hs]. rewrite finalizeCommand_sealed by lia. simpl. eauto.
Qed.

Lemma parseLines_total cfg ls : exists cs, parseLines cfg ls = Ok cs.
Proof.
  unfold parseLines.
  destruct (scan_total cfg ls 0 initial) as (st & -> & Hok); [lia | apply initial_open_ok |].
  simpl. now apply at_end_of_file_total.
Qed.

(** C3 (P1, totality).  For every text and every configuration of the
    default profile and region, [parseSQSCommands] returns a list of
    commands: the loops are structural, a [SyntaxError] of [JSON.parse] is
    caught, and neither [vscode.Position] ever receives a negative
    line. *)
Theorem parse_is_total (cfg : Configuration) (text : jsstring) :
  exists cmds : list SQSCommand, parseSQSCommands cfg text = Ok cmds.
Proof. unfold parseSQSCommands. apply parseLines_total. Qed.

(** ** Properties that every command keeps *)

Section CommandInvariant.

Variable cfg : Configuration.
Variable lines : list jsstring.
Variable P : SQSCommand -> Prop.

Hypothesis P_new : forall t u, u <> [] -> P (new_command cfg t u).
Hypothesis P_range : forall c r, P c -> P (set_range c r).
Hypothesis P_body : forall c v, P c -> P (set_messageBody c v).
Hypothesis P_profile : forall c raw v,
  In raw lines -> profilePattern (trim raw) = Some v -> P c -> P (set_profile c (trim v)).
Hypothesis P_region : forall c raw v,
  In raw lines -> regionPattern (trim raw) = Some v -> P c -> P (set_region c (trim v)).
Hypothesis P_receive : forall c n,
  has_type c RECEIVE = true -> P c ->
  P (set_maxMessages c n) /\ P (set_visibilityTimeout c n) /\ P (set_waitTimeSeconds c n).

Lemma finalizeCommand_keeps c s e L c' :
  finalizeCommand c s e L = Ok c' -> P c -> P c'.
Proof.
  unfold finalizeCommand.
  destruct (new_Position s 0) as [ps|]; [|discriminate].
  destruct (new_Position e 1000) as [pe|]; [|discriminate]. simpl.
  destruct (_ && _ && _).
  - destruct (JSON_parse _); intros [= <-] H; auto.
  - intros [= <-] H; auto.
Qed.

Lemma push_current_keeps st e st1 :
  push_current st e = Ok st1 -> all_commands P st -> Forall P (commands st1).
Proof.
  unfold push_current, all_commands. intros H [Hc Hcs].
  destruct (currentCommand st) as [c|]; [|now injection H as <-].
  destruct (type_and_queueUrl c); [|now injection H as <-].
  destruct (finalizeCommand c _ e _) as [c'|] eqn:Hf; [|discriminate].
  injection H as <-. simpl. apply Forall_app. split; [exact Hcs|].
  constructor; [|constructor]. eapply finalizeCommand_keeps; eauto.
Qed.

Lemma receive_parameter_keeps c line c' :
  has_type c RECEIVE = true -> receive_parameter c line = Some c' -> P c -> P c'.
Proof.
  intros Hr. unfold receive_parameter. intros H Hc.
  destruct (maxMessagesPattern line) as [d|].
  { injection H as <-. now apply P_receive. }
  destruct (visibilityTimeoutPattern line) as [d|].
  { injection H as <-. now apply P_receive. }
  destruct (waitTimePattern line) as [d|]; [|discriminate].
  injection H as <-. now apply P_receive.
Qed.

Lemma transition_keeps i raw st st' :
  In raw lines -> transition cfg i (trim raw) st st' ->
  all_commands P st -> all_commands P st'.
Proof.
  intros Hin T Hall. inversion T; subst; try exact Hall.
  - split; simpl.
    + intros c [= <-]. apply P_new. eapply commandBlockPattern_target; eauto.
    + eapply push_current_keeps; eauto.
  - destruct Hall as [Hc Hcs]. split; simpl; [|exact Hcs].
    intros c' [= <-]. eapply P_profile; eauto.
  - destruct Hall as [Hc Hcs]. split; simpl; [|exact Hcs].
    intros c' [= <-]. eapply P_region; eauto.
  - destruct Hall as [Hc Hcs]. split; simpl; [|exact Hcs].
    intros c0 [= <-]. eapply receive_parameter_keeps; eauto.
  - destruct Hall as [Hc Hcs]. unfold on_json_line in H0.
    destruct (count_braces (trim raw) (bracesCount st) =? 0); injection H0 as <-;
      split; simpl; auto.
    destruct (currentCommand st) as [c|]; [|discriminate].
    specialize (Hc c eq_refl).
    destruct (has_type c SEND); [|now intros c' [= <-]].
    destruct (JSON_parse _); intros c' [= <-]; auto.
Qed.

Lemma scan_keeps ls : forall i st st',
  (forall raw, In raw ls -> In raw lines) ->
  scan cfg i ls st = Ok st' -> all_commands P st -> all_commands P st'.
Proof.
  induction ls as [|raw ls IH]; intros i st st' Hsub; simpl.
  - now intros [= <-].
  - destruct (step cfg i raw st) as [st1|] eqn:H1; [|discriminate]. simpl.
    intros H Hall. apply (IH (i + 1) st1 st'); auto.
    + intros r Hr. apply Hsub. now right.
    + apply (transition_keeps i raw st st1); auto.
      * apply Hsub. now left.
      * now apply step_transition.
Qed.

Lemma parseLines_keeps cs :
  parseLines cfg lines = Ok cs -> Forall P cs.
Proof.
  unfold parseLines.
  destruct (scan cfg 0 lines initial) as [st|] eqn:Hs; [|discriminate]. simpl.
  assert (all_commands P st) as [Hc Hcs].
  { apply (scan_keeps lines 0 initial st); auto.
    split; [discriminate | constructor]. }
  unfold at_end_of_file.
  destruct (currentCommand st) as [c|]; [|now intros [= <-]].
  destruct (type_and_queueUrl c); [|now intros [= <-]].
  destruct (finalizeCommand c _ _ _) as [c'|] eqn:Hf; [|discriminate].
  intros [= <-]. apply Forall_app. split; [exact Hcs|].
  constructor; [|constructor]. eapply finalizeCommand_keeps; eauto.
Qed.

End CommandInvariant.

(** ** Blank and comment lines *)

Lemma scan_app cfg l1 : forall l2 i st,
  scan cfg i (l1 ++ l2) st =
  (st' <- scan cfg i l1 st ;; scan cfg (i + Z.of_nat (List.length l1)) l2 st').
Proof.
  induction l1 as [|raw l1 IH]; intros l2 i st.
  - simpl. now rewrite Z.add_0_r.
  - cbn [scan app]. destruct (step cfg i raw st) as [st1|]; [|reflexivity].
    cbn [bind]. rewrite IH. repeat f_equal.
    replace (i + 1 + Z.of_nat (List.length l1)) with (i + Z.of_nat (List.length (raw :: l1)));
      [reflexivity|]. cbn [List.length]. lia.
Qed.

(** C6 (transition 1).  A line that is empty after trimming, or whose
    trimmed form starts with [#], leaves the whole state of the scanner
    as it is, whatever that state: the brace count and the JSON-body flag
    in particular.  So replacing such a line of a document by an empty
    line changes nothing in what is parsed. *)
Theorem blank_and_comment_lines_are_skipped (cfg : Configuration) (raw : jsstring) :
  is_skipped (trim raw) = true ->
  (forall i st, step cfg i raw st = Ok st) /\
  (forall pre post, parseLines cfg (pre ++ raw :: post) = parseLines cfg (pre ++ [] :: post)).
Proof.
  intros Hs. split.
  - intros i st. now apply step_skipped.
  - intros pre post. unfold parseLines. rewrite !scan_app, !length_app.
    cbn [List.length]. destruct (scan cfg 0 pre initial) as [st|]; [|reflexivity].
    cbn [bind scan]. rewrite (step_skipped _ _ raw _ Hs).
    now rewrite (step_skipped _ _ [] _ eq_refl).
Qed.

(** ** What follows a header does not depend on what precedes it *)

Lemma shift_sealed off c s e L :
  shift_command off (sealed c s e L) = sealed c (off + s) (off + e) L.
Proof.
  unfold sealed.
  destruct (has_type c SEND && no_messageBody c && (0 <? Z.of_nat (List.length L)));
    [|reflexivity].
  now destruct (JSON_parse (join_lines L)).
Qed.

Lemma shift_shift a b c :
  shift_command a (shift_command b c) = shift_command (a + b) c.
Proof.
  unfold shift_command. simpl. f_equal.
  destruct (range c) as [[[l1 c1] [l2 c2]]|]; simpl; [|reflexivity].
  unfold shift_range, shift_position. simpl. now rewrite !Z.add_assoc.
Qed.

Ltac solve_shifted :=
  unfold shifted; simpl; repeat split; auto; try congruence.

Lemma shifted_open_ok off cs i st1 st2 :
  0 <= off -> shifted off cs st1 st2 -> open_ok i st2 -> open_ok (off + i) st1.
Proof.
  intros Hoff (_ & Hc & Hs & Hl & Hj & _). unfold open_ok. rewrite Hc.
  destruct (currentCommand st2); [|now rewrite Hl, Hj].
  intros [Hq Hr]. split; [exact Hq | lia].
Qed.

Lemma push_current_shifted off cs i e st1 st2 st2' :
  0 <= off -> open_ok i st2 -> i - 1 <= e -> shifted off cs st1 st2 ->
  push_current st2 e = Ok st2' ->
  exists st1', push_current st1 (off + e) = Ok st1' /\
               commands st1' = cs ++ List.map (shift_command off) (commands st2') /\
               commandBodyLines st1' = commandBodyLines st2'.
Proof.
  intros Hoff Hok He Hsh H2.
  pose proof (shifted_open_ok _ _ _ _ _ Hoff Hsh Hok) as Hok1.
  destruct Hsh as (Hcs & Hc & Hs & Hl & Hj & Hb).
  destruct (currentCommand st2) as [c|] eqn:Hc2.
  - assert (commandBodyStartLine st2 <= e) as Hle.
    { unfold open_ok in Hok. rewrite Hc2 in Hok. lia. }
    rewrite (push_current_open _ _ _ _ Hok Hc2 Hle) in H2. injection H2 as <-.
    rewrite (push_current_open _ _ _ _ Hok1 Hc) by lia.
    eexists. split; [reflexivity|]. simpl.
    rewrite Hcs, Hs, Hl, map_app, <- app_assoc. simpl. now rewrite shift_sealed.
  - rewrite (push_current_none _ _ Hc2) in H2. injection H2 as <-.
    rewrite (push_current_none _ _ Hc). exists st1. auto.
Qed.

Lemma on_json_line_shifted off cs line st1 st2 :
  inJsonBody st2 = true -> shifted off cs st1 st2 ->
  exists st1' st2', on_json_line line st1 = Ok st1' /\ on_json_line line st2 = Ok st2'
                    /\ shifted off cs st1' st2'.
Proof.
  intros Hj2 (Hcs & Hc & Hs & Hl & Hj & Hb). specialize (Hb Hj2).
  unfold on_json_line. rewrite Hc, Hl, Hb.
  destruct (count_braces line (bracesCount st2) =? 0);
    do 2 eexists; (split; [reflexivity|]); (split; [reflexivity|]);
    unfold shifted; simpl; repeat split; auto.
Qed.

Lemma step_shifted cfg off cs i raw st1 st2 st2' :
  0 <= off -> 0 <= i -> open_ok i st2 -> shifted off cs st1 st2 ->
  step cfg i raw st2 = Ok st2' ->
  exists st1', step cfg (off + i) raw st1 = Ok st1' /\ shifted off cs st1' st2'.
Proof.
  intros Hoff Hi Hok Hsh. unfold step.
  destruct (is_skipped (trim raw)) eqn:Hsk.
  { intros [= <-]. eauto. }
  destruct (commandBlockPattern (trim raw)) as [[t u]|].
  { unfold on_header. destruct (push_current st2 (i - 1)) as [s2|] eqn:H2; [|discriminate].
    simpl. intros [= <-].
    destruct (push_current_shifted off cs i (i - 1) st1 st2 s2) as (s1 & H1 & Hcs1 & Hl1);
      auto; [lia|].
    replace (off + i - 1) with (off + (i - 1)) by lia. rewrite H1. simpl.
    eexists. split; [reflexivity|].
    unfold shifted. simpl. repeat split; auto. discriminate. }
  destruct Hsh as (Hcs & Hc & Hs & Hl & Hj & Hb). rewrite Hc, Hj.
  assert (forall line, exists s1 s2, on_json_line line st1 = Ok s1 /\
            on_json_line line st2 = Ok s2 /\
            (inJsonBody st2 = true -> shifted off cs s1 s2)) as Hjson.
  { intros line. destruct (inJsonBody st2) eqn:Hj2.
    - destruct (on_json_line_shifted off cs line st1 st2) as (s1 & s2 & H1 & H2 & H3); auto.
      { unfold shifted. repeat split; auto; congruence. }
      exists s1, s2. auto.
    - destruct (on_json_line_total line st1) as [s1 H1].
      destruct (on_json_line_total line st2) as [s2 H2].
      exists s1, s2. split; [exact H1|]. split; [exact H2 | discriminate]. }
  destruct (Hjson (trim raw)) as (s1 & s2 & H1 & H2 & H3).
  destruct (currentCommand st2) as [c|] eqn:Hc2.
  - destruct (inJsonBody st2) eqn:Hj2; simpl.
    + rewrite H1, H2. intros [= <-]. eauto.
    + unfold on_parameter_line.
      destruct (profilePattern (trim raw)).
      { intros [= <-]. eexists. split; [reflexivity | solve_shifted]. }
      destruct (regionPattern (trim raw)).
      { intros [= <-]. eexists. split; [reflexivity | solve_shifted]. }
      destruct (if has_type c RECEIVE then receive_parameter c (trim raw) else None).
      { intros [= <-]. eexists. split; [reflexivity | solve_shifted]. }
      destruct (has_type c SEND && startsWith (js "{") (trim raw)).
      { intros [= <-]. eexists. split; [reflexivity|]. rewrite Hl, Hc. solve_shifted. }
      rewrite (not_skipped_not_delimiter _ Hsk).
      intros [= <-]. eexists. split; [reflexivity | solve_shifted].
  - destruct (inJsonBody st2) eqn:Hj2.
    + rewrite H1, H2. intros [= <-]. eauto.
    + intros [= <-]. eexists. split; [reflexivity | solve_shifted].
Qed.

Lemma scan_shifted cfg off cs ls : forall i st1 st2 st2',
  0 <= off -> 0 <= i -> open_ok i st2 -> shifted off cs st1 st2 ->
  scan cfg i ls st2 = Ok st2' ->
  exists st1', scan cfg (off + i) ls st1 = Ok st1' /\ shifted off cs st1' st2'
               /\ open_ok (i + Z.of_nat (List.length ls)) st2'.
Proof.
  induction ls as [|raw ls IH]; intros i st1 st2 st2' Hoff Hi Hok Hsh.
  - simpl. intros [= <-]. exists st1. rewrite Z.add_0_r. auto.
  - cbn [scan]. destruct (step cfg i raw st2) as [s2|] eqn:H2; [|discriminate].
    cbn [bind]. intros Hscan.
    destruct (step_shifted cfg off cs i raw st1 st2 s2) as (s1 & H1 & Hsh1); auto.
    rewrite H1. cbn [bind].
    assert (open_ok (i + 1) s2) as Hok2.
    { apply (transition_open_ok cfg i (trim raw) st2 s2); auto. now apply step_transition. }
    destruct (IH (i + 1) s1 s2 st2') as (st1' & Hs1 & Hsh' & Hok'); auto; [lia|].
    exists st1'. replace (off + i + 1) with (off + (i + 1)) by lia.
    split; [exact Hs1|]. split; [exact Hsh'|].
    replace (i + Z.of_nat (List.length (raw :: ls))) with (i + 1 + Z.of_nat (List.length ls));
      [exact Hok'|]. cbn [List.length]. lia.
Qed.

Lemma is_header_pattern h :
  is_header h = true -> exists t u, commandBlockPattern (trim h) = Some (t, u).
Proof.
  unfold is_header. destruct (commandBlockPattern (trim h)) as [[t u]|]; [eauto | discriminate].
Qed.

Lemma step_header cfg i h st t u :
  commandBlockPattern (trim h) = Some (t, u) ->
  step cfg i h st = on_header cfg i t u st.
Proof.
  intros H. unfold step. rewrite (header_not_skipped _ _ H). now rewrite H.
Qed.

Lemma at_end_of_file_shifted off cs n st1 st2 cs2 :
  0 <= off -> shifted off cs st1 st2 -> open_ok n st2 ->
  at_end_of_file n st2 = Ok cs2 ->
  at_end_of_file (off + n) st1 = Ok (cs ++ List.map (shift_command off) cs2).
Proof.
  intros Hoff (Hcs & Hc & Hs & Hl & _) Hok. unfold at_end_of_file, open_ok in *.
  rewrite Hc. destruct (currentCommand st2) as [c|].
  - destruct Hok as [-> Hr]. rewrite !finalizeCommand_sealed by lia. simpl.
    intros [= <-]. rewrite Hcs, Hs, Hl, map_app, <- app_assoc. simpl.
    rewrite shift_sealed. now replace (off + n - 1) with (off + (n - 1)) by lia.
  - intros [= <-]. now rewrite Hcs.
Qed.

(** The commands of a document that continues with a header are the
    commands of the part before that header, followed by the commands of
    the part from that header on, read as a document of its own and moved
    down. *)
Theorem parseLines_app_header cfg A h P csA csP :
  is_header h = true ->
  parseLines cfg A = Ok csA -> parseLines cfg (h :: P) = Ok csP ->
  parseLines cfg (A ++ h :: P) =
  Ok (csA ++ List.map (shift_command (Z.of_nat (List.length A))) csP).
Proof.
  intros Hh HA HP. destruct (is_header_pattern h Hh) as (t & u & Hp).
  unfold parseLines in *. rewrite scan_app.
  destruct (scan_total cfg A 0 initial) as (stA & HsA & HokA); [lia | apply initial_open_ok |].
  rewrite HsA in *. cbn [bind scan] in *. rewrite Z.add_0_l.
  rewrite (step_header cfg _ h stA t u Hp).
  rewrite (step_header cfg 0 h initial t u Hp) in HP.
  set (off := Z.of_nat (List.length A)) in *.
  set (S2 := mkScanner [] (Some (new_command cfg t u)) 0 [] false (-1) 0).
  assert (on_header cfg 0 t u initial = Ok S2) as H2 by reflexivity.
  rewrite H2 in HP. cbn [bind] in HP.
  assert (exists S1, on_header cfg off t u stA = Ok S1 /\ shifted off csA S1 S2) as (S1 & H1 & Hsh).
  { unfold on_header. destruct (currentCommand stA) as [c|] eqn:Hc.
    - rewrite (push_current_open _ _ _ _ HokA Hc).
      2:{ unfold open_ok in HokA. rewrite Hc in HokA. lia. }
      cbn [bind]. eexists. split; [reflexivity|].
      unfold at_end_of_file, open_ok in *. rewrite Hc in *. destruct HokA as [Hq Hr].
      rewrite Hq, finalizeCommand_sealed in HA by lia. simpl in HA. injection HA as <-.
      unfold shifted, S2. simpl. rewrite app_nil_r. repeat split; auto; try lia; try discriminate.
    - rewrite (push_current_none _ _ Hc). cbn [bind]. eexists. split; [reflexivity|].
      unfold at_end_of_file, open_ok in *. rewrite Hc in *. injection HA as <-.
      destruct HokA as [Hl _]. unfold shifted, S2. simpl. rewrite app_nil_r, Hl.
      repeat split; auto; try lia; try discriminate. }
  rewrite H1. cbn [bind].
  destruct (scan cfg (0 + 1) P S2) as [S2'|] eqn:Hs2; [|discriminate]. cbn [bind] in HP.
  assert (0 <= off) as Hoff by (unfold off; lia).
  assert (open_ok (0 + 1) S2) as Hok2.
  { unfold open_ok, S2. simpl. split; [|lia]. apply commandBlockPattern_target in Hp.
    unfold type_and_queueUrl. simpl. now destruct u. }
  destruct (scan_shifted cfg off csA P (0 + 1) S1 S2 S2') as (S1' & Hs1 & Hsh' & Hok');
    auto; [lia|].
  replace (off + 1) with (off + (0 + 1)) by lia. rewrite Hs1. cbn [bind].
  rewrite length_app. cbn [List.length] in *.
  replace (Z.of_nat (List.length A + S (List.length P)))
    with (off + Z.of_nat (S (List.length P))) by (unfold off; lia).
  apply (at_end_of_file_shifted off csA _ S1' S2'); auto.
  replace (Z.of_nat (S (List.length P))) with (0 + 1 + Z.of_nat (List.length P)) by lia.
  exact Hok'.
Qed.

(** ** Blocks *)

(** Induction over the lines of a block: what every line of the block
    that is no header preserves holds after the block. *)
Lemma scan_block_invariant cfg (Q : scanner -> Prop) block : forall i st st',
  (forall i raw st st', In raw block -> is_header raw = false -> Q st ->
     transition cfg i (trim raw) st st' -> Q st') ->
  forallb (fun l => negb (is_header l)) block = true ->
  Q st -> scan cfg i block st = Ok st' -> Q st'.
Proof.
  induction block as [|raw block IH]; intros i st st' Hstep Hnh HQ; cbn [scan].
  - now intros [= <-].
  - cbn [forallb] in Hnh. apply andb_true_iff in Hnh. destruct Hnh as [Hraw Hnh].
    apply negb_true_iff in Hraw.
    destruct (step cfg i raw st) as [st1|] eqn:H1; [|discriminate]. cbn [bind].
    apply IH; auto.
    + intros j r s s' Hr. apply Hstep. now right.
    + apply (Hstep i raw st st1); auto; [now left | now apply step_transition].
Qed.

Lemma not_header_no_match (raw : jsstring) t u :
  is_header raw = false -> commandBlockPattern (trim raw) = Some (t, u) -> False.
Proof. unfold is_header. intros H E. rewrite E in H. discriminate. Qed.

(** The lines of a block emit nothing and keep the command open. *)
Lemma scan_block_open cfg block i st st' :
  forallb (fun l => negb (is_header l)) block = true ->
  scan cfg i block st = Ok st' ->
  commands st' = commands st /\
  commandBodyStartLine st' = commandBodyStartLine st /\
  (currentCommand st <> None -> currentCommand st' <> None).
Proof.
  intros Hnh Hs.
  apply (scan_block_invariant cfg
           (fun s => commands s = commands st /\
                     commandBodyStartLine s = commandBodyStartLine st /\
                     (currentCommand st <> None -> currentCommand s <> None))
           block i st st'); auto.
  clear. intros i raw s s' _ Hraw (Hc & Hl & Ho) T.
  inversion T; subst; simpl; auto.
  - exfalso. eapply not_header_no_match; eauto.
  - repeat split; auto. discriminate.
  - repeat split; auto. discriminate.
  - repeat split; auto. discriminate.
  - unfold on_json_line in H0.
    destruct (count_braces (trim raw) (bracesCount s) =? 0); injection H0 as <-; simpl; auto.
    repeat split; auto. intros Hn. specialize (Ho Hn).
    destruct (currentCommand s) as [c|]; [|congruence].
    destruct (has_type c SEND); [|discriminate]. destruct (JSON_parse _); discriminate.
Qed.

Lemma parseLines_nil cfg : parseLines cfg [] = Ok [].
Proof. reflexivity. Qed.

(** The state of the loop right after a header that is read as the first
    line of a document. *)
Lemma scan_header_first cfg h block t u :
  commandBlockPattern (trim h) = Some (t, u) ->
  scan cfg 0 (h :: block) initial = scan cfg 1 block (opened cfg t u).
Proof. intros Hp. cbn [scan]. now rewrite (step_header _ _ _ _ _ _ Hp). Qed.

(** A document is parsed block by block.  For a block with header [h]
    anywhere in a document, the commands are those of the lines before
    the block, then the command of the block, then those of the lines
    after it; and the command of the block is what sealing at the last
    line of the block makes of the open command [c] and of the body lines
    that the block, read alone, leaves in the scanner. *)
Theorem block_decomposition cfg pre h block post :
  is_block h block post = true ->
  exists before after st c,
    parseLines cfg pre = Ok before /\
    parseLines cfg post = Ok after /\
    scan cfg 0 (h :: block) initial = Ok st /\
    currentCommand st = Some c /\
    parseLines cfg (pre ++ h :: block ++ post) =
    Ok (before
        ++ shift_command (Z.of_nat (List.length pre))
             (sealed c 0 (Z.of_nat (List.length block)) (commandBodyLines st))
        :: List.map (shift_command (Z.of_nat (List.length pre + 1 + List.length block))) after).
Proof.
  unfold is_block. intros H. apply andb_true_iff in H. destruct H as [H Hpost].
  apply andb_true_iff in H. destruct H as [Hh Hblock].
  destruct (parseLines_total cfg pre) as [before Hpre].
  destruct (parseLines_total cfg post) as [after Hafter].
  destruct (scan_total cfg (h :: block) 0 initial) as (st & Hst & Hok);
    [lia | apply initial_open_ok |].
  destruct (is_header_pattern h Hh) as (t & u & Hp).
  pose proof Hst as Hst'. rewrite (scan_header_first _ _ _ _ _ Hp) in Hst'.
  destruct (scan_block_open _ _ _ _ _ Hblock Hst') as (Hcs & Hstart & Hopen).
  simpl in Hcs, Hstart, Hopen.
  destruct (currentCommand st) as [c|] eqn:Hc; [|exfalso; now apply Hopen].
  exists before, after, st, c. repeat split; auto.
  set (cmd := sealed c 0 (Z.of_nat (List.length block)) (commandBodyLines st)).
  assert (parseLines cfg (h :: block) = Ok [cmd]) as Hone.
  { unfold parseLines. rewrite Hst. cbn [bind]. unfold at_end_of_file, open_ok in *.
    rewrite Hc in *. destruct Hok as [-> Hr]. rewrite Hcs, Hstart.
    replace (Z.of_nat (List.length (h :: block)) - 1) with (Z.of_nat (List.length block))
      by (cbn [List.length]; lia).
    rewrite finalizeCommand_sealed by lia. reflexivity. }
  assert (parseLines cfg (h :: block ++ post) =
          Ok (cmd :: List.map (shift_command (Z.of_nat (1 + List.length block))) after)) as Hrest.
  { destruct post as [|h' post'].
    - rewrite app_nil_r. rewrite parseLines_nil in Hafter. injection Hafter as <-. exact Hone.
    - change (h :: block ++ h' :: post') with ((h :: block) ++ h' :: post').
      now rewrite (parseLines_app_header cfg (h :: block) h' post' [cmd] after). }
  rewrite (parseLines_app_header cfg pre h (block ++ post) before _ Hh Hpre Hrest).
  cbn [List.map]. rewrite map_map.
  rewrite (map_ext _ (shift_command (Z.of_nat (List.length pre + 1 + List.length block))));
    [reflexivity|].
  intros a. rewrite shift_shift. f_equal. lia.
Qed.

(** The command of a block, from the block read alone. *)
Lemma block_command_sealed cfg text pre h block post :
  split_lines text = pre ++ h :: block ++ post ->
  is_block h block post = true ->
  exists st c,
    scan cfg 0 (h :: block) initial = Ok st /\
    currentCommand st = Some c /\
    block_command cfg text pre =
    Some (shift_command (Z.of_nat (List.length pre))
            (sealed c 0 (Z.of_nat (List.length block)) (commandBodyLines st))).
Proof.
  intros Hsplit Hb.
  destruct (block_decomposition cfg pre h block post Hb)
    as (before & after & st & c & Hpre & _ & Hst & Hc & Hall).
  exists st, c. repeat split; auto.
  unfold block_command, parseSQSCommands. rewrite Hsplit, Hpre, Hall.
  rewrite nth_error_app2 by lia. now rewrite Nat.sub_diag.
Qed.

(** The state right after the header of a block that is read alone. *)
Lemma scan_block_alone cfg h block st :
  is_header h = true ->
  scan cfg 0 (h :: block) initial = Ok st ->
  exists t u,
    commandBlockPattern (trim h) = Some (t, u) /\
    scan cfg 1 block (opened cfg t u) = Ok st.
Proof.
  intros Hh Hst. destruct (is_header_pattern h Hh) as (t & u & Hp).
  exists t, u. split; [exact Hp|]. now rewrite <- (scan_header_first _ _ _ _ _ Hp).
Qed.

Lemma is_block_parts h block post :
  is_block h block post = true ->
  is_header h = true /\ forallb (fun l => negb (is_header l)) block = true.
Proof.
  unfold is_block. intros H. apply andb_true_iff in H. destruct H as [H _].
  now apply andb_true_iff in H.
Qed.

(** C4 (P3, default substitution), amended.  A command whose block has
    no [profile:] line and no [region:] line is emitted with the profile
    and the region every command starts with: the configured default
    where it is set and not empty, and otherwise ['default'] and
    ['us-east-1']. *)
Theorem defaults_when_no_profile_or_region_line
    (cfg : Configuration) (text : jsstring) (pre : list jsstring) (h : jsstring)
    (block post : list jsstring) :
  split_lines text = pre ++ h :: block ++ post ->
  is_block h block post = true ->
  forallb no_profile_or_region block = true ->
  exists c,
    block_command cfg text pre = Some c /\
    profile c = Some (or_default (defaultProfile cfg) (js "default")) /\
    region c = Some (or_default (defaultRegion cfg) (js "us-east-1")).
Proof.
  intros Hsplit Hb Hno.
  destruct (block_command_sealed cfg text pre h block post Hsplit Hb) as (st & c & Hst & Hc & Hcmd).
  destruct (is_block_parts _ _ _ Hb) as [Hh Hblock].
  destruct (scan_block_alone cfg h block st Hh Hst) as (t & u & Hp & Hscan).
  eexists. split; [exact Hcmd|]. simpl. rewrite sealed_profile, sealed_region.
  assert (exists c', currentCommand st = Some c' /\
            profile c' = Some (or_default (defaultProfile cfg) (js "default")) /\
            region c' = Some (or_default (defaultRegion cfg) (js "us-east-1")))
    as (c' & Hc' & Hprof & Hreg).
  { apply (scan_block_invariant cfg
             (fun s => exists c', currentCommand s = Some c' /\
                profile c' = Some (or_default (defaultProfile cfg) (js "default")) /\
                region c' = Some (or_default (defaultRegion cfg) (js "us-east-1")))
             block 1 (opened cfg t u) st); auto.
    - intros i raw s s' Hin Hraw (c0 & Hc0 & Hp0 & Hr0) T.
      rewrite forallb_forall in Hno. specialize (Hno raw Hin).
      unfold no_profile_or_region in Hno.
      destruct (profilePattern (trim raw)) eqn:Epp; [discriminate|].
      destruct (regionPattern (trim raw)) eqn:Erp; [discriminate|].
      inversion T; subst; eauto; try congruence.
      + exfalso. eapply not_header_no_match; eauto.
      + rewrite Hc0 in H. injection H as <-.
        apply receive_parameter_fields in H4. destruct H4 as (_ & _ & Hp4 & Hr4 & _).
        exists c'. simpl. repeat split; congruence.
      + unfold on_json_line in H0. rewrite Hc0 in H0.
        destruct (count_braces (trim raw) (bracesCount s) =? 0); injection H0 as <-; simpl; eauto.
        destruct (has_type c0 SEND); eauto. destruct (JSON_parse _); eauto.
    - simpl. eauto. }
  rewrite Hc in Hc'. injection Hc' as <-. auto.
Qed.


(** ** [JSON.parse] and the white space at the ends of lines *)

Ltac nbool :=
  repeat match goal with
         | |- context [N.eqb ?a ?b] => destruct (N.eqb_spec a b); try lia
         | |- context [N.leb ?a ?b] => destruct (N.leb_spec a b); try lia
         | |- context [N.ltb ?a ?b] => destruct (N.ltb_spec a b); try lia
         end;
  simpl; try reflexivity; try discriminate; try lia.

Lemma whitespace_bounds c :
  is_whitespace c = true ->
  (c = 9 \/ c = 10 \/ c = 11 \/ c = 12 \/ c = 13 \/ c = 32 \/ 160 <= c)%N.
Proof. unfold is_whitespace. nbool. Qed.

Lemma lex_idle_json_whitespace c toks :
  is_json_whitespace c = true -> lex_idle c toks = Some (LxIdle, toks).
Proof. intros H. unfold lex_idle. now rewrite H. Qed.

Lemma lex_idle_other_whitespace c toks :
  is_whitespace c = true -> is_json_whitespace c = false -> lex_idle c toks = None.
Proof.
  intros H Hj. unfold lex_idle. rewrite Hj. apply whitespace_bounds in H.
  unfold is_json_whitespace in Hj. unfold is_digit, is_lower_letter.
  destruct H as [-> | [-> | [-> | [-> | [-> | [-> | H]]]]]]; try discriminate;
    try reflexivity.
  nbool.
Qed.

Lemma whitespace_in_string c :
  is_whitespace c = true ->
  (c =? 34)%N = false /\ (c =? 92)%N = false /\ (c =? 117)%N = false /\
  lex_escape c = None /\ hex_value c = None /\
  is_number_char c = false /\ is_lower_letter c = false.
Proof.
  intros H. apply whitespace_bounds in H.
  destruct H as [-> | [-> | [-> | [-> | [-> | [-> | H]]]]]]; try (repeat split; reflexivity).
  unfold lex_escape, hex_value, is_number_char, is_lower_letter, is_digit.
  repeat split; nbool.
Qed.

Lemma lex_from_app s1 : forall s2 st,
  lex_from (s1 ++ s2) st =
  match lex_from s1 st with
  | Some st' => lex_from s2 st'
  | None => None
  end.
Proof.
  induction s1 as [|c s1 IH]; intros s2 st; [reflexivity|].
  cbn [lex_from app]. destruct (lex_step c st); [apply IH | reflexivity].
Qed.

(** After a line feed the lexer is between two tokens. *)
Lemma lex_step_line_feed st m toks :
  lex_step 10 st = Some (m, toks) -> m = LxIdle.
Proof.
  destruct st as [[|acc|acc|acc hex|acc|acc] ts]; cbn.
  - now intros [= <- _].
  - discriminate.
  - discriminate.
  - discriminate.
  - destruct (parse_number (rev acc)) as [[a b]|]; [|discriminate]. now intros [= <- _].
  - destruct (parse_word (rev acc)); [|discriminate]. now intros [= <- _].
Qed.

(** The end of the text is read like a line feed. *)
Lemma lex_line_feed s :
  lex s =
  match lex_from (s ++ [10%N]) (LxIdle, []) with
  | Some (LxIdle, toks) => Some (rev toks)
  | _ => None
  end.
Proof.
  unfold lex. rewrite lex_from_app.
  destruct (lex_from s (LxIdle, [])) as [[[|acc|acc|acc hex|acc|acc] ts]|]; cbn;
    try reflexivity.
  - now destruct (parse_number (rev acc)) as [[a b]|].
  - now destruct (parse_word (rev acc)).
Qed.

Lemma lex_leading_whitespace w : forall rest toks r,
  (forall c, In c w -> is_whitespace c = true) ->
  lex_from (w ++ rest) (LxIdle, toks) = Some r ->
  lex_from rest (LxIdle, toks) = Some r.
Proof.
  induction w as [|c w IH]; intros rest toks r Hw; [auto|].
  cbn [app lex_from lex_step]. destruct (is_json_whitespace c) eqn:Hj.
  - rewrite (lex_idle_json_whitespace _ _ Hj). apply IH. intros d Hd. apply Hw. now right.
  - rewrite (lex_idle_other_whitespace c toks); [discriminate | | exact Hj].
    apply Hw. now left.
Qed.

Lemma lex_trailing_whitespace w : forall st r,
  (forall c, In c w -> is_whitespace c = true) ->
  lex_from (w ++ [10%N]) st = Some r ->
  lex_from [10%N] st = Some r.
Proof.
  induction w as [|c w IH]; intros st r Hw; [auto|].
  assert (is_whitespace c = true) as Hc by (apply Hw; now left).
  assert (forall d, In d w -> is_whitespace d = true) as Hw' by (intros d Hd; apply Hw; now right).
  destruct (whitespace_in_string c Hc) as (Hq & Hb & Hu & Hesc & Hhex & Hnum & Hlow).
  cbn [app lex_from]. destruct (lex_step c st) as [st1|] eqn:Hstep; [|discriminate].
  intros H. apply (IH st1 r Hw') in H.
  destruct st as [[|acc|acc|acc hex|acc|acc] ts]; cbn [lex_step] in Hstep.
  - destruct (is_json_whitespace c) eqn:Hj.
    + rewrite (lex_idle_json_whitespace _ _ Hj) in Hstep. now injection Hstep as <-.
    + now rewrite (lex_idle_other_whitespace c ts Hc Hj) in Hstep.
  - rewrite Hq, Hb in Hstep. destruct (c <? 32)%N; [discriminate|].
    injection Hstep as <-. cbn in H. discriminate.
  - rewrite Hu, Hesc in Hstep. discriminate.
  - rewrite Hhex in Hstep. discriminate.
  - rewrite Hnum in Hstep. cbn [lex_from lex_step].
    change (is_number_char 10) with false. cbv iota.
    destruct (parse_number (rev acc)) as [[a b]|]; [|discriminate].
    destruct (is_json_whitespace c) eqn:Hj.
    + rewrite (lex_idle_json_whitespace _ _ Hj) in Hstep. injection Hstep as <-. exact H.
    + now rewrite (lex_idle_other_whitespace c _ Hc Hj) in Hstep.
  - rewrite Hlow in Hstep. cbn [lex_from lex_step].
    change (is_lower_letter 10) with false. cbv iota.
    destruct (parse_word (rev acc)) as [t|]; [|discriminate].
    destruct (is_json_whitespace c) eqn:Hj.
    + rewrite (lex_idle_json_whitespace _ _ Hj) in Hstep. injection Hstep as <-. exact H.
    + now rewrite (lex_idle_other_whitespace c _ Hc Hj) in Hstep.
Qed.

Lemma trim_decompose l :
  exists w1 w2,
    l = w1 ++ trim l ++ w2 /\
    (forall c, In c w1 -> is_whitespace c = true) /\
    (forall c, In c w2 -> is_whitespace c = true).
Proof.
  exists (take_while is_whitespace l),
         (rev (take_while is_whitespace (rev (drop_while is_whitespace l)))).
  split; [|split].
  - unfold trim. rewrite <- rev_app_distr, <- take_drop_while, rev_involutive.
    apply take_drop_while.
  - intros c. apply take_while_all.
  - intros c Hc. apply in_rev in Hc. now apply take_while_all in Hc.
Qed.

(** A line of a text that the lexer accepts can be trimmed. *)
Lemma lex_line_trimmed l toks r :
  lex_from (l ++ [10%N]) (LxIdle, toks) = Some r ->
  lex_from (trim l ++ [10%N]) (LxIdle, toks) = Some r.
Proof.
  destruct (trim_decompose l) as (w1 & w2 & Hl & Hw1 & Hw2).
  rewrite Hl at 1. rewrite <- !app_assoc. intros H.
  apply (lex_leading_whitespace w1 _ _ _ Hw1) in H.
  rewrite lex_from_app in *.
  destruct (lex_from (trim l) (LxIdle, toks)) as [st1|]; [|discriminate].
  now apply (lex_trailing_whitespace w2).
Qed.

Lemma lex_line_idle l st m toks :
  lex_from (l ++ [10%N]) st = Some (m, toks) -> m = LxIdle.
Proof.
  rewrite lex_from_app. destruct (lex_from l st) as [st1|]; [|discriminate].
  cbn [lex_from]. destruct (lex_step 10 st1) as [[m' t']|] eqn:H; [|discriminate].
  intros [= <- _]. eapply lex_step_line_feed; eauto.
Qed.

(** A blank or comment line of a text that the lexer accepts is blank:
    it adds no token. *)
Lemma lex_line_skipped l toks r :
  is_skipped (trim l) = true ->
  lex_from (l ++ [10%N]) (LxIdle, toks) = Some r -> r = (LxIdle, toks).
Proof.
  intros Hs H. apply lex_line_trimmed in H. unfold is_skipped in Hs.
  apply orb_true_iff in Hs. destruct Hs as [Hs | Hs].
  - apply jsstring_eqb_eq in Hs. rewrite Hs in H. cbn in H. now injection H as <-.
  - apply startsWith_cons in Hs. destruct Hs as [l' Hs]. rewrite Hs in H.
    cbn in H. discriminate.
Qed.

Lemma lex_terminated_body_lines ls : forall toks r,
  lex_from (terminated ls) (LxIdle, toks) = Some r ->
  lex_from (terminated (body_lines ls)) (LxIdle, toks) = Some r.
Proof.
  induction ls as [|l ls IH]; intros toks r; [auto|].
  unfold terminated in *. cbn [List.map List.concat]. rewrite lex_from_app.
  destruct (lex_from (l ++ [10%N]) (LxIdle, toks)) as [[m toks1]|] eqn:Hl; [|discriminate].
  pose proof (lex_line_idle _ _ _ _ Hl) as ->.
  rewrite body_lines_cons. destruct (is_skipped (trim l)) eqn:Hs.
  - apply (lex_line_skipped _ _ _ Hs) in Hl. injection Hl as <-. apply IH.
  - intros H. cbn [List.map List.concat]. rewrite lex_from_app.
    rewrite (lex_line_trimmed _ _ _ Hl). now apply IH.
Qed.

Lemma join_lines_cons l l' ls :
  join_lines (l :: l' :: ls) = l ++ 10%N :: join_lines (l' :: ls).
Proof. reflexivity. Qed.

Lemma join_terminated ls :
  ls <> [] -> join_lines ls ++ [10%N] = terminated ls.
Proof.
  induction ls as [|l ls IH]; [congruence|]. intros _.
  destruct ls as [|l' ls].
  - unfold terminated. cbn. now rewrite app_nil_r.
  - rewrite join_lines_cons.
    change (terminated (l :: l' :: ls)) with ((l ++ [10%N]) ++ terminated (l' :: ls)).
    rewrite <- IH by discriminate. now rewrite <- !app_assoc.
Qed.

(** The lines of a text that is valid JSON can be trimmed, and the blank
    ones dropped: the text of the lines that the loop accumulates has the
    same value. *)
Theorem JSON_parse_body_lines ls v :
  JSON_parse (join_lines ls) = Some v ->
  JSON_parse (join_lines (body_lines ls)) = Some v.
Proof.
  unfold JSON_parse.
  destruct (lex (join_lines ls)) as [ts|] eqn:Hlex; [|discriminate].
  enough (lex (join_lines (body_lines ls)) = Some ts) as -> by auto.
  destruct ls as [|l0 ls0]; [exact Hlex|].
  rewrite lex_line_feed in Hlex. rewrite join_terminated in Hlex by discriminate.
  destruct (lex_from (terminated (l0 :: ls0)) (LxIdle, [])) as [[m toks]|] eqn:H; [|discriminate].
  apply lex_terminated_body_lines in H.
  destruct m; try discriminate. injection Hlex as <-.
  destruct (body_lines (l0 :: ls0)) as [|b bs] eqn:Hb.
  - cbn in H. injection H as <-. reflexivity.
  - rewrite lex_line_feed, join_terminated by discriminate. now rewrite H.
Qed.

(** ** The JSON body of a SEND command *)

(** Blank and comment lines leave the scanner as it is. *)
Lemma scan_no_body_lines cfg T : forall i st,
  body_lines T = [] -> scan cfg i T st = Ok st.
Proof.
  induction T as [|raw T IH]; intros i st; [reflexivity|].
  rewrite body_lines_cons. destruct (is_skipped (trim raw)) eqn:Hs; [|discriminate].
  intros H. cbn [scan]. rewrite (step_skipped _ _ _ _ Hs). cbn [bind]. now apply IH.
Qed.

Lemma not_header_pattern raw :
  is_header raw = false -> commandBlockPattern (trim raw) = None.
Proof. unfold is_header. now destruct (commandBlockPattern (trim raw)). Qed.

(** In the JSON-body state a line that is no blank, comment or header
    line is a body line. *)
Lemma step_body_line cfg i raw st :
  is_header raw = false -> is_skipped (trim raw) = false -> inJsonBody st = true ->
  step cfg i raw st = on_json_line (trim raw) st.
Proof.
  intros Hh Hs Hj. unfold step. rewrite Hs, (not_header_pattern _ Hh), Hj.
  now destruct (currentCommand st).
Qed.

Lemma has_type_SEND_not_RECEIVE c : has_type c SEND = true -> has_type c RECEIVE = false.
Proof. unfold has_type. now destruct (type c) as [[]|]. Qed.

(** A line that starts with an opening brace under an open SEND command
    starts the JSON body: the depth is set to [1], whatever braces the
    line holds. *)
Lemma step_body_start cfg i raw st c :
  startsWith (js "{") (trim raw) = true ->
  currentCommand st = Some c -> has_type c SEND = true -> inJsonBody st = false ->
  step cfg i raw st =
  Ok (mkScanner (commands st) (Some c) (commandBodyStartLine st)
        (commandBodyLines st ++ [trim raw]) true i 1).
Proof.
  intros Hb Hc Ht Hj. unfold step.
  pose proof Hb as Hb'. apply startsWith_cons in Hb'. destruct Hb' as [l Hl].
  rewrite Hc, Hj. rewrite Hl in *. cbn [negb].
  change (is_skipped (N_of_ascii "{" :: l)) with false. cbv iota.
  change (commandBlockPattern (N_of_ascii "{" :: l)) with (@None (SQSCommandType * jsstring)).
  cbv iota. unfold on_parameter_line.
  change (profilePattern (N_of_ascii "{" :: l)) with (@None jsstring).
  change (regionPattern (N_of_ascii "{" :: l)) with (@None jsstring).
  rewrite (has_type_SEND_not_RECEIVE _ Ht), Ht, Hb, Hc. reflexivity.
Qed.

(** The lines of a block that are read in the JSON-body state, as long
    as the depth does not come back to [0] before the last of them: they
    are all appended to the body text; the body stays open if the depth
    never is [0], and is closed, and parsed, at the last line if it is [0]
    there. *)
Lemma scan_body cfg R : forall i st c,
  forallb (fun l => negb (is_header l)) R = true ->
  inJsonBody st = true -> currentCommand st = Some c ->
  depth_returns_to_zero (removelast (body_lines R)) (bracesCount st) = false ->
  exists st',
    scan cfg i R st = Ok st' /\
    commandBodyLines st' = commandBodyLines st ++ body_lines R /\
    if depth_returns_to_zero (body_lines R) (bracesCount st)
    then inJsonBody st' = false /\
         currentCommand st' =
           Some (if has_type c SEND
                 then match JSON_parse (join_lines (commandBodyLines st ++ body_lines R)) with
                      | Some v => set_messageBody c v
                      | None => c
                      end
                 else c)
    else inJsonBody st' = true /\ currentCommand st' = Some c /\
         bracesCount st' = depth_after (body_lines R) (bracesCount st).
Proof.
  induction R as [|raw R IH]; intros i st c Hnh Hj Hc Hd.
  - exists st. simpl. rewrite app_nil_r. auto.
  - cbn [forallb] in Hnh. apply andb_true_iff in Hnh. destruct Hnh as [Hraw Hnh].
    apply negb_true_iff in Hraw. rewrite body_lines_cons in *. cbn [scan].
    destruct (is_skipped (trim raw)) eqn:Hs.
    { rewrite (step_skipped _ _ _ _ Hs). cbn [bind]. now apply IH. }
    rewrite (step_body_line _ _ _ _ Hraw Hs Hj). unfold on_json_line. rewrite Hc.
    cbn [depth_returns_to_zero].
    destruct (count_braces (trim raw) (bracesCount st) =? 0) eqn:Hz; cbn [bind orb].
    + assert (body_lines R = []) as Hnil.
      { destruct (body_lines R) as [|x xs]; [reflexivity|].
        change (removelast (trim raw :: x :: xs)) with (trim raw :: removelast (x :: xs)) in Hd.
        cbn [depth_returns_to_zero] in Hd. rewrite Hz in Hd. discriminate. }
      rewrite (scan_no_body_lines _ _ _ _ Hnil), Hnil.
      eexists. split; [reflexivity|]. simpl. split; [reflexivity|]. split; [reflexivity|].
      destruct (has_type c SEND); [|reflexivity]. now destruct (JSON_parse _).
    + set (s1 := mkScanner (commands st) (Some c) (commandBodyStartLine st)
                   (commandBodyLines st ++ [trim raw]) (inJsonBody st) (jsonStartLine st)
                   (count_braces (trim raw) (bracesCount st))).
      destruct (IH (i + 1) s1 c) as (st' & Hscan & Hl & Hres); auto.
      { unfold s1. simpl. destruct (body_lines R) as [|x xs]; [reflexivity|].
        change (removelast (trim raw :: x :: xs)) with (trim raw :: removelast (x :: xs)) in Hd.
        cbn [depth_returns_to_zero] in Hd. rewrite Hz in Hd. exact Hd. }
      exists st'. split; [exact Hscan|]. unfold s1 in Hl, Hres. simpl in Hl, Hres.
      rewrite <- app_assoc in Hl, Hres. simpl in Hl, Hres. split; [exact Hl|]. exact Hres.
Qed.

(** The lines of a block before its JSON body: none of them starts with
    an opening brace.  They leave the body text empty and the body
    absent, and they keep the type of the command. *)
Lemma scan_parameters cfg P i t u st :
  forallb (fun l => negb (is_header l)) P = true ->
  forallb not_body_start P = true ->
  scan cfg i P (opened cfg t u) = Ok st ->
  inJsonBody st = false /\ commandBodyLines st = [] /\
  exists c, currentCommand st = Some c /\ type c = Some t /\ messageBody c = None.
Proof.
  intros Hnh Hnb.
  apply (scan_block_invariant cfg
           (fun s => inJsonBody s = false /\ commandBodyLines s = [] /\
                     exists c, currentCommand s = Some c /\ type c = Some t /\
                               messageBody c = None) P i (opened cfg t u) st); auto.
  - intros j raw s s' Hin Hraw (Hj & Hl & c & Hc & Ht & Hm) T.
    rewrite forallb_forall in Hnb. specialize (Hnb raw Hin).
    unfold not_body_start in Hnb. apply negb_true_iff in Hnb.
    inversion T as [s0 | s0 s1 t0 u0 Hpat Hpush | s0 c0 v Hc0 Hj0 Hpp
                    | s0 c0 v Hc0 Hj0 Hpp Hrp | s0 c0 c' Hc0 Hj0 Hpp Hrp Hty Hrecv
                    | s0 c0 Hc0 Hj0 Hpp Hrp Hty Hst | s0 s1 Hj0 Hon]; subst.
    + repeat split; auto. exists c. auto.
    + exfalso. eapply not_header_no_match; eauto.
    + rewrite Hc in Hc0. injection Hc0 as <-. repeat split; auto.
      exists (set_profile c (trim v)). auto.
    + rewrite Hc in Hc0. injection Hc0 as <-. repeat split; auto.
      exists (set_region c (trim v)). auto.
    + rewrite Hc in Hc0. injection Hc0 as <-. repeat split; auto.
      apply receive_parameter_fields in Hrecv. destruct Hrecv as (Ht4 & _ & _ & _ & Hm4).
      exists c'. rewrite Ht4, Hm4. auto.
    + rewrite Hnb in Hst. discriminate.
    + rewrite Hj in Hj0. discriminate.
  - unfold opened. simpl. repeat split; auto. exists (new_command cfg t u). auto.
Qed.

Lemma header_type_pattern h t0 t u :
  header_type h = Some t0 -> commandBlockPattern (trim h) = Some (t, u) -> t = t0.
Proof. unfold header_type. intros H E. rewrite E in H. simpl in H. congruence. Qed.

Lemma has_type_eq c t : type c = Some t -> has_type c t = true.
Proof. unfold has_type. intros ->. now destruct t. Qed.

(** The state of the scanner after the line that opens the body of a
    SEND block. *)
Lemma scan_to_body_start cfg h P o rest st :
  is_header h = true -> header_type h = Some SEND ->
  forallb (fun l => negb (is_header l)) P = true ->
  forallb not_body_start P = true ->
  startsWith (js "{") (trim o) = true ->
  scan cfg 0 (h :: P ++ o :: rest) initial = Ok st ->
  exists sP c,
    scan cfg 0 (h :: P ++ [o]) initial =
      Ok (mkScanner (commands sP) (Some c) (commandBodyStartLine sP) [trim o] true
            (1 + Z.of_nat (List.length P)) 1) /\
    type c = Some SEND /\ messageBody c = None /\
    scan cfg (1 + Z.of_nat (List.length P) + 1) rest
      (mkScanner (commands sP) (Some c) (commandBodyStartLine sP) [trim o] true
         (1 + Z.of_nat (List.length P)) 1) = Ok st.
Proof.
  intros Hh Hty HnhP HnbP Ho Hst.
  destruct (scan_block_alone cfg h _ st Hh Hst) as (t & u & Hp & Hscan).
  pose proof (header_type_pattern _ _ _ _ Hty Hp) as ->.
  rewrite scan_app in Hscan.
  destruct (scan cfg 1 P (opened cfg SEND u)) as [sP|] eqn:HsP; [|discriminate].
  cbn [bind scan] in Hscan.
  destruct (scan_parameters cfg P 1 SEND u sP HnhP HnbP HsP) as (Hj & Hl & c & Hc & Ht & Hm).
  rewrite (step_body_start cfg _ o sP c Ho Hc (has_type_eq _ _ Ht) Hj) in Hscan.
  cbn [bind] in Hscan. rewrite Hl in Hscan. cbn [app] in Hscan.
  exists sP, c. repeat split; auto.
  rewrite (scan_header_first _ _ _ _ _ Hp), scan_app, HsP. cbn [bind scan].
  rewrite (step_body_start cfg _ o sP c Ho Hc (has_type_eq _ _ Ht) Hj). cbn [bind].
  now rewrite Hl.
Qed.

Lemma forallb_not_header_app (b1 b2 : list jsstring) :
  forallb (fun l => negb (is_header l)) (b1 ++ b2) = true ->
  forallb (fun l => negb (is_header l)) b1 = true /\
  forallb (fun l => negb (is_header l)) b2 = true.
Proof. rewrite forallb_app. apply andb_true_iff. Qed.

Lemma forallb_not_header_cons (l : jsstring) (b : list jsstring) :
  forallb (fun l => negb (is_header l)) (l :: b) = true ->
  forallb (fun l => negb (is_header l)) b = true.
Proof. cbn [forallb]. intros H. now apply andb_true_iff in H. Qed.

Lemma messageBody_shift off c : messageBody (shift_command off c) = messageBody c.
Proof. reflexivity. Qed.

(** The body of a SEND block whose body lines the scanner reads to the
    last one: the lines are all in the body text, and the body of the
    emitted command is what [JSON.parse] makes of that text, be it parsed
    when the depth is back to [0] on the last line or at sealing. *)
Lemma body_of_block cfg text pre h P o R post :
  split_lines text = pre ++ h :: (P ++ o :: R) ++ post ->
  is_block h (P ++ o :: R) post = true ->
  header_type h = Some SEND ->
  forallb not_body_start P = true ->
  startsWith (js "{") (trim o) = true ->
  depth_returns_to_zero (removelast (body_lines R)) 1 = false ->
  exists st c,
    scan cfg 0 (h :: P ++ o :: R) initial = Ok st /\
    inJsonBody st = negb (depth_returns_to_zero (body_lines R) 1) /\
    commandBodyLines st = trim o :: body_lines R /\
    block_command cfg text pre = Some c /\
    messageBody c = JSON_parse (join_lines (trim o :: body_lines R)).
Proof.
  intros Hsplit Hb Hty HnbP Ho Hd.
  destruct (block_command_sealed cfg text pre h _ post Hsplit Hb) as (st & c & Hst & Hc & Hcmd).
  destruct (is_block_parts _ _ _ Hb) as [Hh Hblock].
  destruct (forallb_not_header_app _ _ Hblock) as [HnhP HnhR].
  apply forallb_not_header_cons in HnhR.
  destruct (scan_to_body_start cfg h P o R st Hh Hty HnhP HnbP Ho Hst)
    as (sP & c0 & _ & Ht0 & Hm0 & Hrest).
  match type of Hrest with scan _ ?i _ ?s = _ =>
    destruct (scan_body cfg R i s c0) as (st' & Hscan & Hl & Hres); auto
  end.
  rewrite Hrest in Hscan. injection Hscan as <-.
  simpl in Hl, Hres. rewrite (has_type_eq _ _ Ht0) in Hres.
  assert ((0 <? Z.of_nat (List.length (trim o :: body_lines R))) = true) as Hlen
    by reflexivity.
  destruct (depth_returns_to_zero (body_lines R) 1).
  - destruct Hres as [Hj Hc']. rewrite Hc in Hc'. injection Hc' as ->.
    eexists st, _. split; [exact Hst|].
    split; [exact Hj|]. split; [exact Hl|]. split; [exact Hcmd|].
    rewrite messageBody_shift. unfold sealed. rewrite Hl, Hlen.
    destruct (JSON_parse (join_lines (trim o :: body_lines R))) as [v|].
    + now destruct (has_type _ SEND && no_messageBody _ && true).
    + rewrite (has_type_eq _ _ Ht0). unfold no_messageBody. now rewrite Hm0.
  - destruct Hres as (Hj & Hc' & _). rewrite Hc in Hc'. injection Hc' as ->.
    eexists st, _. split; [exact Hst|].
    split; [exact Hj|]. split; [exact Hl|]. split; [exact Hcmd|].
    rewrite messageBody_shift. unfold sealed. rewrite Hl, Hlen.
    rewrite (has_type_eq _ _ Ht0). unfold no_messageBody. rewrite Hm0. cbn [andb].
    now destruct (JSON_parse (join_lines (trim o :: body_lines R))).
Qed.

(** C5, amended.  A line that starts with an opening brace under an open
    SEND command puts the scanner in the JSON-body state at depth [1]
    without counting the braces of that line, also when the line holds
    its own closing brace.  If the depth, moved by the braces of the
    later body lines, does not come back to [0] before the last of them,
    then every later line of the block that is no blank, comment or
    header line is appended to the body text, the scanner staying in the
    JSON-body state for as long as the depth is not [0]; and the body of
    the emitted command is exactly what [JSON.parse] makes of the
    accumulated text: present if and only if that parse succeeds, and so
    present when no such line follows a line that is valid JSON. *)
Theorem single_line_body_stays_open
    (cfg : Configuration) (text : jsstring) (pre : list jsstring) (h : jsstring)
    (P : list jsstring) (o : jsstring) (R post : list jsstring) :
  split_lines text = pre ++ h :: (P ++ o :: R) ++ post ->
  is_block h (P ++ o :: R) post = true ->
  header_type h = Some SEND ->
  forallb not_body_start P = true ->
  startsWith (js "{") (trim o) = true ->
  depth_returns_to_zero (removelast (body_lines R)) 1 = false ->
  (exists so, scan cfg 0 (h :: P ++ [o]) initial = Ok so /\
              inJsonBody so = true /\ bracesCount so = 1) /\
  exists st c,
    scan cfg 0 (h :: P ++ o :: R) initial = Ok st /\
    inJsonBody st = negb (depth_returns_to_zero (body_lines R) 1) /\
    commandBodyLines st = trim o :: body_lines R /\
    block_command cfg text pre = Some c /\
    messageBody c = JSON_parse (join_lines (trim o :: body_lines R)).
Proof.
  intros Hsplit Hb Hty HnbP Ho Hd. split.
  - destruct (block_command_sealed cfg text pre h _ post Hsplit Hb) as (st & c & Hst & _).
    destruct (is_block_parts _ _ _ Hb) as [Hh Hblock].
    destruct (forallb_not_header_app _ _ Hblock) as [HnhP _].
    destruct (scan_to_body_start cfg h P o R st Hh Hty HnhP HnbP Ho Hst)
      as (sP & c0 & Hso & _).
    eexists. split; [exact Hso|]. auto.
  - now apply (body_of_block cfg text pre h P o R post).
Qed.

(** The body of the command of a SEND block whose JSON object [o :: os]
    the scanner reads to its last line, from the lines as the loop sees
    them: trimmed, without the blank lines. *)
Lemma body_of_trimmed_object cfg text pre h P o os T post v :
  split_lines text = pre ++ h :: (P ++ o :: os ++ T) ++ post ->
  is_block h (P ++ o :: os ++ T) post = true ->
  header_type h = Some SEND ->
  forallb not_body_start P = true ->
  startsWith (js "{") (trim o) = true ->
  body_lines T = [] ->
  depth_returns_to_zero (removelast (body_lines os)) 1 = false ->
  JSON_parse (join_lines (trim o :: body_lines os)) = Some v ->
  exists c, block_command cfg text pre = Some c /\ messageBody c = Some v.
Proof.
  intros Hsplit Hb Hty HnbP Ho HT Hd Hv.
  destruct (body_of_block cfg text pre h P o (os ++ T) post Hsplit Hb Hty HnbP Ho)
    as (st & c & _ & _ & _ & Hcmd & Hm).
  { now rewrite body_lines_app, HT, app_nil_r. }
  rewrite body_lines_app, HT, app_nil_r, Hv in Hm. eauto.
Qed.

Lemma body_lines_object o os :
  startsWith (js "{") (trim o) = true ->
  body_lines (o :: os) = trim o :: body_lines os.
Proof.
  intros Ho. rewrite body_lines_cons.
  apply startsWith_cons in Ho. destruct Ho as [l ->]. reflexivity.
Qed.

(** C2 (P6, JSON round-trip), amended.  Let a JSON object follow a SEND
    header, after lines of which none starts with an opening brace, and
    let only blank or comment lines follow the object in its block.  If
    the text of the object is valid JSON with the value [v], and if the
    brace depth that the scanner keeps ([1] after the first line of the
    object, then moved by every opening and closing brace of its later
    lines, those inside string literals too) does not come back to [0]
    before the last line of the object, then the body of the emitted
    command is [v]. *)
Theorem json_body_is_recovered
    (cfg : Configuration) (text : jsstring) (pre : list jsstring) (h : jsstring)
    (P : list jsstring) (o : jsstring) (os T post : list jsstring) (v : json) :
  split_lines text = pre ++ h :: (P ++ o :: os ++ T) ++ post ->
  is_block h (P ++ o :: os ++ T) post = true ->
  header_type h = Some SEND ->
  forallb not_body_start P = true ->
  startsWith (js "{") (trim o) = true ->
  body_lines T = [] ->
  JSON_parse (join_lines (o :: os)) = Some v ->
  depth_returns_to_zero (removelast (body_lines os)) 1 = false ->
  exists c, block_command cfg text pre = Some c /\ messageBody c = Some v.
Proof.
  intros Hsplit Hb Hty HnbP Ho HT Hv Hd.
  apply (body_of_trimmed_object cfg text pre h P o os T post v); auto.
  apply JSON_parse_body_lines in Hv. now rewrite (body_lines_object _ _ Ho) in Hv.
Qed.

(** ** Bodies that never parse *)

(** In a block in which no body that was closed was valid JSON, the scan
    stores no body. *)
Lemma scan_block_never_parsed cfg block : forall i st st',
  forallb (fun l => negb (is_header l)) block = true ->
  closed_bodies_invalid_from cfg i block st = true ->
  scan cfg i block st = Ok st' ->
  (forall c, currentCommand st = Some c -> messageBody c = None) ->
  forall c, currentCommand st' = Some c -> messageBody c = None.
Proof.
  induction block as [|raw block IH]; intros i st st' Hnh Hcl; cbn [scan].
  - intros [= <-]. auto.
  - pose proof (forallb_not_header_cons _ _ Hnh) as Hnh'.
    cbn [forallb] in Hnh. apply andb_true_iff in Hnh. destruct Hnh as [Hraw _].
    apply negb_true_iff in Hraw.
    cbn [closed_bodies_invalid_from] in Hcl. apply andb_true_iff in Hcl.
    destruct Hcl as [_ Hcl].
    destruct (step cfg i raw st) as [s1|] eqn:H1; [|discriminate]. cbn [bind].
    intros Hscan Hst. apply (IH (i + 1) s1 st' Hnh' Hcl Hscan).
    assert (inJsonBody s1 = false -> JSON_parse (join_lines (commandBodyLines s1)) = None)
      as Hclosed.
    { destruct block; cbn [closed_bodies_invalid_from] in Hcl;
        apply andb_true_iff in Hcl; destruct Hcl as [Hcl _]; intros Hj;
        rewrite Hj in Hcl; cbn [orb] in Hcl;
        now destruct (JSON_parse (join_lines (commandBodyLines s1))). }
    apply step_transition in H1.
    inversion H1 as [s0 | s0 s2 t0 u0 Hpat Hpush | s0 c0 v Hc0 Hj0 Hpp
                    | s0 c0 v Hc0 Hj0 Hpp Hrp | s0 c0 c' Hc0 Hj0 Hpp Hrp Hty Hrecv
                    | s0 c0 Hc0 Hj0 Hpp Hrp Hty Hbs | s0 s2 Hj0 Hon]; subst; simpl; auto.
    + exfalso. eapply not_header_no_match; eauto.
    + intros c [= <-]. simpl. auto.
    + intros c [= <-]. simpl. auto.
    + intros c [= <-]. apply receive_parameter_fields in Hrecv.
      destruct Hrecv as (_ & _ & _ & _ & ->). auto.
    + unfold on_json_line in Hon.
      destruct (count_braces (trim raw) (bracesCount st) =? 0); injection Hon as <-;
        simpl in *; auto.
      rewrite (Hclosed eq_refl).
      destruct (currentCommand st) as [c0|]; [|discriminate].
      destruct (has_type c0 SEND); intros c [= <-]; auto.
Qed.

(** The lines of a block keep the type of its command. *)
Lemma scan_block_type cfg block i t u st c :
  forallb (fun l => negb (is_header l)) block = true ->
  scan cfg i block (opened cfg t u) = Ok st ->
  currentCommand st = Some c -> type c = Some t.
Proof.
  intros Hnh Hs. revert c.
  apply (scan_block_invariant cfg
           (fun s => forall c, currentCommand s = Some c -> type c = Some t)
           block i (opened cfg t u) st); auto.
  - clear. intros i raw s s' _ Hraw Hty T.
    inversion T as [s0 | s0 s1 t0 u0 Hpat Hpush | s0 c0 v Hc0 Hj0 Hpp
                    | s0 c0 v Hc0 Hj0 Hpp Hrp | s0 c0 c' Hc0 Hj0 Hpp Hrp Hty' Hrecv
                    | s0 c0 Hc0 Hj0 Hpp Hrp Hty' Hst | s0 s1 Hj0 Hon]; subst; simpl; auto.
    + exfalso. eapply not_header_no_match; eauto.
    + intros c [= <-]. simpl. auto.
    + intros c [= <-]. simpl. auto.
    + intros c [= <-]. apply receive_parameter_fields in Hrecv.
      destruct Hrecv as (-> & _). auto.
    + unfold on_json_line in Hon.
      destruct (count_braces (trim raw) (bracesCount s) =? 0); injection Hon as <-; simpl; auto.
      destruct (currentCommand s) as [c0|]; [|discriminate].
      specialize (Hty c0 eq_refl).
      destruct (has_type c0 SEND); [|now intros c [= <-]].
      destruct (JSON_parse _); intros c [= <-]; auto.
  - unfold opened. simpl. now intros c [= <-].
Qed.

(** C7 (P7, malformed JSON tolerance), amended.  Take a SEND block whose
    accumulated body text is not valid JSON, and in which the body text
    was not valid JSON either at any earlier line at which the scanner
    had closed the body, the brace depth being back to [0].  Its command
    is still emitted, with no body; and the commands of the lines after
    the block are those of these lines read as a document of their own,
    moved down to where they are. *)
Theorem malformed_body_is_tolerated
    (cfg : Configuration) (text : jsstring) (pre : list jsstring) (h : jsstring)
    (block post : list jsstring) :
  split_lines text = pre ++ h :: block ++ post ->
  is_block h block post = true ->
  header_type h = Some SEND ->
  JSON_parse (join_lines (accumulated_body cfg h block)) = None ->
  closed_bodies_invalid cfg h block = true ->
  exists before c after,
    parseLines cfg pre = Ok before /\
    parseLines cfg post = Ok after /\
    parseSQSCommands cfg text =
      Ok (before ++ c
          :: List.map (shift_command (Z.of_nat (List.length pre + 1 + List.length block))) after) /\
    type c = Some SEND /\
    messageBody c = None.
Proof.
  intros Hsplit Hb Hty Hinvalid Hclosed.
  destruct (block_decomposition cfg pre h block post Hb)
    as (before & after & st & c & Hpre & Hafter & Hst & Hc & Hall).
  destruct (is_block_parts _ _ _ Hb) as [Hh Hblock].
  destruct (scan_block_alone cfg h block st Hh Hst) as (t & u & Hp & Hscan).
  pose proof (header_type_pattern _ _ _ _ Hty Hp) as ->.
  unfold accumulated_body in Hinvalid. rewrite Hst in Hinvalid.
  unfold closed_bodies_invalid in Hclosed. cbn [closed_bodies_invalid_from] in Hclosed.
  rewrite (step_header _ _ _ _ _ _ Hp) in Hclosed.
  apply andb_true_iff in Hclosed. destruct Hclosed as [_ Hclosed].
  change (on_header cfg 0 SEND u initial) with (Ok (opened cfg SEND u)) in Hclosed.
  change (0 + 1) with 1 in Hclosed.
  assert (messageBody c = None) as Hm.
  { apply (scan_block_never_parsed cfg block 1 (opened cfg SEND u) st Hblock Hclosed Hscan); auto.
    unfold opened. simpl. now intros c0 [= <-]. }
  eexists before, _, after. split; [exact Hpre|]. split; [exact Hafter|].
  split; [unfold parseSQSCommands; rewrite Hsplit; exact Hall|].
  split.
  - simpl. rewrite sealed_type.
    exact (scan_block_type cfg block 1 SEND u st c Hblock Hscan Hc).
  - rewrite messageBody_shift. unfold sealed. rewrite Hinvalid.
    now destruct (has_type c SEND && no_messageBody c
                  && (0 <? Z.of_nat (List.length (commandBodyLines st)))).
Qed.

(** ** The delimiter *)

(** Whatever the state of the scanner, a line that is exactly [###]
    leaves it as it is: the test for a comment line comes first, and the
    branch of the delimiter is never reached. *)
Lemma delimiter_line_changes_nothing cfg i raw st :
  trim raw = js "###" -> step cfg i raw st = Ok st.
Proof. intros H. apply step_skipped. now rewrite H. Qed.

(** C1 (transition 5), on the document

      PURGE https://q/c
      ###
      profile: other

    The delimiter on line 1 does not seal the command: the command is
    emitted at the end of the file with a range that ends on line 2, and
    the [profile:] line after the delimiter has set its profile. *)
Theorem delimiter_does_not_seal :
  parseSQSCommands no_settings purge_document = Ok [purge_command].
Proof. vm_compute. reflexivity. Qed.

(** ** Examples *)

(** With both defaults set to the empty string, the command of the
    document [PURGE https://q/c] has the profile ['default'], not the
    empty string. *)
Lemma default_substitution_counterexample : ~ default_substitution_as_stated.
Proof.
  intros H.
  destruct (H [] [] (document ["PURGE https://q/c"]%string) [] (js "PURGE https://q/c") [] [])
    as (c & Hc & Hp & _); try reflexivity.
  vm_compute in Hc. injection Hc as <-. discriminate Hp.
Qed.

(** A RECEIVE block without [profile:] and [region:] lines, with the
    default profile ['work'] and no default region. *)
Lemma defaults_when_no_profile_or_region_line_witness :
  exists c,
    block_command (mkConfiguration (Some (js "work")) None)
      (document ["RECEIVE https://q/b"; "max-messages: 3"; "###"]%string) [] = Some c /\
    profile c = Some (js "work") /\
    region c = Some (js "us-east-1").
Proof.
  apply (defaults_when_no_profile_or_region_line
           (mkConfiguration (Some (js "work")) None)
           (document ["RECEIVE https://q/b"; "max-messages: 3"; "###"]%string)
           [] (js "RECEIVE https://q/b") [js "max-messages: 3"; js "###"] []);
    reflexivity.
Defined.

(** An indented comment line. *)
Lemma blank_and_comment_lines_are_skipped_witness :
  (forall i st, step no_settings i (js "   # a note ") st = Ok st) /\
  (forall pre post,
     parseLines no_settings (pre ++ js "   # a note " :: post) =
     parseLines no_settings (pre ++ [] :: post)).
Proof.
  apply (blank_and_comment_lines_are_skipped no_settings (js "   # a note ")).
  reflexivity.
Defined.


(** In [closed_twice_document] the depth is back to [0] on the line
    after the body, and the line [junk] is not appended to the body
    text. *)
Lemma single_line_body_counterexample : ~ single_line_body_as_stated.
Proof.
  intros H.
  destruct (H no_settings closed_twice_document [] (js "SEND https://q/a") []
              (jtext "{'x':1}") [js "}"; js "junk"] [])
    as (_ & st & c & Hst & Hl & _); try reflexivity.
  vm_compute in Hst. injection Hst as <-. vm_compute in Hl. discriminate Hl.
Qed.

(** A body on one line, followed by the delimiter and an empty line. *)
Lemma single_line_body_stays_open_witness :
  (exists so, scan no_settings 0 [js "SEND https://q/a"; js "profile: p1"; jtext "{'x':1}"] initial
              = Ok so /\ inJsonBody so = true /\ bracesCount so = 1) /\
  exists st c,
    scan no_settings 0
      [js "SEND https://q/a"; js "profile: p1"; jtext "{'x':1}"; js "###"; []] initial = Ok st /\
    inJsonBody st = true /\
    commandBodyLines st = [jtext "{'x':1}"] /\
    block_command no_settings
      (document ["SEND https://q/a"; "profile: p1"; "{'x':1}"; "###"; ""]%string) [] = Some c /\
    messageBody c = Some (JObject [(js "x", JNumber 1 0)]).
Proof.
  apply (single_line_body_stays_open no_settings
           (document ["SEND https://q/a"; "profile: p1"; "{'x':1}"; "###"; ""]%string)
           [] (js "SEND https://q/a") [js "profile: p1"] (jtext "{'x':1}") [js "###"; []] []);
    reflexivity.
Defined.

(** In [reopened_document] the body text at the end of the block is the
    three lines of an unbalanced text, and the command is emitted with
    the body that was parsed after the second of them. *)
Lemma malformed_json_tolerance_counterexample : ~ malformed_json_tolerance_as_stated.
Proof.
  intros H.
  destruct (H no_settings reopened_document [] (js "SEND https://q/a")
              [js "{"; js "}"; js "{"] [])
    as (c & Hc & Hm); try reflexivity.
  vm_compute in Hc. injection Hc as <-. discriminate Hm.
Qed.

(** The SEND command of [unbalanced_document] is emitted without a
    body, and the PURGE command after it is parsed as if it were
    alone. *)
Lemma malformed_body_is_tolerated_witness :
  exists before c after,
    parseLines no_settings [] = Ok before /\
    parseLines no_settings [js "PURGE https://q/c"] = Ok after /\
    parseSQSCommands no_settings unbalanced_document =
      Ok (before ++ c :: List.map (shift_command 4) after) /\
    type c = Some SEND /\
    messageBody c = None.
Proof.
  apply (malformed_body_is_tolerated no_settings unbalanced_document
           [] (js "SEND https://q/d") [[]; jtext "{'a': {'b': 1}"; js "###"]
           [js "PURGE https://q/c"]);
    reflexivity.
Defined.

(** The object of [brace_in_string_document] is valid JSON, and the
    command is emitted without a body: the closing brace in the string
    brings the depth back to [0] on the second line of the object. *)
Lemma json_round_trip_counterexample : ~ json_round_trip_as_stated.
Proof.
  intros H.
  destruct (H no_settings brace_in_string_document [] (js "SEND https://q/a") []
              (js "{") [jtext "  'a': '}'"; js "}"] [] []
              (JObject [(js "a", JString (js "}"))]))
    as (c & Hc & Hm); try reflexivity.
  vm_compute in Hc. injection Hc as <-. discriminate Hm.
Qed.

(** The body of the first command of [hello_document]. *)
Lemma json_body_is_recovered_witness :
  exists c, block_command no_settings hello_document [] = Some c /\
            messageBody c = Some hello_body.
Proof.
  apply (json_body_is_recovered no_settings hello_document [] (js "SEND https://q/a")
           [js "profile: p1"; []] (js "{")
           [jtext "  'message': 'Hello, SQS!',"; jtext "  'n': {'k': [1, 2]}"; js "}"]
           [js "###"] [js "RECEIVE https://q/b"] hello_body);
    reflexivity.
Defined.

(** The depth is [1] after the first line of a body whatever that line
    holds.  When the line opens two braces the depth is [0] one closing
    brace too early, the text is parsed before the object is complete,
    and the rest of the object is not read: the command is emitted
    without a body, although the text of the object is valid JSON. *)
Example nested_opening_line_loses_the_body :
  JSON_parse (document ["{ 'a': {"; "  'b': 1"; "},"; "'c': 2"; "}"]%string) =
    Some (JObject [(js "a", JObject [(js "b", JNumber 1 0)]); (js "c", JNumber 2 0)]) /\
  parseSQSCommands no_settings nested_opening_document =
    Ok [mkSQSCommand (Some SEND) (Some (js "https://q/a")) (Some (js "default"))
          (Some (js "us-east-1")) None None None None None (Some (lines_range 0 5))].
Proof. split; vm_compute; reflexivity. Qed.

(* ================================================================== *)
(** * Further properties *)
(* ================================================================== *)

(** ** One command for each header line *)

(** A line that is no header leaves the emitted commands, and the line,
    type and URL of the open command. *)
Lemma transition_keeps_headers cfg i raw st st' :
  is_header raw = false -> transition cfg i (trim raw) st st' ->
  commands st' = commands st /\ open_header st' = open_header st.
Proof.
  intros Hraw T.
  inversion T as [s0 | s0 s1 t0 u0 Hpat Hpush | s0 c0 v Hc0 Hj0 Hpp
                  | s0 c0 v Hc0 Hj0 Hpp Hrp | s0 c0 c' Hc0 Hj0 Hpp Hrp Hty Hrecv
                  | s0 c0 Hc0 Hj0 Hpp Hrp Hty Hst | s0 s1 Hj0 Hon]; subst; auto.
  - exfalso. eapply not_header_no_match; eauto.
  - unfold open_header. simpl. now rewrite Hc0.
  - unfold open_header. simpl. now rewrite Hc0.
  - unfold open_header. simpl. rewrite Hc0.
    apply receive_parameter_fields in Hrecv. destruct Hrecv as (-> & -> & _). auto.
  - unfold on_json_line in Hon.
    destruct (count_braces (trim raw) (bracesCount st) =? 0); injection Hon as <-; auto.
    unfold open_header. simpl. split; [reflexivity|].
    destruct (currentCommand st) as [c|]; [|reflexivity].
    destruct (has_type c SEND); [|reflexivity]. now destruct (JSON_parse _).
Qed.

Lemma sealed_queueUrl c s e L : queueUrl (sealed c s e L) = queueUrl c.
Proof. destruct (sealed_cases c s e L) as [-> | [v ->]]; reflexivity. Qed.

Lemma open_header_seal i st c :
  open_ok i st -> currentCommand st = Some c -> forall e L,
  [summary (sealed c (commandBodyStartLine st) e L)] = seal_summary (open_header st) e.
Proof.
  unfold open_ok, open_header. intros Hok Hc e L. rewrite Hc in *. destruct Hok as [Hq _].
  unfold summary. rewrite sealed_range, sealed_type, sealed_queueUrl.
  unfold type_and_queueUrl in Hq.
  destruct (type c); [|discriminate]. now destruct (queueUrl c).
Qed.

(** The scan from any state of the loop, against the header lines. *)
Lemma scan_expected cfg ls : forall i st,
  0 <= i -> open_ok i st ->
  exists cmds,
    (st' <- scan cfg i ls st ;; at_end_of_file (i + Z.of_nat (List.length ls)) st') = Ok cmds /\
    List.map summary cmds =
    List.map summary (commands st) ++ expected_commands (open_header st) i ls.
Proof.
  induction ls as [|raw ls IH]; intros i st Hi Hok.
  - cbn [scan bind List.length expected_commands]. rewrite Z.add_0_r.
    unfold at_end_of_file. destruct (currentCommand st) as [c|] eqn:Hc.
    + pose proof Hok as Hok'. unfold open_ok in Hok'. rewrite Hc in Hok'.
      destruct Hok' as [-> Hs]. rewrite finalizeCommand_sealed by lia. cbn [bind].
      eexists. split; [reflexivity|]. rewrite map_app. cbn [List.map].
      now rewrite (open_header_seal i st c Hok Hc).
    + eexists. split; [reflexivity|]. unfold open_header. rewrite Hc. cbn.
      now rewrite app_nil_r.
  - cbn [scan expected_commands].
    replace (i + Z.of_nat (List.length (raw :: ls)))
      with (i + 1 + Z.of_nat (List.length ls)) by (cbn [List.length]; lia).
    destruct (commandBlockPattern (trim raw)) as [[t u]|] eqn:Hp.
    + rewrite (step_header _ _ _ _ _ _ Hp). unfold on_header.
      assert (exists st1, push_current st (i - 1) = Ok st1 /\
                List.map summary (commands st1) =
                List.map summary (commands st) ++ seal_summary (open_header st) (i - 1))
        as (st1 & -> & Hst1).
      { destruct (currentCommand st) as [c|] eqn:Hc.
        - rewrite (push_current_open _ _ _ _ Hok Hc).
          2:{ unfold open_ok in Hok. rewrite Hc in Hok. lia. }
          eexists. split; [reflexivity|]. cbn [commands]. rewrite map_app. cbn [List.map].
          now rewrite (open_header_seal i st c Hok Hc).
        - rewrite (push_current_none _ _ Hc). exists st. split; [reflexivity|].
          unfold open_header. rewrite Hc. cbn. now rewrite app_nil_r. }
      cbn [bind].
      match goal with |- context [scan cfg (i + 1) ls ?s] =>
        destruct (IH (i + 1) s) as (cmds & Hscan & Hsum)
      end.
      * lia.
      * unfold open_ok. cbn. split; [|lia]. apply commandBlockPattern_target in Hp.
        unfold type_and_queueUrl. cbn. now destruct u.
      * exists cmds. split; [exact Hscan|]. rewrite Hsum. cbn [commands].
        rewrite Hst1, <- app_assoc. reflexivity.
    + destruct (step_total cfg i raw st Hi Hok) as [st1 H1]. rewrite H1. cbn [bind].
      pose proof (step_transition _ _ _ _ _ H1) as T.
      assert (is_header raw = false) as Hraw by (unfold is_header; now rewrite Hp).
      destruct (transition_keeps_headers _ _ _ _ _ Hraw T) as [Hcs Hopen].
      destruct (IH (i + 1) st1) as (cmds & Hscan & Hsum).
      * lia.
      * now apply (transition_open_ok cfg i (trim raw) st st1).
      * exists cmds. split; [exact Hscan|]. now rewrite Hsum, Hcs, Hopen.
Qed.

Lemma expected_summaries ls : forall i open,
  expected_commands open i ls =
  summaries_of (open_list open ++ header_lines i ls) (i + Z.of_nat (List.length ls)).
Proof.
  induction ls as [|l rest IH]; intros i open.
  - cbn [expected_commands header_lines List.length]. rewrite app_nil_r, Z.add_0_r.
    now destruct open as [[[s t] u]|].
  - cbn [expected_commands header_lines].
    replace (i + Z.of_nat (List.length (l :: rest)))
      with (i + 1 + Z.of_nat (List.length rest)) by (cbn [List.length]; lia).
    destruct (commandBlockPattern (trim l)) as [[t u]|].
    + rewrite IH. destruct open as [[[s0 t0] u0]|]; reflexivity.
    + apply IH.
Qed.

(** The commands of a document, summarised. *)
Lemma parse_summaries cfg text :
  exists cmds,
    parseSQSCommands cfg text = Ok cmds /\
    List.map summary cmds =
    summaries_of (header_lines 0 (split_lines text))
      (Z.of_nat (List.length (split_lines text))).
Proof.
  unfold parseSQSCommands, parseLines.
  destruct (scan_expected cfg (split_lines text) 0 initial) as (cmds & H & Hsum);
    [lia | apply initial_open_ok |].
  rewrite Z.add_0_l in H. exists cmds. split; [exact H|].
  rewrite Hsum, expected_summaries. reflexivity.
Qed.

Lemma summaries_of_length hs n : List.length (summaries_of hs n) = List.length hs.
Proof.
  induction hs as [|[[s t] u] hs IH]; [reflexivity|].
  cbn [summaries_of List.length]. now rewrite IH.
Qed.

(** X1.  [parseSQSCommands] emits one command for each line that matches
    the header pattern, in the order of these lines, whatever else the
    document holds.  The command has the type and the URL of its header;
    its range starts on the line of the header and ends on the line
    before the next header, or on the last line of the document. *)
Theorem commands_follow_headers (cfg : Configuration) (text : jsstring) :
  exists cmds,
    parseSQSCommands cfg text = Ok cmds /\
    List.map summary cmds =
    summaries_of (header_lines 0 (split_lines text))
      (Z.of_nat (List.length (split_lines text))) /\
    List.length cmds = List.length (header_lines 0 (split_lines text)).
Proof.
  destruct (parse_summaries cfg text) as (cmds & H & Hsum).
  exists cmds. split; [exact H|]. split; [exact Hsum|].
  apply (f_equal (@List.length _)) in Hsum. rewrite length_map in Hsum. rewrite Hsum.
  apply summaries_of_length.
Qed.

Lemma header_lines_bounds ls : forall i k s t u,
  nth_error (header_lines i ls) k = Some (s, t, u) ->
  i <= s < i + Z.of_nat (List.length ls).
Proof.
  induction ls as [|l rest IH]; intros i k s t u; cbn [header_lines].
  - now destruct k.
  - assert (forall k, nth_error (header_lines (i + 1) rest) k = Some (s, t, u) ->
                      i <= s < i + Z.of_nat (List.length (l :: rest))) as Hrest.
    { intros k' H. apply IH in H. cbn [List.length]. lia. }
    destruct (commandBlockPattern (trim l)) as [[t0 u0]|]; [|apply Hrest].
    destruct k as [|k]; [|apply Hrest].
    cbn. intros [= <- _ _]. cbn [List.length]. lia.
Qed.

Lemma header_lines_increasing ls : forall i k s t u s' t' u',
  nth_error (header_lines i ls) k = Some (s, t, u) ->
  nth_error (header_lines i ls) (S k) = Some (s', t', u') ->
  s < s'.
Proof.
  induction ls as [|l rest IH]; intros i k s t u s' t' u'; cbn [header_lines].
  - now destruct k.
  - destruct (commandBlockPattern (trim l)) as [[t0 u0]|]; [|apply IH].
    destruct k as [|k]; [|apply IH].
    cbn [nth_error]. intros [= <- _ _] H.
    pose proof (header_lines_bounds rest (i + 1) 0 s' t' u' H). lia.
Qed.

Lemma summaries_of_nth hs n : forall k x,
  nth_error (summaries_of hs n) k = Some x ->
  exists s t u,
    nth_error hs k = Some (s, t, u) /\
    ((exists s' t' u', nth_error hs (S k) = Some (s', t', u') /\
                       x = (Some (lines_range s (s' - 1)), Some t, Some u)) \/
     (nth_error hs (S k) = None /\ x = (Some (lines_range s (n - 1)), Some t, Some u))).
Proof.
  induction hs as [|[[s t] u] rest IH]; intros k x; cbn [summaries_of].
  - now destruct k.
  - destruct k as [|k].
    + cbn. intros [= <-]. exists s, t, u. split; [reflexivity|].
      destruct rest as [|[[s' t'] u'] rest']; [now right|].
      left. exists s', t', u'. auto.
    + cbn [nth_error]. apply IH.
Qed.

Lemma summaries_of_none hs n k :
  nth_error (summaries_of hs n) k = None -> nth_error hs k = None.
Proof.
  revert k. induction hs as [|[[s t] u] rest IH]; intros k; [now destruct k|].
  destruct k as [|k]; cbn; [discriminate | apply IH].
Qed.

(** X2.  The ranges of the emitted commands lie in the document and
    follow one another without a gap or an overlap: the range of a
    command starts at column 0 of a line [s] and ends at column 1000 of a
    line [e] with [0 <= s <= e]; the next command, if there is one,
    starts on line [e + 1]; and the last command ends on the last line of
    the document. *)
Theorem ranges_follow_one_another
    (cfg : Configuration) (text : jsstring) (cmds : list SQSCommand) (k : nat)
    (c : SQSCommand) :
  parseSQSCommands cfg text = Ok cmds ->
  nth_error cmds k = Some c ->
  exists s e,
    range c = Some (lines_range s e) /\
    0 <= s <= e /\ e < Z.of_nat (List.length (split_lines text)) /\
    (forall c', nth_error cmds (S k) = Some c' -> start_line c' = Some (e + 1)) /\
    (nth_error cmds (S k) = None -> e = Z.of_nat (List.length (split_lines text)) - 1).
Proof.
  intros H Hk. destruct (parse_summaries cfg text) as (cmds' & H' & Hsum).
  rewrite H in H'. injection H' as <-.
  set (n := Z.of_nat (List.length (split_lines text))) in *.
  set (hs := header_lines 0 (split_lines text)) in *.
  assert (nth_error (summaries_of hs n) k = Some (summary c)) as Hx.
  { rewrite <- Hsum. now apply map_nth_error. }
  destruct (summaries_of_nth _ _ _ _ Hx) as (s & t & u & Hh & Hnext).
  pose proof (header_lines_bounds _ _ _ _ _ _ Hh) as Hb. fold n in Hb.
  destruct Hnext as [(s' & t' & u' & Hh' & Hc) | [Hnone Hc]];
    unfold summary in Hc; injection Hc as Hr _ _.
  - pose proof (header_lines_increasing _ _ _ _ _ _ _ _ _ Hh Hh') as Hlt.
    pose proof (header_lines_bounds _ _ _ _ _ _ Hh') as Hb'. fold n in Hb'.
    exists s, (s' - 1). split; [exact Hr|]. split; [lia|]. split; [lia|]. split.
    + intros c' Hc'.
      assert (nth_error (summaries_of hs n) (S k) = Some (summary c')) as Hx'.
      { rewrite <- Hsum. now apply map_nth_error. }
      destruct (summaries_of_nth _ _ _ _ Hx') as (s2 & t2 & u2 & Hh2 & Hnext2).
      rewrite Hh' in Hh2. injection Hh2 as <- <- <-.
      unfold start_line.
      destruct Hnext2 as [(s3 & t3 & u3 & _ & Hc2) | [_ Hc2]];
        unfold summary in Hc2; injection Hc2 as -> _ _; cbn; f_equal; lia.
    + intros Hn. exfalso.
      assert (nth_error (summaries_of hs n) (S k) = None) as Hn'.
      { rewrite <- Hsum. rewrite nth_error_map, Hn. reflexivity. }
      apply summaries_of_none in Hn'. congruence.
  - exists s, (n - 1). split; [exact Hr|]. split; [lia|]. split; [lia|]. split.
    + intros c' Hc'. exfalso.
      assert (nth_error (summaries_of hs n) (S k) = Some (summary c')) as Hx'.
      { rewrite <- Hsum. now apply map_nth_error. }
      destruct (summaries_of_nth _ _ _ _ Hx') as (s2 & t2 & u2 & Hh2 & _). congruence.
    + reflexivity.
Qed.

(** ** White space around lines, and documents put one after another *)

Lemma scan_trimmed cfg l1 : forall l2 i st,
  List.map trim l1 = List.map trim l2 -> scan cfg i l1 st = scan cfg i l2 st.
Proof.
  induction l1 as [|a l1 IH]; intros [|b l2] i st; try discriminate; [reflexivity|].
  cbn [List.map]. intros [= Hab Hrest]. cbn [scan].
  assert (step cfg i a st = step cfg i b st) as -> by (unfold step; now rewrite Hab).
  destruct (step cfg i b st); [|reflexivity]. cbn [bind]. now apply IH.
Qed.

(** X3.  Only the trimmed lines of a document count: two texts whose
    lines are the same once trimmed (indentation, trailing blanks, a
    carriage return before each line feed) are parsed into the same
    commands. *)
Theorem parse_ignores_white_space_around_lines
    (cfg : Configuration) (text1 text2 : jsstring) :
  List.map trim (split_lines text1) = List.map trim (split_lines text2) ->
  parseSQSCommands cfg text1 = parseSQSCommands cfg text2.
Proof.
  intros H. unfold parseSQSCommands, parseLines.
  rewrite (scan_trimmed cfg _ _ 0 initial H).
  apply (f_equal (@List.length _)) in H. rewrite !length_map in H. now rewrite H.
Qed.

Lemma split_lines_not_nil s : split_lines s <> [].
Proof.
  destruct s as [|c s]; [discriminate|]. cbn [split_lines].
  destruct (c =? 10)%N; [discriminate|]. destruct (split_lines s); discriminate.
Qed.

Lemma split_lines_app t1 : forall t2,
  split_lines (t1 ++ 10%N :: t2) = split_lines t1 ++ split_lines t2.
Proof.
  induction t1 as [|c t1 IH]; intros t2; [reflexivity|].
  cbn [app split_lines]. rewrite IH. destruct (c =? 10)%N; [reflexivity|].
  pose proof (split_lines_not_nil t1). now destruct (split_lines t1).
Qed.

(** X4.  A document that is followed, after a line feed, by a text whose
    first line is a header is parsed as the two texts are: its commands
    first, then the commands of the second text with their ranges moved
    down by the number of lines of the first. *)
Theorem parse_of_two_documents
    (cfg : Configuration) (text1 text2 : jsstring) (cmds1 cmds2 : list SQSCommand) :
  starts_with_header text2 = true ->
  parseSQSCommands cfg text1 = Ok cmds1 ->
  parseSQSCommands cfg text2 = Ok cmds2 ->
  parseSQSCommands cfg (text1 ++ 10%N :: text2) =
  Ok (cmds1 ++ List.map (shift_command (Z.of_nat (List.length (split_lines text1)))) cmds2).
Proof.
  unfold starts_with_header, parseSQSCommands. rewrite split_lines_app.
  destruct (split_lines text2) as [|h rest]; [discriminate|].
  intros Hh H1 H2. now apply parseLines_app_header.
Qed.

(** ** Fields that the parser never sets, and errors of [finalizeCommand] *)

(** X5.  No command that [parseSQSCommands] emits has message
    attributes: nothing in the scan writes that field. *)
Theorem message_attributes_are_never_set
    (cfg : Configuration) (text : jsstring) (cmds : list SQSCommand) (c : SQSCommand) :
  parseSQSCommands cfg text = Ok cmds -> In c cmds -> messageAttributes c = None.
Proof.
  unfold parseSQSCommands. intros H Hin.
  assert (Forall (fun c => messageAttributes c = None) cmds) as HF.
  { apply (parseLines_keeps cfg (split_lines text)); auto. }
  rewrite Forall_forall in HF. exact (HF c Hin).
Qed.

(** X6.  [finalizeCommand] throws exactly when its start line or its end
    line is negative: the two [vscode.Position]s are the only thing in
    it that can throw, a failure of [JSON.parse] being caught. *)
Theorem finalizeCommand_throws_on_negative_lines
    (c : SQSCommand) (s e : Z) (L : list jsstring) :
  (exists x, finalizeCommand c s e L = Throw x) <-> (s < 0 \/ e < 0).
Proof.
  unfold finalizeCommand, new_Position. split.
  - destruct (Z.ltb_spec s 0); [auto|]. destruct (Z.ltb_spec e 0); [auto|].
    cbn. intros [x Hx]. exfalso.
    destruct (_ && _ && _); [|discriminate]. now destruct (JSON_parse _).
  - intros [H | H].
    + destruct (Z.ltb_spec s 0); [|lia]. cbn. eauto.
    + destruct (Z.ltb_spec s 0); [cbn; eauto|]. destruct (Z.ltb_spec e 0); [|lia].
      cbn. eauto.
Qed.

(** ** Parameter lines: the last one wins *)

Lemma strip_prefix_head (a c : N) (p r : jsstring) :
  a <> c -> strip_prefix (a :: p) (c :: r) = None.
Proof. intros H. cbn [strip_prefix]. now destruct (N.eqb_spec a c). Qed.

Lemma match_text_param_head (a c : N) (p r : jsstring) :
  a <> c -> match_text_param (a :: p) (c :: r) = None.
Proof. intros H. unfold match_text_param, param_front. now rewrite strip_prefix_head. Qed.

Lemma match_digits_param_head (a c : N) (p r : jsstring) :
  a <> c -> match_digits_param (a :: p) (c :: r) = None.
Proof. intros H. unfold match_digits_param, param_front. now rewrite strip_prefix_head. Qed.

(** The five parameter patterns start with five different letters: a
    line matches at most one of them. *)
Lemma patterns_exclusive (line : jsstring) :
  (profilePattern line <> None ->
   regionPattern line = None /\ maxMessagesPattern line = None /\
   visibilityTimeoutPattern line = None /\ waitTimePattern line = None) /\
  (regionPattern line <> None ->
   maxMessagesPattern line = None /\ visibilityTimeoutPattern line = None /\
   waitTimePattern line = None) /\
  (maxMessagesPattern line <> None ->
   visibilityTimeoutPattern line = None /\ waitTimePattern line = None) /\
  (visibilityTimeoutPattern line <> None -> waitTimePattern line = None).
Proof.
  destruct line as [|c r].
  { repeat split; reflexivity. }
  assert (c <> 112%N -> profilePattern (c :: r) = None) as Hp.
  { intros H. apply (match_text_param_head 112 c (js "rofile")). congruence. }
  assert (c <> 114%N -> regionPattern (c :: r) = None) as Hr.
  { intros H. apply (match_text_param_head 114 c (js "egion")). congruence. }
  assert (c <> 109%N -> maxMessagesPattern (c :: r) = None) as Hm.
  { intros H. apply (match_digits_param_head 109 c (js "ax-messages")). congruence. }
  assert (c <> 118%N -> visibilityTimeoutPattern (c :: r) = None) as Hv.
  { intros H. apply (match_digits_param_head 118 c (js "isibility-timeout")). congruence. }
  assert (c <> 119%N -> waitTimePattern (c :: r) = None) as Hw.
  { intros H. apply (match_digits_param_head 119 c (js "ait-time")). congruence. }
  split; [|split; [|split]]; intros H;
    repeat match goal with
           | |- _ /\ _ => split
           | |- ?f (c :: r) = None =>
               first [ apply Hp; intros -> | apply Hr; intros -> | apply Hm; intros ->
                     | apply Hv; intros -> | apply Hw; intros -> ];
               apply H; reflexivity
           end.
Qed.

(** A blank or comment line matches none of the parameter patterns. *)
Lemma skipped_no_parameter (c : SQSCommand) (line : jsstring) :
  is_skipped line = true -> apply_parameter c line = c.
Proof.
  unfold is_skipped. intros H. apply orb_true_iff in H. destruct H as [H | H].
  - apply jsstring_eqb_eq in H. subst. unfold apply_parameter.
    change (profilePattern []) with (@None jsstring).
    change (regionPattern []) with (@None jsstring).
    change (receive_parameter c []) with (@None SQSCommand).
    now destruct (has_type c RECEIVE).
  - apply startsWith_cons in H. destruct H as [l ->]. unfold apply_parameter.
    change (profilePattern (N_of_ascii "#" :: l)) with (@None jsstring).
    change (regionPattern (N_of_ascii "#" :: l)) with (@None jsstring).
    change (receive_parameter c (N_of_ascii "#" :: l)) with (@None SQSCommand).
    now destruct (has_type c RECEIVE).
Qed.

Lemma apply_parameter_type c line : type (apply_parameter c line) = type c.
Proof.
  unfold apply_parameter.
  destruct (profilePattern line); [reflexivity|].
  destruct (regionPattern line); [reflexivity|].
  destruct (has_type c RECEIVE); [|reflexivity].
  destruct (receive_parameter c line) eqn:E; [|reflexivity].
  now apply receive_parameter_fields in E.
Qed.




Lemma apply_parameter_maxMessages c line :
  has_type c RECEIVE = true ->
  maxMessages (apply_parameter c line) =
  match maxMessagesPattern line with Some d => Some (parseInt d) | None => maxMessages c end.
Proof.
  intros Ht. unfold apply_parameter. rewrite Ht.
  destruct (patterns_exclusive line) as (Hp & Hr & _).
  destruct (profilePattern line).
  { destruct Hp as (_ & -> & _); [discriminate | reflexivity]. }
  destruct (regionPattern line).
  { destruct Hr as (-> & _); [discriminate | reflexivity]. }
  unfold receive_parameter.
  destruct (maxMessagesPattern line); [reflexivity|].
  destruct (visibilityTimeoutPattern line); [reflexivity|].
  now destruct (waitTimePattern line).
Qed.

Lemma apply_parameter_visibilityTimeout c line :
  has_type c RECEIVE = true ->
  visibilityTimeout (apply_parameter c line) =
  match visibilityTimeoutPattern line with
  | Some d => Some (parseInt d)
  | None => visibilityTimeout c
  end.
Proof.
  intros Ht. unfold apply_parameter. rewrite Ht.
  destruct (patterns_exclusive line) as (Hp & Hr & Hm & _).
  destruct (profilePattern line).
  { destruct Hp as (_ & _ & -> & _); [discriminate | reflexivity]. }
  destruct (regionPattern line).
  { destruct Hr as (_ & -> & _); [discriminate | reflexivity]. }
  unfold receive_parameter.
  destruct (maxMessagesPattern line).
  { destruct Hm as (-> & _); [discriminate | reflexivity]. }
  destruct (visibilityTimeoutPattern line); [reflexivity|].
  now destruct (waitTimePattern line).
Qed.

Lemma apply_parameter_waitTimeSeconds c line :
  has_type c RECEIVE = true ->
  waitTimeSeconds (apply_parameter c line) =
  match waitTimePattern line with Some d => Some (parseInt d) | None => waitTimeSeconds c end.
Proof.
  intros Ht. unfold apply_parameter. rewrite Ht.
  destruct (patterns_exclusive line) as (Hp & Hr & Hm & Hv).
  destruct (profilePattern line).
  { destruct Hp as (_ & _ & _ & ->); [discriminate | reflexivity]. }
  destruct (regionPattern line).
  { destruct Hr as (_ & _ & ->); [discriminate | reflexivity]. }
  unfold receive_parameter.
  destruct (maxMessagesPattern line).
  { destruct Hm as (_ & ->); [discriminate | reflexivity]. }
  destruct (visibilityTimeoutPattern line).
  { rewrite Hv; [reflexivity | discriminate]. }
  now destruct (waitTimePattern line).
Qed.

(** A field that every line sets from its own pattern, or keeps, holds
    the value of the last matching line. *)
Lemma fold_parameter {A : Type} (P : SQSCommand -> Prop) (get : SQSCommand -> option A)
    (pattern : jsstring -> option jsstring) (f : jsstring -> A) :
  (forall c line, P c -> P (apply_parameter c line)) ->
  (forall c line, P c ->
     get (apply_parameter c line) =
     match pattern line with Some v => Some (f v) | None => get c end) ->
  forall ls c, P c ->
    get (fold_left apply_parameter (List.map trim ls) c) =
    match last_match pattern ls with
    | Some v => Some (f v)
    | None => get c
    end.
Proof.
  intros HP Hget ls. unfold last_match, last_match_from.
  induction ls as [|l ls IH] using rev_ind; intros c Hc; [reflexivity|].
  rewrite map_app, !fold_left_app. cbn [List.map fold_left]. rewrite Hget.
  - destruct (pattern (trim l)); [reflexivity|]. now apply IH.
  - clear IH. revert c Hc. induction ls as [|x xs IHx]; intros c Hc; [exact Hc|].
    cbn [List.map fold_left]. apply IHx. now apply HP.
Qed.

(** One line outside a JSON body, when it starts none: the open command
    takes the parameter of the line, and nothing else changes. *)
Lemma step_parameter cfg i raw st c t :
  is_header raw = false -> keeps_out_of_body t raw = true ->
  currentCommand st = Some c -> type c = Some t -> inJsonBody st = false ->
  exists st',
    step cfg i raw st = Ok st' /\
    currentCommand st' = Some (apply_parameter c (trim raw)) /\
    inJsonBody st' = false /\ commandBodyLines st' = commandBodyLines st.
Proof.
  intros Hh Hk Hc Ht Hj. unfold step.
  destruct (is_skipped (trim raw)) eqn:Hs.
  { exists st. rewrite (skipped_no_parameter _ _ Hs). auto. }
  rewrite (not_header_pattern _ Hh), Hc, Hj. cbn [negb].
  unfold on_parameter_line, apply_parameter.
  destruct (profilePattern (trim raw)); [eexists; repeat split; eauto|].
  destruct (regionPattern (trim raw)); [eexists; repeat split; eauto|].
  destruct (if has_type c RECEIVE then receive_parameter c (trim raw) else None);
    [eexists; repeat split; eauto|].
  assert (has_type c SEND && startsWith (js "{") (trim raw) = false) as ->.
  { unfold keeps_out_of_body in Hk. apply negb_true_iff in Hk.
    unfold has_type. now rewrite Ht. }
  rewrite (not_skipped_not_delimiter _ Hs). exists st. auto.
Qed.

(** The lines of a block none of which starts a JSON body: the open
    command takes their parameters in turn. *)
Lemma scan_parameter_lines cfg t block : forall i st c,
  forallb (fun l => negb (is_header l)) block = true ->
  forallb (keeps_out_of_body t) block = true ->
  currentCommand st = Some c -> type c = Some t -> inJsonBody st = false ->
  exists st',
    scan cfg i block st = Ok st' /\
    currentCommand st' = Some (fold_left apply_parameter (List.map trim block) c) /\
    inJsonBody st' = false /\ commandBodyLines st' = commandBodyLines st.
Proof.
  induction block as [|raw block IH]; intros i st c Hnh Hk Hc Ht Hj.
  - exists st. auto.
  - cbn [forallb] in Hnh, Hk. apply andb_true_iff in Hnh, Hk.
    destruct Hnh as [Hraw Hnh]. destruct Hk as [Hkraw Hk]. apply negb_true_iff in Hraw.
    destruct (step_parameter cfg i raw st c t Hraw Hkraw Hc Ht Hj) as (s1 & H1 & Hc1 & Hj1 & Hl1).
    destruct (IH (i + 1) s1 (apply_parameter c (trim raw)) Hnh Hk Hc1) as (st' & H2 & Hc2 & Hj2 & Hl2);
      [now rewrite apply_parameter_type | exact Hj1 |].
    exists st'. cbn [scan List.map fold_left]. rewrite H1. cbn [bind].
    repeat split; auto. congruence.
Qed.

(** The command of a block none of whose lines starts a JSON body. *)
Lemma block_of_parameters cfg text pre h block post t :
  split_lines text = pre ++ h :: block ++ post ->
  is_block h block post = true ->
  header_type h = Some t ->
  forallb (keeps_out_of_body t) block = true ->
  exists u,
    commandBlockPattern (trim h) = Some (t, u) /\
    block_command cfg text pre =
    Some (shift_command (Z.of_nat (List.length pre))
            (sealed (fold_left apply_parameter (List.map trim block) (new_command cfg t u))
               0 (Z.of_nat (List.length block)) [])).
Proof.
  intros Hsplit Hb Hty Hk.
  destruct (block_command_sealed cfg text pre h block post Hsplit Hb) as (st & c & Hst & Hc & Hcmd).
  destruct (is_block_parts _ _ _ Hb) as [Hh Hblock].
  destruct (scan_block_alone cfg h block st Hh Hst) as (t' & u & Hp & Hscan).
  pose proof (header_type_pattern _ _ _ _ Hty Hp) as ->.
  destruct (scan_parameter_lines cfg t block 1 (opened cfg t u) (new_command cfg t u)
              Hblock Hk eq_refl eq_refl eq_refl) as (st' & Hscan' & Hc' & _ & Hl').
  rewrite Hscan in Hscan'. injection Hscan' as <-.
  rewrite Hc in Hc'. injection Hc' as ->. simpl in Hl'. rewrite Hl' in Hcmd.
  exists u. split; [exact Hp | exact Hcmd].
Qed.


Lemma apply_parameter_queueUrl c line : queueUrl (apply_parameter c line) = queueUrl c.
Proof.
  unfold apply_parameter.
  destruct (profilePattern line); [reflexivity|].
  destruct (regionPattern line); [reflexivity|].
  destruct (has_type c RECEIVE); [|reflexivity].
  destruct (receive_parameter c line) eqn:E; [|reflexivity].
  now apply receive_parameter_fields in E.
Qed.

(** The command of the block of a RECEIVE header. *)
Lemma receive_block cfg text pre h block post :
  split_lines text = pre ++ h :: block ++ post ->
  is_block h block post = true ->
  header_type h = Some RECEIVE ->
  exists c u,
    commandBlockPattern (trim h) = Some (RECEIVE, u) /\
    block_command cfg text pre = Some c /\
    queueUrl c = Some u /\
    maxMessages c = option_map parseInt (last_match maxMessagesPattern block) /\
    visibilityTimeout c = option_map parseInt (last_match visibilityTimeoutPattern block) /\
    waitTimeSeconds c = option_map parseInt (last_match waitTimePattern block).
Proof.
  intros Hsplit Hb Hty.
  assert (forallb (keeps_out_of_body RECEIVE) block = true) as Hk.
  { apply forallb_forall. reflexivity. }
  destruct (block_of_parameters cfg text pre h block post RECEIVE Hsplit Hb Hty Hk)
    as (u & Hp & Hcmd).
  eexists _, u. split; [exact Hp|]. split; [exact Hcmd|].
  cbn [shift_command queueUrl maxMessages visibilityTimeout waitTimeSeconds].
  assert (forall c s e, queueUrl (sealed c s e []) = queueUrl c /\
                        maxMessages (sealed c s e []) = maxMessages c /\
                        visibilityTimeout (sealed c s e []) = visibilityTimeout c /\
                        waitTimeSeconds (sealed c s e []) = waitTimeSeconds c) as Hs.
  { intros c s e. unfold sealed.
    replace (0 <? Z.of_nat (List.length (@nil jsstring))) with false by reflexivity.
    rewrite andb_false_r. auto. }
  destruct (Hs (fold_left apply_parameter (List.map trim block) (new_command cfg RECEIVE u))
              0 (Z.of_nat (List.length block))) as (-> & -> & -> & ->).
  assert (forall c line, has_type c RECEIVE = true ->
            has_type (apply_parameter c line) RECEIVE = true) as HP.
  { intros c line. unfold has_type. now rewrite apply_parameter_type. }
  rewrite (fold_parameter (fun c => has_type c RECEIVE = true) maxMessages
             maxMessagesPattern parseInt HP apply_parameter_maxMessages); [|reflexivity].
  rewrite (fold_parameter (fun c => has_type c RECEIVE = true) visibilityTimeout
             visibilityTimeoutPattern parseInt HP apply_parameter_visibilityTimeout);
    [|reflexivity].
  rewrite (fold_parameter (fun c => has_type c RECEIVE = true) waitTimeSeconds
             waitTimePattern parseInt HP apply_parameter_waitTimeSeconds); [|reflexivity].
  split; [|repeat split].
  assert (forall ls c, queueUrl (fold_left apply_parameter ls c) = queueUrl c) as H.
  { induction ls as [|l ls IH]; intros c; [reflexivity|]. cbn [fold_left].
    now rewrite IH, apply_parameter_queueUrl. }
  now rewrite H.
Qed.

(** X8.  In the block of a RECEIVE command each of [max-messages:],
    [visibility-timeout:] and [wait-time:] is taken from the last line
    that sets it, as the decimal value of its digits; a parameter that no
    line sets stays absent. *)
Theorem last_receive_parameter_line_wins
    (cfg : Configuration) (text : jsstring) (pre : list jsstring) (h : jsstring)
    (block post : list jsstring) :
  split_lines text = pre ++ h :: block ++ post ->
  is_block h block post = true ->
  header_type h = Some RECEIVE ->
  exists c,
    block_command cfg text pre = Some c /\
    maxMessages c = option_map parseInt (last_match maxMessagesPattern block) /\
    visibilityTimeout c = option_map parseInt (last_match visibilityTimeoutPattern block) /\
    waitTimeSeconds c = option_map parseInt (last_match waitTimePattern block).
Proof.
  intros Hsplit Hb Hty.
  destruct (receive_block cfg text pre h block post Hsplit Hb Hty)
    as (c & u & _ & Hc & _ & Hm & Hv & Hw).
  exists c. auto.
Qed.

(** ** The body of an emitted command is an object *)

Lemma lex_idle_keeps_tokens c toks m' toks' :
  lex_idle c toks = Some (m', toks') -> exists pre, toks' = pre ++ toks.
Proof.
  unfold lex_idle.
  repeat match goal with
         | |- context [if ?b then _ else _] => destruct b
         end;
    intros H; inversion H; subst;
    first [ now exists [] | eexists [_]; reflexivity ].
Qed.

(** The lexer only adds tokens in front of those it has. *)
Lemma lex_step_keeps_tokens c m toks m' toks' :
  lex_step c (m, toks) = Some (m', toks') -> exists pre, toks' = pre ++ toks.
Proof.
  unfold lex_step. destruct m as [|acc|acc|acc hex|acc|acc].
  - apply lex_idle_keeps_tokens.
  - destruct (c =? 34)%N; [intros [= <- <-]; eexists [_]; reflexivity|].
    destruct (c =? 92)%N; [intros [= <- <-]; now exists []|].
    destruct (c <? 32)%N; [discriminate|]. intros [= <- <-]. now exists [].
  - destruct (c =? 117)%N; [intros [= <- <-]; now exists []|].
    destruct (lex_escape c); [|discriminate]. intros [= <- <-]. now exists [].
  - destruct (hex_value c); [|discriminate].
    destruct hex as [|a [|b [|d [|x hex]]]]; intros [= <- <-]; now exists [].
  - destruct (is_number_char c); [intros [= <- <-]; now exists []|].
    destruct (parse_number (rev acc)) as [[m e]|]; [|discriminate].
    intros H. apply lex_idle_keeps_tokens in H. destruct H as [pre ->].
    exists (pre ++ [TNumber m e]). now rewrite <- app_assoc.
  - destruct (is_lower_letter c); [intros [= <- <-]; now exists []|].
    destruct (parse_word (rev acc)) as [t|]; [|discriminate].
    intros H. apply lex_idle_keeps_tokens in H. destruct H as [pre ->].
    exists (pre ++ [t]). now rewrite <- app_assoc.
Qed.

Lemma lex_from_keeps_tokens s : forall m toks m' toks',
  lex_from s (m, toks) = Some (m', toks') -> exists pre, toks' = pre ++ toks.
Proof.
  induction s as [|c s IH]; intros m toks m' toks'; cbn [lex_from].
  - intros [= <- <-]. now exists [].
  - destruct (lex_step c (m, toks)) as [[m1 toks1]|] eqn:E; [|discriminate].
    apply lex_step_keeps_tokens in E. destruct E as [pre1 ->].
    intros H. apply IH in H. destruct H as [pre ->].
    exists (pre ++ pre1). now rewrite app_assoc.
Qed.

(** The first token of a text that starts with an opening brace. *)
Lemma lex_opening_brace (r : jsstring) (ts : list token) :
  lex (123%N :: r) = Some ts -> exists ts', ts = TLBrace :: ts'.
Proof.
  unfold lex. cbn [lex_from].
  change (lex_step 123%N (LxIdle, [])) with (Some (LxIdle, [TLBrace])).
  destruct (lex_from r (LxIdle, [TLBrace])) as [[m toks]|] eqn:E; [|discriminate].
  apply lex_from_keeps_tokens in E. destruct E as [pre ->].
  destruct m as [|acc|acc|acc hex|acc|acc]; try discriminate.
  - intros [= <-]. rewrite rev_app_distr. cbn. eauto.
  - destruct (parse_number (rev acc)) as [[m e]|]; [|discriminate].
    intros [= <-]. cbn [rev]. rewrite rev_app_distr. cbn. eauto.
  - destruct (parse_word (rev acc)) as [t|]; [|discriminate].
    intros [= <-]. cbn [rev]. rewrite rev_app_distr. cbn. eauto.
Qed.

Lemma bottom_is_object_cons f g stack :
  bottom_is_object (f :: g :: stack) = bottom_is_object (g :: stack).
Proof. reflexivity. Qed.

Lemma push_value_object v stack st' :
  bottom_is_object stack = true -> push_value v stack = Some st' ->
  bottom_is_object (snd st') = true.
Proof.
  destruct stack as [|[acc|acc [k|]] rest]; cbn [push_value]; try discriminate;
    intros H [= <-]; cbn [snd]; destruct rest; auto.
Qed.

Lemma parse_value_token_object t stack st' :
  bottom_is_object stack = true -> parse_value_token t stack = Some st' ->
  bottom_is_object (snd st') = true.
Proof.
  intros H. destruct t; cbn [parse_value_token]; try discriminate;
    try (now apply push_value_object);
    intros [= <-]; cbn [snd]; destruct stack; auto; discriminate.
Qed.

Lemma parse_key_token_object t stack st' :
  bottom_is_object stack = true -> parse_key_token t stack = Some st' ->
  bottom_is_object (snd st') = true.
Proof.
  intros H. unfold parse_key_token.
  destruct t; try discriminate. destruct stack as [|[acc|acc [k|]] rest]; try discriminate.
  intros [= <-]. cbn [snd]. destruct rest; auto.
Qed.

(** Closing the frame on top of a stack whose bottom frame is an object
    leaves such a stack, or the object as the value of the text. *)
Lemma close_array_object acc rest st' :
  bottom_is_object (FArray acc :: rest) = true ->
  push_value (JArray (rev acc)) rest = Some st' -> object_state st'.
Proof.
  destruct rest as [|g rest]; [discriminate|]. rewrite bottom_is_object_cons.
  intros H E. left. now apply push_value_object in E.
Qed.

Lemma close_object_object acc k rest st' :
  bottom_is_object (FObject acc k :: rest) = true ->
  push_value (JObject (rev acc)) rest = Some st' -> object_state st'.
Proof.
  destruct rest as [|g rest].
  - intros _ [= <-]. right. eauto.
  - rewrite bottom_is_object_cons. intros H E. left. now apply push_value_object in E.
Qed.

Lemma parse_step_object t st st' :
  object_state st -> parse_step t st = Some st' -> object_state st'.
Proof.
  intros [H | [ms ->]]; [|discriminate].
  destruct st as [e stack]. cbn [snd] in H. unfold parse_step.
  destruct e.
  - intros E. left. now apply parse_value_token_object in E.
  - destruct t; try (intros E; left; now apply parse_value_token_object in E).
    destruct stack as [|[acc|acc k] rest];
      try (intros E; left; now apply parse_value_token_object in E).
    now apply close_array_object.
  - destruct t; try (intros E; left; now apply parse_key_token_object in E).
    destruct stack as [|[acc|acc [k|]] rest];
      try (intros E; left; now apply parse_key_token_object in E).
    now apply (close_object_object acc None).
  - intros E. left. now apply parse_key_token_object in E.
  - destruct t; try discriminate. intros [= <-]. now left.
  - destruct t; try discriminate; destruct stack as [|[acc|acc [k|]] rest]; try discriminate.
    + now apply (close_object_object acc None).
    + now apply close_array_object.
    + intros [= <-]. now left.
    + intros [= <-]. now left.
  - discriminate.
Qed.

Lemma parse_tokens_object ts : forall st v,
  object_state st -> parse_tokens ts st = Some v -> exists ms, v = JObject ms.
Proof.
  induction ts as [|t ts IH]; intros st v Hst; cbn [parse_tokens].
  - destruct Hst as [H | [ms ->]]; [|intros [= <-]; eauto].
    destruct st as [e [|f stack]]; [discriminate|]. now destruct e.
  - destruct (parse_step t st) as [st1|] eqn:E; [|discriminate].
    apply IH. now apply (parse_step_object t st).
Qed.

(** [JSON.parse] of a text that starts with an opening brace returns an
    object, if it returns. *)
Lemma JSON_parse_object (r : jsstring) (v : json) :
  JSON_parse (123%N :: r) = Some v -> exists ms, v = JObject ms.
Proof.
  unfold JSON_parse. destruct (lex (123%N :: r)) as [ts|] eqn:E; [|discriminate].
  apply lex_opening_brace in E. destruct E as [ts' ->]. cbn [parse_tokens parse_step parse_value_token].
  apply parse_tokens_object. now left.
Qed.

Lemma JSON_parse_lines_object (l : jsstring) (ls : list jsstring) (v : json) :
  startsWith (js "{") l = true ->
  JSON_parse (join_lines (l :: ls)) = Some v -> exists ms, v = JObject ms.
Proof.
  intros H. apply startsWith_cons in H. destruct H as [l' ->].
  assert (forall c, join_lines ((c :: l') :: ls) = c :: join_lines (l' :: ls)) as Hj.
  { intros c. unfold join_lines. now destruct ls. }
  rewrite Hj. apply JSON_parse_object.
Qed.

Lemma finalizeCommand_object c s e L c' :
  match L with [] => True | l :: _ => startsWith (js "{") l = true end ->
  finalizeCommand c s e L = Ok c' -> object_body c -> object_body c'.
Proof.
  intros HL. unfold finalizeCommand.
  destruct (new_Position s 0) as [ps|]; [|discriminate].
  destruct (new_Position e 1000) as [pe|]; [|discriminate]. cbn [bind].
  destruct (has_type _ SEND) eqn:Ht; cbn [andb]; [|now intros [= <-]].
  destruct (no_messageBody _); cbn [andb]; [|now intros [= <-]].
  destruct L as [|l L]; [now intros [= <-]|]. cbn [List.length].
  destruct (0 <? _); [|now intros [= <-]].
  destruct (JSON_parse (join_lines (l :: L))) as [v|] eqn:E; [|now intros [= <-]].
  intros [= <-] _ w. cbn. intros [= <-]. split.
  - unfold has_type in Ht. cbn in Ht. now destruct (type c) as [[]|].
  - now apply (JSON_parse_lines_object l L).
Qed.

Lemma push_current_object st e st1 :
  push_current st e = Ok st1 ->
  body_opens_with_brace st -> all_commands object_body st ->
  match commandBodyLines st1 with [] => True | l :: _ => startsWith (js "{") l = true end /\
  all_commands object_body st1.
Proof.
  unfold push_current, body_opens_with_brace. intros H Hb [Hc Hcs].
  assert (match commandBodyLines st with
          | [] => True
          | l :: _ => startsWith (js "{") l = true
          end) as Hb'.
  { now destruct (commandBodyLines st). }
  destruct (currentCommand st) as [c|] eqn:Ec; [|injection H as <-; split; [auto|]; split; auto;
                                                  now rewrite Ec].
  destruct (type_and_queueUrl c); [|injection H as <-; split; [auto|]; split; auto; now rewrite Ec].
  destruct (finalizeCommand c _ e _) as [c'|] eqn:Hf; [|discriminate].
  injection H as <-. cbn.
  assert (object_body c') as Hc' by (eapply finalizeCommand_object; eauto).
  split; [exact I|]. split; cbn.
  - now intros c0 [= <-].
  - apply Forall_app. split; [exact Hcs|]. now constructor.
Qed.

Lemma transition_object cfg i line st st' :
  transition cfg i line st st' ->
  body_opens_with_brace st /\ all_commands object_body st ->
  body_opens_with_brace st' /\ all_commands object_body st'.
Proof.
  intros T [Hb Hall]. pose proof Hall as [Hc Hcs].
  inversion T as [s0 | s0 s1 t0 u0 Hpat Hpush | s0 c0 v Hc0 Hj0 Hpp
                  | s0 c0 v Hc0 Hj0 Hpp Hrp | s0 c0 c' Hc0 Hj0 Hpp Hrp Hty Hrecv
                  | s0 c0 Hc0 Hj0 Hpp Hrp Hty Hst | s0 s1 Hj0 Hon]; subst.
  - auto.
  - destruct (push_current_object _ _ _ Hpush Hb Hall) as [Hl [_ Hcs1]].
    split.
    + unfold body_opens_with_brace. cbn. now destruct (commandBodyLines s1).
    + split; cbn; [|exact Hcs1]. intros c [= <-] v. discriminate.
  - split; [exact Hb|]. split; cbn; [|exact Hcs].
    intros c [= <-] w Hw. now apply (Hc c0 Hc0).
  - split; [exact Hb|]. split; cbn; [|exact Hcs].
    intros c [= <-] w Hw. now apply (Hc c0 Hc0).
  - split; [exact Hb|]. split; cbn; [|exact Hcs].
    intros c [= <-] w Hw. apply receive_parameter_fields in Hrecv.
    destruct Hrecv as (Ht & _ & _ & _ & Hm). rewrite Ht. apply (Hc c0 Hc0). congruence.
  - split; [|split; cbn; auto].
    unfold body_opens_with_brace in *. cbn.
    destruct (commandBodyLines st) as [|l ls]; [exact Hst | exact Hb].
  - unfold body_opens_with_brace in Hb.
    destruct (commandBodyLines st) as [|l ls] eqn:El; [congruence|].
    unfold on_json_line in Hon. rewrite El in Hon.
    destruct (count_braces line (bracesCount st) =? 0); injection Hon as <-.
    + split; [exact Hb|]. split; cbn; [|exact Hcs].
      destruct (currentCommand st) as [c|] eqn:Ec; [|discriminate].
      destruct (has_type c SEND) eqn:Ht; [|intros c1 [= ->]; now apply Hc].
      destruct (JSON_parse (join_lines (l :: ls ++ [line]))) as [v|] eqn:E;
        [|intros c1 [= ->]; now apply Hc].
      intros c1 E1 w. injection E1 as E1. subst c1. cbn. intros [= <-]. split.
      * unfold has_type in Ht. now destruct (type c) as [[]|].
      * now apply (JSON_parse_lines_object l (ls ++ [line])).
    + split; [exact Hb|]. split; cbn; auto.
Qed.

Lemma scan_object cfg ls : forall i st st',
  scan cfg i ls st = Ok st' ->
  body_opens_with_brace st /\ all_commands object_body st ->
  body_opens_with_brace st' /\ all_commands object_body st'.
Proof.
  induction ls as [|raw ls IH]; intros i st st'; cbn [scan].
  - now intros [= <-].
  - destruct (step cfg i raw st) as [st1|] eqn:H1; [|discriminate]. cbn [bind].
    intros H Hinv. apply (IH (i + 1) st1 st' H).
    apply (transition_object cfg i (trim raw) st st1); auto. now apply step_transition.
Qed.

(** X9.  A command that [parseSQSCommands] emits with a message body is
    a SEND command, and its body is a JSON object: the body text starts
    with an opening brace.  So the body is truthy, and the check
    [!command.messageBody] of the send handler fails exactly on a command
    without a body. *)
Theorem message_body_is_an_object_on_send
    (cfg : Configuration) (text : jsstring) (cmds : list SQSCommand) (c : SQSCommand)
    (v : json) :
  parseSQSCommands cfg text = Ok cmds -> In c cmds -> messageBody c = Some v ->
  type c = Some SEND /\ (exists ms, v = JObject ms) /\ no_messageBody c = false.
Proof.
  unfold parseSQSCommands, parseLines. intros H Hin Hv.
  destruct (scan cfg 0 (split_lines text) initial) as [st|] eqn:Hs; [|discriminate].
  cbn [bind] in H.
  destruct (scan_object cfg _ _ _ _ Hs) as [Hb [Hc Hcs]].
  { split; [reflexivity|]. split; [discriminate | constructor]. }
  assert (Forall object_body cmds) as HF.
  { unfold at_end_of_file in H.
    destruct (currentCommand st) as [c0|]; [|now injection H as <-].
    destruct (type_and_queueUrl c0); [|now injection H as <-].
    destruct (finalizeCommand c0 _ _ _) as [c'|] eqn:Hf; [|discriminate].
    injection H as <-. apply Forall_app. split; [exact Hcs|].
    constructor; [|constructor]. eapply finalizeCommand_object; eauto.
    unfold body_opens_with_brace in Hb. now destruct (commandBodyLines st). }
  rewrite Forall_forall in HF. destruct (HF c Hin v Hv) as [Ht [ms ->]].
  repeat split; eauto. unfold no_messageBody. now rewrite Hv.
Qed.

(** ** The lenses of a document *)

Lemma header_lines_nonneg ls : forall i,
  0 <= i -> Forall (fun h : header => 0 <= fst (fst h)) (header_lines i ls).
Proof.
  induction ls as [|l rest IH]; intros i Hi; cbn [header_lines]; [constructor|].
  destruct (commandBlockPattern (trim l)) as [[t u]|]; [constructor; [exact Hi|]|];
    apply IH; lia.
Qed.

Lemma summaries_of_heads hs n :
  List.map (fun x : option Range * option SQSCommandType * option jsstring =>
              (option_map (fun r => line (range_start r)) (fst (fst x)), snd (fst x)))
    (summaries_of hs n) =
  List.map header_head hs.
Proof.
  induction hs as [|[[s t] u] rest IH]; [reflexivity|].
  cbn [summaries_of List.map]. now rewrite IH.
Qed.

(** The start line and the type of each command are those of its
    header. *)
Lemma parse_heads cfg text :
  exists cmds,
    parseSQSCommands cfg text = Ok cmds /\
    List.map (fun c => (start_line c, type c)) cmds =
    List.map header_head (header_lines 0 (split_lines text)).
Proof.
  destruct (parse_summaries cfg text) as (cmds & H & Hsum).
  exists cmds. split; [exact H|].
  rewrite <- summaries_of_heads with (n := Z.of_nat (List.length (split_lines text))).
  rewrite <- Hsum, map_map. reflexivity.
Qed.

Lemma for_each_command_lenses (body : SQSCommand -> outcome CodeLens)
    (f : SQSCommand * header -> CodeLens) :
  (forall c s t u, start_line c = Some s -> type c = Some t -> 0 <= s ->
     body c = Returns (f (c, (s, t, u)))) ->
  forall cmds hs acc,
    List.map (fun c => (start_line c, type c)) cmds = List.map header_head hs ->
    Forall (fun h : header => 0 <= fst (fst h)) hs ->
    for_each_command body cmds acc = Returns (acc ++ List.map f (combine cmds hs)).
Proof.
  intros Hbody. induction cmds as [|c cmds IH]; intros [|[[s t] u] hs] acc; try discriminate.
  - intros _ _. cbn. now rewrite app_nil_r.
  - cbn [List.map]. unfold header_head at 1. cbn [fst snd]. intros [= Hs Ht Hrest] HF.
    inversion HF as [|x xs H0 HF']; subst. cbn [fst] in H0.
    cbn [for_each_command combine List.map]. rewrite (Hbody c s t u Hs Ht H0).
    rewrite (IH hs _ Hrest HF'). now rewrite <- app_assoc.
Qed.

Lemma point_range (s : Z) :
  new_Range (mkPosition s 0) (mkPosition s 0) = mkRange (mkPosition s 0) (mkPosition s 0).
Proof. unfold new_Range, isBefore. cbn. now rewrite !Z.ltb_irrefl. Qed.

Lemma map_length_eq {A B C : Type} (f : A -> C) (g : B -> C) (l1 : list A) (l2 : list B) :
  List.map f l1 = List.map g l2 -> List.length l1 = List.length l2.
Proof. intros H. apply (f_equal (@List.length _)) in H. now rewrite !length_map in H. Qed.

(** X10.  The CodeLens provider of src/providers never throws on a
    document of the language [sqs].  It shows one lens for each header
    line of the document, on that line at column 0, titled
    ['Send Request'], whose command is the one that [activate] registers
    for the type of the header and whose argument is the parsed command. *)
Theorem code_lenses_follow_headers (cfg : Configuration) (document : TextDocument) :
  languageId document = js "sqs" ->
  exists cmds,
    parseSQSCommands cfg (getText document) = Ok cmds /\
    List.length cmds = List.length (header_lines 0 (split_lines (getText document))) /\
    Providers.provideCodeLenses cfg document =
    Returns (List.map providers_lens
               (combine cmds (header_lines 0 (split_lines (getText document))))) /\
    Forall (fun l => In (command (lens_command l)) Providers.registered)
      (List.map providers_lens
         (combine cmds (header_lines 0 (split_lines (getText document))))).
Proof.
  intros Hlang. destruct (parse_heads cfg (getText document)) as (cmds & Hparse & Hheads).
  exists cmds. split; [exact Hparse|]. split; [exact (map_length_eq _ _ _ _ Hheads)|]. split.
  - unfold Providers.provideCodeLenses. rewrite Hlang, Hparse.
    replace (jsstring_eqb (js "sqs") (js "sqs")) with true by reflexivity. cbn [negb api].
    rewrite (for_each_command_lenses _ providers_lens) with
      (hs := header_lines 0 (split_lines (getText document)));
      [reflexivity | | exact Hheads | apply header_lines_nonneg; lia].
    intros c s t u Hs Ht H0. unfold start_line in Hs.
    destruct (range c) as [r|]; [|discriminate]. cbn in Hs. injection Hs as <-.
    unfold new_Position. destruct (Z.ltb_spec (line (range_start r)) 0); [lia|].
    cbn [api Z.ltb Z.compare]. rewrite point_range, Ht. now destruct t.
  - apply Forall_forall. intros l Hl. apply in_map_iff in Hl.
    destruct Hl as ([c [[i t] u]] & <- & _). cbn. destruct t; auto.
Qed.

(** X11.  The provider that the second extension.ts holds does the same
    under its own names: one lens for each header line, on that line,
    titled ['Send SEND Command'], ['Send RECEIVE Command'] or
    ['Send PURGE Command'], with the command that its [activate]
    registers for the type. *)
Theorem extension_code_lenses_follow_headers
    (cfg : Configuration) (document : TextDocument) :
  languageId document = js "sqs" ->
  exists cmds,
    parseSQSCommands cfg (getText document) = Ok cmds /\
    List.length cmds = List.length (header_lines 0 (split_lines (getText document))) /\
    Extension.provideCodeLenses cfg document =
    Returns (List.map extension_lens
               (combine cmds (header_lines 0 (split_lines (getText document))))) /\
    Forall (fun l => In (command (lens_command l)) Extension.registered)
      (List.map extension_lens
         (combine cmds (header_lines 0 (split_lines (getText document))))).
Proof.
  intros Hlang. destruct (parse_heads cfg (getText document)) as (cmds & Hparse & Hheads).
  exists cmds. split; [exact Hparse|]. split; [exact (map_length_eq _ _ _ _ Hheads)|]. split.
  - unfold Extension.provideCodeLenses. rewrite Hlang, Hparse.
    replace (jsstring_eqb (js "sqs") (js "sqs")) with true by reflexivity. cbn [negb api].
    rewrite (for_each_command_lenses _ extension_lens) with
      (hs := header_lines 0 (split_lines (getText document)));
      [reflexivity | | exact Hheads | apply header_lines_nonneg; lia].
    intros c s t u Hs Ht H0. unfold start_line in Hs.
    destruct (range c) as [r|]; [|discriminate]. cbn in Hs. injection Hs as <-.
    unfold new_Position. destruct (Z.ltb_spec (line (range_start r)) 0); [lia|].
    cbn [api Z.ltb Z.compare]. rewrite point_range, Ht. now destruct t.
  - apply Forall_forall. intros l Hl. apply in_map_iff in Hl.
    destruct Hl as ([c [[i t] u]] & <- & _). cbn. destruct t; auto.
Qed.

(** ** The request of a RECEIVE command *)

(** X12.  The two RECEIVE handlers build the same request from a
    command.  For the command of a RECEIVE block it names the URL of the
    header, and takes each number from the last line that sets it, except
    that an absent or zero [max-messages] becomes 10 and an absent or
    zero [visibility-timeout] becomes 30: a written [0] does not reach
    the request.  An absent [wait-time] becomes 0. *)
Theorem receive_request_of_block
    (cfg : Configuration) (text : jsstring) (pre : list jsstring) (h : jsstring)
    (block post : list jsstring) :
  split_lines text = pre ++ h :: block ++ post ->
  is_block h block post = true ->
  header_type h = Some RECEIVE ->
  exists c,
    block_command cfg text pre = Some c /\
    receive_request c = receive_params c /\
    QueueUrl (receive_params c) = option_map snd (commandBlockPattern (trim h)) /\
    MaxNumberOfMessages (receive_params c) =
      match last_match maxMessagesPattern block with
      | Some d => if (parseInt d =? 0)%N then 10%N else parseInt d
      | None => 10%N
      end /\
    VisibilityTimeout (receive_params c) =
      match last_match visibilityTimeoutPattern block with
      | Some d => if (parseInt d =? 0)%N then 30%N else parseInt d
      | None => 30%N
      end /\
    WaitTimeSeconds (receive_params c) =
      match last_match waitTimePattern block with
      | Some d => parseInt d
      | None => 0%N
      end.
Proof.
  intros Hsplit Hb Hty.
  destruct (receive_block cfg text pre h block post Hsplit Hb Hty)
    as (c & u & Hp & Hc & Hu & Hm & Hv & Hw).
  exists c. split; [exact Hc|]. split; [reflexivity|].
  unfold receive_params. cbn. rewrite Hu, Hm, Hv, Hw, Hp. cbn. repeat split.
  - now destruct (last_match maxMessagesPattern block).
  - now destruct (last_match visibilityTimeoutPattern block).
  - destruct (last_match waitTimePattern block) as [d|]; [|reflexivity]. cbn.
    destruct (N.eqb_spec (parseInt d) 0); congruence.
Qed.

(** ** A body that has been parsed is final *)

Lemma parse_tokens_more ts1 : forall st v t ts2,
  parse_tokens ts1 st = Some v -> parse_tokens (ts1 ++ t :: ts2) st = None.
Proof.
  induction ts1 as [|a ts1 IH]; intros st v t ts2; cbn [parse_tokens app].
  - destruct st as [[] [|f stack]]; try discriminate. reflexivity.
  - destruct (parse_step a st) as [st1|]; [|discriminate]. apply IH.
Qed.

(** The tokens of a text that is followed by a line feed and an opening
    brace. *)
Lemma lex_two_texts (t1 r : jsstring) (ts1 ts : list token) :
  lex t1 = Some ts1 -> lex (t1 ++ 10%N :: 123%N :: r) = Some ts ->
  exists ts2, ts = ts1 ++ TLBrace :: ts2.
Proof.
  rewrite lex_line_feed.
  destruct (lex_from (t1 ++ [10%N]) (LxIdle, [])) as [[m toks1]|] eqn:E1; [|discriminate].
  destruct m; try discriminate. intros [= <-].
  unfold lex. change (t1 ++ 10%N :: 123%N :: r) with (t1 ++ [10%N] ++ 123%N :: r).
  rewrite app_assoc, lex_from_app, E1. cbn [lex_from].
  change (lex_step 123%N (LxIdle, toks1)) with (Some (LxIdle, TLBrace :: toks1)).
  destruct (lex_from r (LxIdle, TLBrace :: toks1)) as [[m toks]|] eqn:E2; [|discriminate].
  apply lex_from_keeps_tokens in E2. destruct E2 as [pre ->].
  destruct m as [|acc|acc|acc hex|acc|acc]; try discriminate.
  - intros [= <-]. rewrite rev_app_distr. cbn [rev]. rewrite <- app_assoc. cbn. eauto.
  - destruct (parse_number (rev acc)) as [[m e]|]; [|discriminate].
    intros [= <-]. cbn [rev]. rewrite rev_app_distr. cbn [rev].
    rewrite <- !app_assoc. cbn. eauto.
  - destruct (parse_word (rev acc)) as [t|]; [|discriminate].
    intros [= <-]. cbn [rev]. rewrite rev_app_distr. cbn [rev].
    rewrite <- !app_assoc. cbn. eauto.
Qed.

(** A text that [JSON.parse] accepts is no longer accepted when a line
    with an opening brace in front follows it. *)
Lemma JSON_parse_final (t1 r : jsstring) (v : json) :
  JSON_parse t1 = Some v -> JSON_parse (t1 ++ 10%N :: 123%N :: r) = None.
Proof.
  unfold JSON_parse. destruct (lex t1) as [ts1|] eqn:E1; [|discriminate].
  destruct (lex (t1 ++ 10%N :: 123%N :: r)) as [ts|] eqn:E2; [|reflexivity].
  destruct (lex_two_texts _ _ _ _ E1 E2) as [ts2 ->]. apply parse_tokens_more.
Qed.

Lemma join_lines_app (L : list jsstring) (l : jsstring) (S : list jsstring) :
  L <> [] -> join_lines (L ++ l :: S) = join_lines L ++ 10%N :: join_lines (l :: S).
Proof.
  induction L as [|a L IH]; [congruence|]. intros _.
  destruct L as [|b L]; [reflexivity|].
  change ((a :: b :: L) ++ l :: S) with (a :: (b :: L) ++ l :: S).
  cbn [app]. rewrite !join_lines_cons. cbn [app] in IH. rewrite IH by discriminate.
  now rewrite <- app_assoc.
Qed.

Lemma JSON_parse_lines_final (L S : list jsstring) (l : jsstring) (v : json) :
  L <> [] -> startsWith (js "{") l = true ->
  JSON_parse (join_lines L) = Some v -> JSON_parse (join_lines (L ++ l :: S)) = None.
Proof.
  intros HL Hl Hv. rewrite join_lines_app by exact HL.
  apply startsWith_cons in Hl. destruct Hl as [l' ->].
  assert (forall c, join_lines ((c :: l') :: S) = c :: join_lines (l' :: S)) as Hj.
  { intros c. unfold join_lines. now destruct S. }
  rewrite Hj. now apply JSON_parse_final with v.
Qed.

(** Inside a block the open command keeps a body that has been parsed. *)
Lemma transition_kept cfg i raw st st' :
  is_header raw = false -> parsed_body_kept st ->
  transition cfg i (trim raw) st st' ->
  parsed_body_kept st' /\
  (forall c v, currentCommand st = Some c -> messageBody c = Some v ->
     exists c', currentCommand st' = Some c' /\ messageBody c' = Some v).
Proof.
  intros Hraw HK T.
  inversion T as [s0 | s0 s1 t0 u0 Hpat Hpush | s0 c0 v0 Hc0 Hj0 Hpp
                  | s0 c0 v0 Hc0 Hj0 Hpp Hrp | s0 c0 c' Hc0 Hj0 Hpp Hrp Hty Hrecv
                  | s0 c0 Hc0 Hj0 Hpp Hrp Hty Hst | s0 s1 Hj0 Hon]; subst.
  - split; [exact HK|]. eauto.
  - exfalso. eapply not_header_no_match; eauto.
  - split.
    + intros c v [= <-] Hv. exact (HK c0 v Hc0 Hv).
    + intros c v Hc Hv. rewrite Hc0 in Hc. injection Hc as <-. eexists. split; [reflexivity|].
      exact Hv.
  - split.
    + intros c v [= <-] Hv. exact (HK c0 v Hc0 Hv).
    + intros c v Hc Hv. rewrite Hc0 in Hc. injection Hc as <-. eexists. split; [reflexivity|].
      exact Hv.
  - apply receive_parameter_fields in Hrecv. destruct Hrecv as (_ & _ & _ & _ & Hm). split.
    + intros c v [= <-] Hv. rewrite Hm in Hv. exact (HK c0 v Hc0 Hv).
    + intros c v Hc Hv. rewrite Hc0 in Hc. injection Hc as <-. exists c'. split; [reflexivity|].
      congruence.
  - split; [|cbn; eauto].
    intros c v Hc Hv. cbn in Hc. destruct (HK c v Hc Hv) as (L & S & HL & Hne & Hp & HS).
    exists L, (S ++ [trim raw]). cbn. rewrite HL, <- app_assoc.
    repeat split; auto. destruct S; [exact Hst | exact HS].
  - unfold on_json_line in Hon.
    destruct (count_braces (trim raw) (bracesCount st) =? 0); injection Hon as <-; cbn.
    + destruct (currentCommand st) as [c|] eqn:Ec; [|split; [intros ? ? [=] | intros ? ? [=]]].
      assert (forall v, messageBody c = Some v ->
                exists L S, commandBodyLines st ++ [trim raw] = L ++ S /\ L <> [] /\
                  JSON_parse (join_lines L) = Some v /\
                  match S with [] => false = false | l :: _ => startsWith (js "{") l = true end /\
                  JSON_parse (join_lines (commandBodyLines st ++ [trim raw])) = None) as Hold.
      { intros v Hv. destruct (HK c v Ec Hv) as (L & S & HL & Hne & Hp & HS).
        destruct S as [|l S]; [congruence|].
        exists L, ((l :: S) ++ [trim raw]). rewrite HL, <- app_assoc.
        repeat split; auto. now apply JSON_parse_lines_final with v. }
      destruct (has_type c SEND).
      * destruct (JSON_parse (join_lines (commandBodyLines st ++ [trim raw]))) as [w|] eqn:E.
        -- destruct (messageBody c) as [v|] eqn:Ev.
           { destruct (Hold v eq_refl) as (_ & _ & _ & _ & _ & _ & Hn). discriminate. }
           split; [|intros c1 v1 [= <-] Hv1; congruence].
           intros c1 v1 [= <-]. cbn. intros [= <-].
           exists (commandBodyLines st ++ [trim raw]), []. rewrite app_nil_r.
           repeat split; auto. now destruct (commandBodyLines st).
        -- split.
           ++ intros c1 v1 [= <-] Hv. destruct (Hold v1 Hv) as (L & S & H1 & H2 & H3 & H4 & _).
              exists L, S. auto.
           ++ intros c1 v1 [= <-] Hv. eauto.
      * split.
        -- intros c1 v1 [= <-] Hv. destruct (Hold v1 Hv) as (L & S & H1 & H2 & H3 & H4 & _).
           exists L, S. auto.
        -- intros c1 v1 [= <-] Hv. eauto.
    + split; [|eauto].
      intros c v Hc Hv. destruct (HK c v Hc Hv) as (L & S & HL & Hne & Hp & HS).
      destruct S as [|l S]; [congruence|].
      exists L, ((l :: S) ++ [trim raw]). rewrite HL, <- app_assoc. repeat split; auto.
Qed.

(** X13.  A body that has been parsed is final.  Once the open command
    of a block has a body, after the header [h] and the lines [b1], no
    later line [b2] of the block changes it: a second object in the block
    is appended to the body text, which [JSON.parse] then rejects, and
    sealing does not parse again. *)
Theorem parsed_body_is_final
    (cfg : Configuration) (text : jsstring) (pre : list jsstring) (h : jsstring)
    (b1 b2 post : list jsstring) (st1 : scanner) (c1 : SQSCommand) (v : json) :
  split_lines text = pre ++ h :: (b1 ++ b2) ++ post ->
  is_block h (b1 ++ b2) post = true ->
  scan cfg 0 (h :: b1) initial = Ok st1 ->
  currentCommand st1 = Some c1 ->
  messageBody c1 = Some v ->
  exists c, block_command cfg text pre = Some c /\ messageBody c = Some v.
Proof.
  intros Hsplit Hb Hst1 Hc1 Hv.
  destruct (block_command_sealed cfg text pre h (b1 ++ b2) post Hsplit Hb)
    as (st & c & Hst & Hc & Hcmd).
  destruct (is_block_parts _ _ _ Hb) as [Hh Hblock].
  apply forallb_not_header_app in Hblock. destruct Hblock as [Hnh1 Hnh2].
  destruct (is_header_pattern h Hh) as (t & u & Hp).
  assert (parsed_body_kept st1) as HK1.
  { rewrite (scan_header_first _ _ _ _ _ Hp) in Hst1.
    apply (scan_block_invariant cfg parsed_body_kept b1 1 (opened cfg t u) st1); auto.
    - intros i raw s s' _ Hraw HK T. now apply (transition_kept cfg i raw s s').
    - intros c0 v0 [= <-]. discriminate. }
  assert (scan cfg (0 + Z.of_nat (List.length (h :: b1))) b2 st1 = Ok st) as Hst2.
  { change (h :: b1 ++ b2) with ((h :: b1) ++ b2) in Hst. rewrite scan_app, Hst1 in Hst.
    exact Hst. }
  assert (parsed_body_kept st /\
          exists c', currentCommand st = Some c' /\ messageBody c' = Some v) as [_ (c' & Hc' & Hv')].
  { apply (scan_block_invariant cfg
             (fun s => parsed_body_kept s /\
                       exists c', currentCommand s = Some c' /\ messageBody c' = Some v)
             b2 (0 + Z.of_nat (List.length (h :: b1))) st1 st); eauto.
    intros i raw s s' _ Hraw (HK & c0 & Hc0 & Hv0) T.
    destruct (transition_kept cfg i raw s s' Hraw HK T) as [HK' Hkeep]. eauto. }
  rewrite Hc in Hc'. injection Hc' as <-.
  destruct (scan_object cfg _ _ _ _ Hst) as [_ [Hobj _]].
  { split; [reflexivity|]. split; [discriminate | constructor]. }
  destruct (Hobj c Hc v Hv') as [_ [ms ->]].
  eexists. split; [exact Hcmd|]. cbn [shift_command messageBody].
  unfold sealed, no_messageBody. rewrite Hv'. cbn [truthy negb]. rewrite andb_false_r.
  exact Hv'.
Qed.

(** ** The queue URL *)

Lemma match_keyword_target_word kw line u :
  match_keyword_target kw line = Some u -> forallb not_whitespace u = true.
Proof.
  unfold match_keyword_target.
  destruct (strip_prefix kw line) as [rest|]; [|discriminate].
  destruct (take_while is_whitespace rest); [discriminate|].
  destruct (take_while not_whitespace (drop_while is_whitespace rest)) eqn:E; [discriminate|].
  intros [= <-]. apply forallb_forall. intros c Hc. rewrite <- E in Hc.
  now apply take_while_all in Hc.
Qed.

Lemma commandBlockPattern_word line t u :
  commandBlockPattern line = Some (t, u) -> forallb not_whitespace u = true.
Proof.
  unfold commandBlockPattern.
  destruct (match_keyword_target (js "SEND") line) eqn:E1.
  { intros [= _ <-]. eapply match_keyword_target_word; eauto. }
  destruct (match_keyword_target (js "RECEIVE") line) eqn:E2.
  { intros [= _ <-]. eapply match_keyword_target_word; eauto. }
  destruct (match_keyword_target (js "PURGE") line) eqn:E3; [|discriminate].
  intros [= _ <-]. eapply match_keyword_target_word; eauto.
Qed.

Lemma header_lines_pattern ls : forall i s t u,
  In (s, t, u) (header_lines i ls) ->
  exists l, In l ls /\ commandBlockPattern (trim l) = Some (t, u).
Proof.
  induction ls as [|l rest IH]; intros i s t u; cbn [header_lines]; [intros []|].
  assert (In (s, t, u) (header_lines (i + 1) rest) ->
          exists l0, In l0 (l :: rest) /\ commandBlockPattern (trim l0) = Some (t, u)) as Hrest.
  { intros H. apply IH in H. destruct H as (l0 & Hin & Hp). exists l0. split; [now right | exact Hp]. }
  destruct (commandBlockPattern (trim l)) as [[t0 u0]|] eqn:E; [|exact Hrest].
  intros [[= <- <- <-] | H]; [|now apply Hrest].
  exists l. split; [now left | exact E].
Qed.

Lemma summaries_of_in hs n x :
  In x (summaries_of hs n) ->
  exists s t u, In (s, t, u) hs /\ snd (fst x) = Some t /\ snd x = Some u.
Proof.
  induction hs as [|[[s t] u] rest IH]; cbn [summaries_of]; [intros []|].
  intros [<- | H].
  - exists s, t, u. split; [now left | auto].
  - destruct (IH H) as (s' & t' & u' & Hin & Ht & Hu). exists s', t', u'.
    split; [now right | auto].
Qed.

(** X14.  The type and the queue URL of every emitted command are the
    two groups of the header pattern on a line of the document, and the
    URL holds no white space: it ends where the first white space after
    it starts, and the rest of the header line is dropped. *)
Theorem queue_url_is_one_word
    (cfg : Configuration) (text : jsstring) (cmds : list SQSCommand) (c : SQSCommand) :
  parseSQSCommands cfg text = Ok cmds -> In c cmds ->
  exists l t u,
    In l (split_lines text) /\ commandBlockPattern (trim l) = Some (t, u) /\
    type c = Some t /\ queueUrl c = Some u /\ forallb not_whitespace u = true.
Proof.
  intros H Hin. destruct (parse_summaries cfg text) as (cmds' & H' & Hsum).
  rewrite H in H'. injection H' as <-.
  assert (In (summary c) (List.map summary cmds)) as Hc by now apply in_map.
  rewrite Hsum in Hc. apply summaries_of_in in Hc.
  destruct Hc as (s & t & u & Hh & Ht & Hu).
  apply header_lines_pattern in Hh. destruct Hh as (l & Hl & Hp).
  exists l, t, u. repeat split; auto. now apply commandBlockPattern_word in Hp.
Qed.

(** ** Examples of the further properties *)

(** In [receive_document] the SEND command runs over lines 0 to 2 and
    the RECEIVE command starts on line 3. *)
Lemma ranges_follow_one_another_witness :
  exists s e,
    range x_command = Some (lines_range s e) /\
    0 <= s <= e /\
    e < Z.of_nat (List.length (split_lines receive_document)) /\
    (forall c', nth_error [x_command; b_command] 1 = Some c' -> start_line c' = Some (e + 1)) /\
    (nth_error [x_command; b_command] 1 = None ->
     e = Z.of_nat (List.length (split_lines receive_document)) - 1).
Proof.
  apply (ranges_follow_one_another no_settings receive_document [x_command; b_command]
           0 x_command).
  - vm_compute. reflexivity.
  - reflexivity.
Defined.

(** A document with Windows line ends and indentation, and the same
    document without them. *)
Lemma parse_ignores_white_space_around_lines_witness :
  parseSQSCommands no_settings crlf_document = parseSQSCommands no_settings lf_document.
Proof.
  apply (parse_ignores_white_space_around_lines no_settings crlf_document lf_document).
  vm_compute. reflexivity.
Defined.

(** [send_document] followed by [purge_document]. *)
Lemma parse_of_two_documents_witness :
  parseSQSCommands no_settings (send_document ++ 10%N :: purge_document) =
  Ok ([send_command]
      ++ List.map (shift_command (Z.of_nat (List.length (split_lines send_document))))
           [purge_command]).
Proof.
  apply (parse_of_two_documents no_settings send_document purge_document
           [send_command] [purge_command]).
  - reflexivity.
  - vm_compute. reflexivity.
  - vm_compute. reflexivity.
Defined.

Lemma message_attributes_are_never_set_witness : messageAttributes x_command = None.
Proof.
  apply (message_attributes_are_never_set no_settings receive_document
           [x_command; b_command] x_command).
  - vm_compute. reflexivity.
  - now left.
Defined.


(** In [overridden_document] the second [max-messages:] line wins, with
    the value 7; no line sets the visibility timeout, and the wait time
    is 0. *)
Lemma last_receive_parameter_line_wins_witness :
  exists c,
    block_command no_settings overridden_document [] = Some c /\
    maxMessages c = Some 7%N /\
    visibilityTimeout c = None /\
    waitTimeSeconds c = Some 0%N.
Proof.
  destruct (last_receive_parameter_line_wins no_settings overridden_document []
              (js "RECEIVE https://q/c")
              [js "profile: first"; js "max-messages: 5"; js "  profile:  second  ";
               js "max-messages: 007"; js "wait-time: 0"] [])
    as (c & H1 & H2 & H3 & H4); try reflexivity.
  exists c. repeat split; auto.
Defined.

Lemma message_body_is_an_object_on_send_witness :
  type x_command = Some SEND /\
  (exists ms, JObject [(js "x", JNumber 1 0)] = JObject ms) /\
  no_messageBody x_command = false.
Proof.
  apply (message_body_is_an_object_on_send no_settings receive_document
           [x_command; b_command] x_command (JObject [(js "x", JNumber 1 0)])).
  - vm_compute. reflexivity.
  - now left.
  - reflexivity.
Defined.

(** The lenses of [receive_document]: one on line 0 and one on line 3. *)
Lemma code_lenses_follow_headers_witness :
  exists cmds,
    parseSQSCommands no_settings (getText (sqs_document receive_document)) = Ok cmds /\
    List.length cmds =
      List.length (header_lines 0 (split_lines (getText (sqs_document receive_document)))) /\
    Providers.provideCodeLenses no_settings (sqs_document receive_document) =
    Returns (List.map providers_lens
               (combine cmds
                  (header_lines 0 (split_lines (getText (sqs_document receive_document)))))) /\
    Forall (fun l => In (command (lens_command l)) Providers.registered)
      (List.map providers_lens
         (combine cmds
            (header_lines 0 (split_lines (getText (sqs_document receive_document)))))).
Proof.
  apply (code_lenses_follow_headers no_settings (sqs_document receive_document)).
  reflexivity.
Defined.

Lemma extension_code_lenses_follow_headers_witness :
  exists cmds,
    parseSQSCommands no_settings (getText (sqs_document receive_document)) = Ok cmds /\
    List.length cmds =
      List.length (header_lines 0 (split_lines (getText (sqs_document receive_document)))) /\
    Extension.provideCodeLenses no_settings (sqs_document receive_document) =
    Returns (List.map extension_lens
               (combine cmds
                  (header_lines 0 (split_lines (getText (sqs_document receive_document)))))) /\
    Forall (fun l => In (command (lens_command l)) Extension.registered)
      (List.map extension_lens
         (combine cmds
            (header_lines 0 (split_lines (getText (sqs_document receive_document)))))).
Proof.
  apply (extension_code_lenses_follow_headers no_settings (sqs_document receive_document)).
  reflexivity.
Defined.

(** The two lenses that the provider of src/providers returns for
    [receive_document]. *)
Example code_lenses_of_receive_document :
  Providers.provideCodeLenses no_settings (sqs_document receive_document) =
  Returns [lens_at (js "Send Request") (js "sqs-client.sendSQSCommand") 0 x_command;
           lens_at (js "Send Request") (js "sqs-client.receiveSQSMessages") 3 b_command].
Proof. vm_compute. reflexivity. Qed.

(** In [zero_document] the written zeros of [max-messages] and
    [visibility-timeout] are replaced by 10 and 30 in the request. *)
Lemma receive_request_of_block_witness :
  exists c,
    block_command no_settings zero_document [] = Some c /\
    maxMessages c = Some 0%N /\
    receive_request c = mkReceiveMessageRequest (Some (js "https://q/z")) 10 30 0.
Proof.
  destruct (receive_request_of_block no_settings zero_document []
              (js "RECEIVE https://q/z")
              [js "max-messages: 0"; js "visibility-timeout: 0"; js "wait-time: 0"] [])
    as (c & H1 & H2 & H3 & H4 & H5 & H6); try reflexivity.
  exists c. split; [exact H1|]. split.
  - vm_compute in H1. injection H1 as <-. reflexivity.
  - rewrite H2. destruct (receive_params c) as [q m v w]. cbn in H3, H4, H5, H6.
    rewrite H3, H4, H5, H6. reflexivity.
Defined.

(** In [two_bodies_document] the body is the first object; the second
    one is lost. *)
Lemma parsed_body_is_final_witness :
  exists c,
    block_command no_settings two_bodies_document [] = Some c /\
    messageBody c = Some (JObject [(js "x", JNumber 1 0)]).
Proof.
  eapply (parsed_body_is_final no_settings two_bodies_document [] (js "SEND https://q/a")
            [js "{"; jtext "'x': 1"; js "}"] [js "{"; jtext "'y': 2"; js "}"] []).
  - reflexivity.
  - reflexivity.
  - vm_compute. reflexivity.
  - reflexivity.
  - reflexivity.
Defined.

Lemma queue_url_is_one_word_witness :
  exists l t u,
    In l (split_lines purge_document) /\ commandBlockPattern (trim l) = Some (t, u) /\
    type purge_command = Some t /\ queueUrl purge_command = Some u /\
    forallb not_whitespace u = true.
Proof.
  apply (queue_url_is_one_word no_settings purge_document [purge_command] purge_command).
  - vm_compute. reflexivity.
  - now left.
Defined.

(** * The required fields and the numeric fields, block by block *)

(** ** The block of each command *)

Lemma header_lines_length ls : forall i j,
  List.length (header_lines i ls) = List.length (header_lines j ls).
Proof.
  induction ls as [|l rest IH]; intros i j; [reflexivity|]. cbn [header_lines].
  destruct (commandBlockPattern (trim l)) as [[t u]|]; cbn [List.length];
    now rewrite (IH (i + 1) (j + 1)).
Qed.

(** The lines up to the next header. *)
Lemma block_after (ls : list jsstring) :
  exists block post,
    ls = block ++ post /\
    forallb (fun l => negb (is_header l)) block = true /\
    match post with [] => true | h' :: _ => is_header h' end = true.
Proof.
  induction ls as [|l rest (block & post & Hls & Hblock & Hpost)].
  - exists [], []. auto.
  - destruct (is_header l) eqn:Hl.
    + exists [], (l :: rest). auto.
    + exists (l :: block), post. rewrite Hls. cbn [app forallb]. rewrite Hl. auto.
Qed.

(** The header of rank [k] of a document, with its block. *)
Lemma kth_block (ls : list jsstring) : forall k,
  (k < List.length (header_lines 0 ls))%nat ->
  exists pre h block post,
    ls = pre ++ h :: block ++ post /\
    is_block h block post = true /\
    List.length (header_lines 0 pre) = k.
Proof.
  induction ls as [|l rest IH]; intros k; cbn [header_lines List.length]; [lia|].
  assert (forall k', (k' < List.length (header_lines (0 + 1) rest))%nat ->
            exists pre h block post,
              rest = pre ++ h :: block ++ post /\ is_block h block post = true /\
              List.length (header_lines (0 + 1) pre) = k') as IH'.
  { intros k'. rewrite (header_lines_length rest (0 + 1) 0). intros Hk.
    destruct (IH k' Hk) as (pre & h & block & post & H1 & H2 & H3).
    exists pre, h, block, post. now rewrite (header_lines_length pre (0 + 1) 0). }
  destruct (commandBlockPattern (trim l)) as [[t u]|] eqn:E; cbn [List.length].
  - destruct k as [|k'].
    + intros _. destruct (block_after rest) as (block & post & Hls & Hblock & Hpost).
      exists [], l, block, post. rewrite Hls. split; [reflexivity|]. split; [|reflexivity].
      unfold is_block. rewrite Hblock, Hpost. unfold is_header. now rewrite E.
    + intros Hk. destruct (IH' k') as (pre & h & block & post & H1 & H2 & H3); [lia|].
      exists (l :: pre), h, block, post. rewrite H1. repeat split; auto.
      cbn [header_lines]. rewrite E. cbn [List.length]. now rewrite H3.
  - intros Hk. destruct (IH' k Hk) as (pre & h & block & post & H1 & H2 & H3).
    exists (l :: pre), h, block, post. rewrite H1. repeat split; auto.
    cbn [header_lines]. now rewrite E.
Qed.

(** The lines of a document give one command for each header line. *)
Lemma parseLines_length cfg ls :
  exists cmds,
    parseLines cfg ls = Ok cmds /\
    List.length cmds = List.length (header_lines 0 ls).
Proof.
  unfold parseLines.
  destruct (scan_expected cfg ls 0 initial) as (cmds & H & Hsum);
    [lia | apply initial_open_ok |].
  rewrite Z.add_0_l in H. exists cmds. split; [exact H|].
  apply (f_equal (@List.length _)) in Hsum. rewrite length_map in Hsum. rewrite Hsum.
  rewrite expected_summaries. cbn. apply summaries_of_length.
Qed.

(** Every emitted command is the command of a block of the document. *)
Lemma command_has_block cfg text cmds k c :
  parseSQSCommands cfg text = Ok cmds -> nth_error cmds k = Some c ->
  exists pre h block post,
    split_lines text = pre ++ h :: block ++ post /\
    is_block h block post = true /\
    block_command cfg text pre = Some c.
Proof.
  intros Hparse Hk.
  destruct (parseLines_length cfg (split_lines text)) as (cmds' & H' & Hlen).
  unfold parseSQSCommands in Hparse. rewrite Hparse in H'. injection H' as <-.
  assert (k < List.length (header_lines 0 (split_lines text)))%nat as Hlt.
  { rewrite <- Hlen. apply nth_error_Some. congruence. }
  destruct (kth_block _ k Hlt) as (pre & h & block & post & Hsplit & Hb & Hpre).
  exists pre, h, block, post. repeat split; auto.
  unfold block_command, parseSQSCommands.
  destruct (parseLines_length cfg pre) as (before & -> & Hlb).
  now rewrite Hparse, Hlb, Hpre.
Qed.

(** ** The required fields *)

Lemma or_default_origin (v : option jsstring) (d : jsstring) pattern block :
  d <> [] ->
  or_default v d <> [] /\ origin v d pattern block (or_default v d).
Proof.
  intros Hd. unfold origin, or_default. destruct v as [[|c s]|]; cbn.
  - split; [exact Hd|]. right. left. auto.
  - split; [discriminate|]. left. split; [reflexivity | discriminate].
  - split; [exact Hd|]. right. left. auto.
Qed.

(** The open command of a block keeps the type and the URL of the
    header; its profile and its region are not empty, and each is the
    default the command started with or the value of a line of the
    block. *)
Lemma scan_block_origin cfg t u block i st :
  forallb (fun l => negb (is_header l)) block = true ->
  scan cfg i block (opened cfg t u) = Ok st ->
  exists c,
    currentCommand st = Some c /\ type c = Some t /\ queueUrl c = Some u /\
    (exists p, profile c = Some p /\ p <> [] /\
               origin (defaultProfile cfg) (js "default") profilePattern block p) /\
    (exists r, region c = Some r /\ r <> [] /\
               origin (defaultRegion cfg) (js "us-east-1") regionPattern block r).
Proof.
  intros Hnh.
  apply (scan_block_invariant cfg
           (fun s => exists c,
              currentCommand s = Some c /\ type c = Some t /\ queueUrl c = Some u /\
              (exists p, profile c = Some p /\ p <> [] /\
                 origin (defaultProfile cfg) (js "default") profilePattern block p) /\
              (exists r, region c = Some r /\ r <> [] /\
                 origin (defaultRegion cfg) (js "us-east-1") regionPattern block r))
           block i (opened cfg t u) st); auto.
  - intros j raw s s' Hin Hraw (c & Hc & Ht & Hu & Hp & Hr) T.
    inversion T as [s0 | s0 s1 t0 u0 Hpat Hpush | s0 c0 v Hc0 Hj0 Hpp
                    | s0 c0 v Hc0 Hj0 Hpp Hrp | s0 c0 c' Hc0 Hj0 Hpp Hrp Hty Hrecv
                    | s0 c0 Hc0 Hj0 Hpp Hrp Hty Hst | s0 s1 Hj0 Hon]; subst.
    + exists c. auto.
    + exfalso. eapply not_header_no_match; eauto.
    + rewrite Hc in Hc0. injection Hc0 as <-.
      exists (set_profile c (trim v)). cbn. repeat split; auto.
      exists (trim v). repeat split.
      * eapply match_text_param_trimmed; eauto.
      * right. right. exists raw, v. auto.
    + rewrite Hc in Hc0. injection Hc0 as <-.
      exists (set_region c (trim v)). cbn. repeat split; auto.
      exists (trim v). repeat split.
      * eapply match_text_param_trimmed; eauto.
      * right. right. exists raw, v. auto.
    + rewrite Hc in Hc0. injection Hc0 as <-.
      apply receive_parameter_fields in Hrecv. destruct Hrecv as (H1 & H2 & H3 & H4 & _).
      exists c'. cbn. rewrite H1, H2, H3, H4. auto.
    + exists c. auto.
    + unfold on_json_line in Hon. rewrite Hc in Hon.
      destruct (count_braces (trim raw) (bracesCount s) =? 0); injection Hon as <-; cbn.
      * destruct (has_type c SEND); [|exists c; auto].
        destruct (JSON_parse _) as [w|]; [|exists c; auto].
        exists (set_messageBody c w). auto.
      * exists c. auto.
  - exists (new_command cfg t u). cbn. repeat split; auto.
    + exists (or_default (defaultProfile cfg) (js "default")).
      split; [reflexivity|]. apply or_default_origin. discriminate.
    + exists (or_default (defaultRegion cfg) (js "us-east-1")).
      split; [reflexivity|]. apply or_default_origin. discriminate.
Qed.

(** C8 (invariants of the data model), amended.  Every command that
    [parseSQSCommands] emits is the command of a block of the document:
    a header line and the lines up to the next header.  It has the type
    and the queue URL of that header, and the URL is not empty.  Its
    profile and its region are present and not empty, and each is one of
    three things: the configured default, when that is set and not empty;
    ['default'] for the profile and ['us-east-1'] for the region, when
    the configured default is missing or empty; or the trimmed value of a
    [profile:] or [region:] line of its own block. *)
Theorem emitted_commands_have_required_fields
    (cfg : Configuration) (text : jsstring) (cmds : list SQSCommand) (k : nat)
    (c : SQSCommand) :
  parseSQSCommands cfg text = Ok cmds -> nth_error cmds k = Some c ->
  exists pre h block post,
    split_lines text = pre ++ h :: block ++ post /\
    is_block h block post = true /\
    block_command cfg text pre = Some c /\
    (exists t u, commandBlockPattern (trim h) = Some (t, u) /\
                 type c = Some t /\ queueUrl c = Some u /\ u <> []) /\
    (exists p, profile c = Some p /\ p <> [] /\
               origin (defaultProfile cfg) (js "default") profilePattern block p) /\
    (exists r, region c = Some r /\ r <> [] /\
               origin (defaultRegion cfg) (js "us-east-1") regionPattern block r).
Proof.
  intros Hparse Hk.
  destruct (command_has_block cfg text cmds k c Hparse Hk)
    as (pre & h & block & post & Hsplit & Hb & Hcmd).
  exists pre, h, block, post. split; [exact Hsplit|]. split; [exact Hb|].
  split; [exact Hcmd|].
  destruct (block_command_sealed cfg text pre h block post Hsplit Hb)
    as (st & c0 & Hst & Hc0 & Hcmd').
  rewrite Hcmd in Hcmd'. injection Hcmd' as ->.
  destruct (is_block_parts _ _ _ Hb) as [Hh Hblock].
  destruct (scan_block_alone cfg h block st Hh Hst) as (t & u & Hp & Hscan).
  destruct (scan_block_origin cfg t u block 1 st Hblock Hscan)
    as (c1 & Hc1 & Ht & Hu & Hprof & Hreg).
  rewrite Hc0 in Hc1. injection Hc1 as <-.
  cbn [shift_command type queueUrl profile region].
  rewrite sealed_type, sealed_queueUrl, sealed_profile, sealed_region.
  split; [|split; assumption].
  exists t, u. repeat split; auto. now apply commandBlockPattern_target in Hp.
Qed.

(** ** Numeric parameter lines under a command that is no RECEIVE command *)





(** ** Examples of the required and the numeric fields *)

(** With both defaults set to the empty string, the command of the
    document [PURGE https://q/c] has the profile ['default']: neither
    the default that was supplied nor the value of a line. *)
Lemma required_fields_counterexample : ~ required_fields_as_stated.
Proof.
  intros H.
  destruct (H [] [] (document ["PURGE https://q/c"]%string) [] (js "PURGE https://q/c") [] [])
    as (c & Hc & _ & (p & Hp & _ & [Hd | (raw & _ & [] & _)]) & _); try reflexivity.
  vm_compute in Hc. injection Hc as <-. subst p. discriminate Hp.
Qed.

(** The command of [send_document] under [work_settings]: its profile is
    the configured ['work'], its region the built-in ['us-east-1']. *)
Lemma emitted_commands_have_required_fields_witness :
  exists pre h block post,
    split_lines send_document = pre ++ h :: block ++ post /\
    is_block h block post = true /\
    block_command work_settings send_document pre = Some work_send_command /\
    (exists t u, commandBlockPattern (trim h) = Some (t, u) /\
                 type work_send_command = Some t /\ queueUrl work_send_command = Some u /\
                 u <> []) /\
    (exists p, profile work_send_command = Some p /\ p <> [] /\
               origin (defaultProfile work_settings) (js "default") profilePattern block p) /\
    (exists r, region work_send_command = Some r /\ r <> [] /\
               origin (defaultRegion work_settings) (js "us-east-1") regionPattern block r).
Proof.
  apply (emitted_commands_have_required_fields work_settings send_document
           [work_send_command] 0 work_send_command).
  - vm_compute. reflexivity.
  - reflexivity.
Defined.


